(** * openclaw-max: the MAX channel plugin, embedded and verified

    A shallow embedding of the parts of the plugin that carry its
    behaviour: the sticker cache ([sticker-cache.ts]), the webhook sink
    ([webhook.ts]) and the monitor (polling loop, update dispatch, inbound
    message normalisation and policy gates, reply delivery).

    Conventions of the embedding.
    - A JavaScript string is the list of its UTF-16 code units ([jstr]);
      [js "..."] writes an ASCII literal.
    - JavaScript numbers that carry identifiers, timestamps and sizes are
      integers in the platform's API and are modelled as [Z].
    - [undefined]/[null] in an optional field is [None].
    - Calls that leave the plugin (host runtime, platform API, log sink,
      clock, file system) are the constructors of [Call]; a run returns the
      list of calls it made, in order, next to its result. *)

From Stdlib Require Import String Ascii ZArith Lia Sorted.
From Stdlib Require DecimalPos.
From stdpp Require Import base option list gmap.

Open Scope Z_scope.

(** ** JavaScript strings *)

Module JsString.

Definition jstr : Type := list N.

Definition js (s : string) : jstr :=
  map N_of_ascii (list_ascii_of_string s).

(** [WhiteSpace] and [LineTerminator] code units, the set that
    [String.prototype.trim] removes. *)
Definition isWhiteSpace (c : N) : bool :=
  ((9 <=? c) && (c <=? 13) || (c =? 32) || (c =? 160) || (c =? 5760)
   || (8192 <=? c) && (c <=? 8202) || (c =? 8232) || (c =? 8233)
   || (c =? 8239) || (c =? 8287) || (c =? 12288) || (c =? 65279))%N.

Fixpoint trimStart (s : jstr) : jstr :=
  match s with
  | [] => []
  | c :: r => if isWhiteSpace c then trimStart r else s
  end.

Fixpoint trimEnd (s : jstr) : jstr :=
  match s with
  | [] => []
  | c :: r =>
      match trimEnd r with
      | [] => if isWhiteSpace c then [] else [c]
      | r' => c :: r'
      end
  end.

Definition trim (s : jstr) : jstr := trimEnd (trimStart s).

(** Truthiness of a string: non-empty. *)
Definition nonEmpty (s : jstr) : bool :=
  match s with [] => false | _ => true end.

Fixpoint startsWith (s p : jstr) {struct p} : bool :=
  match p, s with
  | [], _ => true
  | a :: p', b :: s' => (a =? b)%N && startsWith s' p'
  | _ :: _, [] => false
  end.

Definition endsWith (s p : jstr) : bool := startsWith (rev s) (rev p).

Definition jstr_eqb (a b : jstr) : bool := bool_decide (a = b).

(** [s.slice(0, -1)]. *)
Definition sliceDropLast (s : jstr) : jstr := removelast s.

(** [parts.join(sep)]. *)
Fixpoint join (sep : jstr) (parts : list jstr) : jstr :=
  match parts with
  | [] => []
  | [p] => p
  | p :: rest => p ++ sep ++ join sep rest
  end.

(** [list.includes(x)] on strings. *)
Definition includes (l : list jstr) (x : jstr) : bool :=
  existsb (jstr_eqb x) l.

(** Decimal digits of a non-negative integer, most significant first. *)
Fixpoint uint_digits (d : Decimal.uint) : jstr :=
  match d with
  | Decimal.Nil => []
  | Decimal.D0 d => 48%N :: uint_digits d
  | Decimal.D1 d => 49%N :: uint_digits d
  | Decimal.D2 d => 50%N :: uint_digits d
  | Decimal.D3 d => 51%N :: uint_digits d
  | Decimal.D4 d => 52%N :: uint_digits d
  | Decimal.D5 d => 53%N :: uint_digits d
  | Decimal.D6 d => 54%N :: uint_digits d
  | Decimal.D7 d => 55%N :: uint_digits d
  | Decimal.D8 d => 56%N :: uint_digits d
  | Decimal.D9 d => 57%N :: uint_digits d
  end.

(** [String(n)] (also [`${n}`]) for an integer [n]; JavaScript prints
    integers below 10^21 in magnitude in plain decimal. *)
Definition String_of_Z (n : Z) : jstr :=
  match n with
  | Z0 => js "0"
  | Zpos p => uint_digits (Pos.to_uint p)
  | Zneg p => js "-" ++ uint_digits (Pos.to_uint p)
  end.

(** [String(x)] for an optional number: [undefined] prints its name. *)
Definition String_of_optZ (n : option Z) : jstr :=
  match n with
  | Some z => String_of_Z z
  | None => js "undefined"
  end.

(** [\d] *)
Definition isDigit (c : N) : bool := ((48 <=? c) && (c <=? 57))%N.

(** [\w] without the unicode flag: [A-Za-z0-9_]. *)
Definition isWordChar (c : N) : bool :=
  ((65 <=? c) && (c <=? 90) || (97 <=? c) && (c <=? 122)
   || isDigit c || (c =? 95))%N.

End JsString.

Export JsString.

(** ** sticker-cache.ts *)

Module StickerCache.

(** The [string | number] argument of the cache functions. *)
Inductive ChatKey :=
| ChatStr (s : jstr)
| ChatNum (n : Z).

Definition String_of_chat (c : ChatKey) : jstr :=
  match c with
  | ChatStr s => s
  | ChatNum n => String_of_Z n
  end.

(** The two module-level variables. *)
Record Cache := mkCache {
  lastStickerByChat : gmap jstr jstr;
  lastStickerGlobal : option jstr
}.

Definition initial : Cache :=
  {| lastStickerByChat := ∅; lastStickerGlobal := None |}.

Definition rememberStickerCode (chatId : ChatKey) (code : jstr) (c : Cache) : Cache :=
  let key := String_of_chat chatId in
  {| lastStickerByChat := <[key := code]> (lastStickerByChat c);
     lastStickerGlobal := Some code |}.

Definition getLastStickerCode (chatId : option ChatKey) (c : Cache) : option jstr :=
  match chatId with
  | Some k =>
      match lastStickerByChat c !! String_of_chat k with
      | Some code => if nonEmpty code then Some code else lastStickerGlobal c
      | None => lastStickerGlobal c
      end
  | None => lastStickerGlobal c
  end.

(** A history of [rememberStickerCode] calls, oldest first. *)
Definition rememberAll (h : list (ChatKey * jstr)) (c : Cache) : Cache :=
  fold_left (fun acc kc => rememberStickerCode (fst kc) (snd kc) acc) h c.

End StickerCache.

(** ** webhook.ts *)

Module Webhook.

Definition normalizeWebhookPath (raw : jstr) : jstr :=
  let trimmed := trim raw in
  if nonEmpty trimmed then
    let withSlash :=
      if startsWith trimmed (js "/") then trimmed else js "/" ++ trimmed in
    if (1 <? Z.of_nat (length withSlash)) && endsWith withSlash (js "/")
    then sliceDropLast withSlash
    else withSlash
  else js "/".

Section Resolve.

(** [new URL(input, base).pathname]; [None] when the constructor throws. *)
Variable URL_pathname : jstr -> option jstr -> option jstr.

Definition resolveMaxWebhookPath (webhookPath webhookUrl : option jstr) : jstr :=
  let trimmedPath := trim <$> webhookPath in
  match trimmedPath with
  | Some ((_ :: _) as p) => normalizeWebhookPath p
  | _ =>
      match webhookUrl with
      | Some u =>
          if nonEmpty (trim u) then
            match URL_pathname u None with
            | Some pathname =>
                normalizeWebhookPath (if nonEmpty pathname then pathname else js "/")
            | None => js "/max"
            end
          else js "/max"
      | None => js "/max"
      end
  end.

End Resolve.

(** A parsed JSON value, as [readJsonBodyWithLimit] returns it. *)
#[local] Set Warnings "-register-all".
Inductive Json :=
| JNull
| JBool (b : bool)
| JNumber (n : Z)
| JString (s : jstr)
| JArray (items : list Json)
| JObject (fields : list (jstr * Json)).

(** [JSON.stringify({ ok: true })] *)
Definition JSON_ok_true : jstr :=
  js "{" ++ [34%N] ++ js "ok" ++ [34%N] ++ js ":true}".

(** [!raw || typeof raw !== "object" || Array.isArray(raw)] *)
Definition invalidPayload (raw : Json) : bool :=
  match raw with
  | JObject _ => false
  | _ => true
  end.

(** The outcome of [readJsonBodyWithLimit]. *)
Inductive BodyResult :=
| BodyOk (value : Json)
| BodyFail (code : jstr) (error : jstr).

Record Request := mkRequest {
  req_url : option jstr;
  req_method : jstr;
  (** [req.headers["x-max-bot-api-secret"]] *)
  req_secretHeader : option jstr;
  req_body : BodyResult
}.

Record Response := mkResponse {
  statusCode : Z;
  headers : list (jstr * jstr);
  body : jstr
}.

(** [String(req.headers["x-max-bot-api-secret"] ?? '')] *)
Definition secretHeader (req : Request) : jstr := default [] (req_secretHeader req).

Section Targets.

(** The state the per-update callbacks act on, and the account and
    configuration values a target carries along. *)
Context {S Account Config : Type}.

Record MaxWebhookTarget := mkTarget {
  account : Account;
  config : Config;
  path : jstr;
  secret : option jstr;
  (** [onUpdate(update)]: [Some e] when the promise rejects, [e] being
      [String(err)]. *)
  onUpdate : Json -> S -> option jstr * S;
  log : option (jstr -> S -> S);
  error : option (jstr -> S -> S)
}.

(** [target.secret] as a condition: set and non-empty. *)
Definition hasSecret (t : MaxWebhookTarget) : bool :=
  match secret t with
  | Some s => nonEmpty s
  | None => false
  end.

Definition secretEquals (t : MaxWebhookTarget) (webhookSecret : jstr) : bool :=
  match secret t with
  | Some s => jstr_eqb s webhookSecret
  | None => false
  end.

(** The module-level [webhookTargets] map. *)
Definition Registry : Type := gmap jstr (list MaxWebhookTarget).

(** Registration appends the target, under its normalised path, to the
    targets of that path.  (The closure it returns, which removes the
    registered object again, is not part of the embedding.) *)
Definition registerMaxWebhookTarget (target : MaxWebhookTarget) (reg : Registry) : Registry :=
  let key := normalizeWebhookPath (path target) in
  let normalizedTarget :=
    {| account := account target; config := config target; path := key;
       secret := secret target; onUpdate := onUpdate target;
       log := log target; error := error target |} in
  let existing := default [] (reg !! key) in
  <[key := existing ++ [normalizedTarget]]> reg.

(** The loop that picks the target: stop at the first target whose secret
    equals the header, remember the latest target without a secret. *)
Fixpoint findMatchedTarget (targets : list MaxWebhookTarget) (webhookSecret : jstr)
    (matched : option MaxWebhookTarget) : option MaxWebhookTarget :=
  match targets with
  | [] => matched
  | target :: rest =>
      if hasSecret target && secretEquals target webhookSecret then Some target
      else if negb (hasSecret target) then findMatchedTarget rest webhookSecret (Some target)
      else findMatchedTarget rest webhookSecret matched
  end.

(** What a call to the handler leaves behind. *)
Inductive Handled :=
| NotHandled                       (* returned [false], response untouched *)
| Responded (r : Response)         (* returned [true] *)
| Threw.                           (* [new URL] rejected the request URL *)

Section Handler.

Variable URL_pathname : jstr -> option jstr -> option jstr.
(** [requestBodyErrorToText] of the plugin SDK. *)
Variable requestBodyErrorToText : jstr -> jstr.

Definition handleMaxWebhookRequest (reg : Registry) (req : Request) (s : S) : Handled * S :=
  match URL_pathname (default (js "/") (req_url req)) (Some (js "http://localhost")) with
  | None => (Threw, s)
  | Some pathname =>
      let path := normalizeWebhookPath pathname in
      match reg !! path with
      | None | Some [] => (NotHandled, s)
      | Some targets =>
          if negb (jstr_eqb (req_method req) (js "POST")) then
            (Responded {| statusCode := 405;
                          headers := [(js "Allow", js "POST")];
                          body := js "Method Not Allowed" |}, s)
          else
            let webhookSecret := secretHeader req in
            match req_body req with
            | BodyFail code err =>
                (Responded
                   {| statusCode :=
                        if jstr_eqb code (js "PAYLOAD_TOO_LARGE") then 413
                        else if jstr_eqb code (js "REQUEST_BODY_TIMEOUT") then 408
                        else 400;
                      headers := [];
                      body :=
                        if jstr_eqb code (js "REQUEST_BODY_TIMEOUT")
                        then requestBodyErrorToText (js "REQUEST_BODY_TIMEOUT")
                        else err |}, s)
            | BodyOk raw =>
                if invalidPayload raw then
                  (Responded {| statusCode := 400; headers := [];
                                body := js "invalid payload" |}, s)
                else
                  match findMatchedTarget targets webhookSecret None with
                  | None =>
                      (Responded {| statusCode := 401; headers := [];
                                    body := js "Unauthorized" |}, s)
                  | Some matchedTarget =>
                      match onUpdate matchedTarget raw s with
                      | (None, s') =>
                          (Responded
                             {| statusCode := 200;
                                headers := [(js "Content-Type", js "application/json")];
                                body := JSON_ok_true |}, s')
                      | (Some e, s') =>
                          let s'' :=
                            match error matchedTarget with
                            | Some report =>
                                report (js "Webhook update processing failed: " ++ e) s'
                            | None => s'
                            end in
                          (Responded {| statusCode := 500; headers := [];
                                        body := js "Internal Server Error" |}, s'')
                      end
                  end
            end
      end
  end.


End Handler.

Definition isPost (req : Request) : Prop := req_method req = js "POST".



End Targets.

Arguments MaxWebhookTarget : clear implicits.
Arguments Registry : clear implicits.

Definition statusOf (h : Handled) : option Z :=
  match h with
  | Responded r => Some (statusCode r)
  | _ => None
  end.

End Webhook.

(** ** api.ts: the wire types the monitor reads *)

Module Api.

(** A property value of a loosely typed object ([unknown] in the source). *)
Inductive JsValue :=
| JsUndefined
| JsNull
| JsBool (b : bool)
| JsNumber (n : Z)
| JsString (s : jstr).

Definition nullish (v : JsValue) : bool :=
  match v with JsUndefined | JsNull => true | _ => false end.

(** [a ?? b] *)
Definition orElse (a b : JsValue) : JsValue := if nullish a then b else a.

Definition truthy (v : JsValue) : bool :=
  match v with
  | JsUndefined | JsNull => false
  | JsBool b => b
  | JsNumber n => negb (n =? 0)
  | JsString s => nonEmpty s
  end.

(** [`${v}`], also [String(v)]. *)
Definition template (v : JsValue) : jstr :=
  match v with
  | JsUndefined => js "undefined"
  | JsNull => js "null"
  | JsBool true => js "true"
  | JsBool false => js "false"
  | JsNumber n => String_of_Z n
  | JsString s => s
  end.

(** [Record<string, unknown>] and the read [o[k]]. *)
Definition JsObject : Type := gmap jstr JsValue.

Definition prop (o : JsObject) (k : string) : JsValue :=
  default JsUndefined (o !! js k).

(** [o?.k] *)
Definition optProp (o : option JsObject) (k : string) : JsValue :=
  match o with
  | Some o => prop o k
  | None => JsUndefined
  end.

Record MaxUser := mkMaxUser {
  user_id : Z;
  first_name : jstr;
  last_name : option jstr;
  username : option jstr;
  is_bot : bool
}.

Record MaxRecipient := mkMaxRecipient {
  chat_id : option Z;
  chat_type : option jstr;
  recipient_user_id : option Z
}.

(** [type], [payload], and every other key of the attachment object. *)
Record MaxAttachment := mkMaxAttachment {
  att_type : option jstr;
  att_payload : option JsObject;
  att_props : JsObject
}.

Record MaxMessageBody := mkMaxMessageBody {
  mid : jstr;
  text : option jstr;
  attachments : option (list MaxAttachment)
}.

Inductive LinkType := Forward | Reply.

Inductive MaxMessage := mkMaxMessage {
  sender : option MaxUser;
  recipient : MaxRecipient;
  timestamp : Z;
  link : option MaxLinkedMessage;
  body : MaxMessageBody
}
with MaxLinkedMessage := mkMaxLinkedMessage {
  link_type : LinkType;
  link_sender : option MaxUser;
  link_chat_id : option Z;
  link_message : option MaxMessage
}.

Record MaxCallback := mkMaxCallback {
  cb_timestamp : Z;
  callback_id : jstr;
  cb_payload : option jstr;
  cb_user : MaxUser;
  cb_message : option MaxMessage
}.

Record MaxUpdate := mkMaxUpdate {
  update_type : jstr;
  upd_timestamp : Z;
  upd_message : option MaxMessage;
  upd_callback : option MaxCallback;
  upd_chat_id : option Z;
  upd_user : option MaxUser;
  user_locale : option jstr
}.

Record MaxUpdatesResponse := mkMaxUpdatesResponse {
  updates : list MaxUpdate;
  marker : option Z
}.

End Api.

(** ** accounts.ts, config-schema.ts: the resolved account *)

Module Accounts.

(** Per-group configuration; the monitor reads [requireMention] only. *)
Record MaxGroupConfig := mkMaxGroupConfig {
  requireMention : option bool
}.

Record MaxAccountConfig := mkMaxAccountConfig {
  dmPolicy : option jstr;
  allowFrom : option (list StickerCache.ChatKey);
  groupPolicy : option jstr;
  (** A key may be present with an [undefined] value. *)
  groups : option (gmap jstr (option MaxGroupConfig));
  mediaMaxMb : option Z;
  webhookUrl : option jstr;
  webhookSecret : option jstr;
  webhookPath : option jstr
}.

Record ResolvedMaxAccount := mkResolvedMaxAccount {
  accountId : jstr;
  enabled : bool;
  token : jstr;
  config : MaxAccountConfig
}.

(** The host configuration; the monitor reads
    [channels?.defaults?.groupPolicy] and [session?.store]. *)
Record OpenClawConfig := mkOpenClawConfig {
  defaults_groupPolicy : option jstr;
  session_store : option jstr
}.

End Accounts.

(** ** monitor.ts *)

Module Monitor.

Import StickerCache Api Accounts.

Record MaxMonitorOptions := mkMaxMonitorOptions {
  opt_account : ResolvedMaxAccount;
  opt_config : OpenClawConfig;
  botUserId : option Z;
  botUsername : option jstr
}.

(** *** Calls that leave the plugin *)

Inductive LogLevel := Debug | Info | Error.

(** The log lines of the monitor, by the statement that writes them. *)
Inductive LogMsg :=
| LogPollingStarted | LogPollingStopped | LogPollingError
| LogDispatchError (updateType : jstr)
| LogMessageEdited (mid : jstr)
| LogFetchedEditedText | LogFetchEditedFailed
| LogBotStarted (userId : Z)
| LogBotAdded (chatId : option Z) | LogBotRemoved (chatId : option Z)
| LogUnhandledUpdate (updateType : jstr)
| LogProcessing (mid : jstr)
| LogStickerReceived (code : jstr)
| LogDownloadFailed (attType : jstr)
| LogReplyAsMention
| LogBlockedDm
| LogPairingRequest (sender : jstr)
| LogPairingReplyFailed
| LogBlockedGroupDisabled
| LogBlockedGroupNotAllowed (chat : jstr)
| LogSkipNotMentioned
| LogSendFailed
| LogMediaSendFailed.

Inductive StatusPatch := LastInboundAt | LastOutboundAt.

Record SendOptions := mkSendOptions {
  so_token : jstr;
  replyToMessageId : option jstr;
  format : option jstr
}.

Record FetchedMedia := mkFetchedMedia {
  fm_buffer : list N;
  fm_contentType : option jstr;
  fm_fileName : option jstr
}.

Record SavedMedia := mkSavedMedia {
  sm_path : jstr;
  sm_contentType : option jstr
}.

Record AgentRoute := mkAgentRoute {
  agentId : jstr;
  sessionKey : jstr;
  route_accountId : jstr
}.

(** The argument of [finalizeInboundContext]. *)
Record InboundContext := mkInboundContext {
  Body : jstr;
  BodyForAgent : jstr;
  RawBody : jstr;
  CommandBody : jstr;
  From : jstr;
  To : jstr;
  SessionKey : option jstr;
  AccountId : jstr;
  ChatType : jstr;
  ConversationLabel : jstr;
  SenderName : option jstr;
  SenderId : option jstr;
  SenderUsername : option jstr;
  WasMentioned : option bool;
  Provider : jstr;
  Surface : jstr;
  MessageSid : jstr;
  MessageSidFull : jstr;
  ReplyToId : option jstr;
  ReplyToIdFull : option jstr;
  OriginatingChannel : jstr;
  OriginatingTo : jstr;
  MediaPath : option jstr;
  MediaPaths : option (list jstr);
  MediaUrl : option jstr;
  MediaUrls : option (list jstr);
  MediaType : option jstr;
  MediaTypes : option (list jstr)
}.

(** What the buffered dispatcher hands to the [deliver] callback. *)
Record ReplyPayload := mkReplyPayload {
  p_text : option jstr;
  p_mediaUrls : option (list jstr);
  p_mediaUrl : option jstr
}.

(** One constructor per call site that leaves the plugin, indexed by what
    the call gives back.  A call the source wraps in [try]/[catch] (or
    [.catch]) answers [None] or [false] when it throws; the calls the
    source does not guard, and the pure formatter [buildPairingReply],
    are taken to return. *)
Inductive Call : Type -> Type :=
(* log sink and status sink: [log?.level?.(..)], [statusSink?.(..)] *)
| Log (level : LogLevel) (msg : LogMsg) : Call unit
| StatusSink (patch : StatusPatch) : Call unit
(* clock, timers, abort signal, file system *)
| DateNow : Call Z
| Sleep (ms : Z) : Call unit
| AbortSignalAborted : Call bool
| WriteFile (path : jstr) (data : list N) : Call bool
| Unlink (path : jstr) : Call unit
(* platform API *)
| GetUpdates (timeout : Z) (marker : option Z) (types : list jstr)
    : Call (option MaxUpdatesResponse)
| SendAction (chatId : Z) (action : jstr) : Call unit
| GetMessages (chatId : Z) (messageIds : list jstr) (count : Z)
    : Call (option (list MaxMessage))
| SendMaxMessage (to text : jstr) (o : SendOptions) : Call bool
| SendMaxMediaMessage (to caption path : jstr) (o : SendOptions) : Call bool
(* host runtime *)
| FetchRemoteMedia (url : jstr) (maxBytes : Z) : Call (option FetchedMedia)
| SaveMediaBuffer (media : FetchedMedia) (direction : jstr) (maxBytes : Z)
    : Call (option SavedMedia)
| ReadAllowFromStore (channel : jstr) : Call (option (list jstr))
| UpsertPairingRequest (channel id name : jstr) : Call (jstr * bool)
| BuildPairingReply (channel idLine code : jstr) : Call jstr
| ResolveAgentRoute (channel accountId peerKind peerId : jstr) : Call AgentRoute
| ResolveStorePath (store : option jstr) (agentId : jstr) : Call jstr
| ResolveEnvelopeFormatOptions : Call jstr
| ReadSessionUpdatedAt (storePath sessionKey : jstr) : Call (option Z)
| FormatAgentEnvelope (channel from : jstr) (timestamp : Z)
    (previousTimestamp : option Z) (envelope body : jstr) : Call jstr
| FinalizeInboundContext (ctx : InboundContext) : Call InboundContext
| RecordSessionMetaFromInbound (storePath sessionKey : jstr) (ctx : InboundContext)
    : Call unit
| CreateReplyPrefixOptions (agentId channel accountId : jstr) : Call unit
| DispatchReplyWithBufferedBlockDispatcher (ctx : InboundContext)
    : Call (list ReplyPayload)
| ResolveChunkMode (channel accountId : jstr) : Call jstr
| ChunkMarkdownTextWithMode (text : jstr) (limit : Z) (mode : jstr)
    : Call (list jstr).

(** A call together with its answer. *)
Inductive Event :=
| Ev : forall R : Type, Call R -> R -> Event.

Arguments Ev {R} c r.

(** *** The effect monad: host state, sticker cache, emitted calls *)

Section Effects.

Context {World : Type}.

(** The collaborators: every call is answered from the current state of
    the world, which it may change. *)
Variable host : forall R, Call R -> World -> R * World.

Record State := mkState {
  world : World;
  stickers : Cache
}.

Definition M (A : Type) : Type := State -> A * State * list Event.

Definition ret {A} (a : A) : M A := fun s => (a, s, []).

Definition bind {A B} (m : M A) (f : A -> M B) : M B :=
  fun s =>
    let '(a, s1, e1) := m s in
    let '(b, s2, e2) := f a s1 in
    (b, s2, e1 ++ e2).

Definition call {R} (c : Call R) : M R :=
  fun s =>
    let '(r, w) := host R c (world s) in
    (r, {| world := w; stickers := stickers s |}, [Ev c r]).

(** The plugin's own module state. *)
Definition remember (chatId : ChatKey) (code : jstr) : M unit :=
  fun s =>
    (tt, {| world := world s;
            stickers := rememberStickerCode chatId code (stickers s) |}, []).

Notation "'let*' x := m 'in' k" := (bind m (fun x => k))
  (at level 10, x name, m at level 100, k at level 200).
Notation "'let*' ' p := m 'in' k" := (bind m (fun x => match x with p => k end))
  (at level 10, p pattern, m at level 100, k at level 200).
Notation "m ;;; k" := (bind m (fun _ => k))
  (at level 100, k at level 200, right associativity).

(** [for (const x of l) { ... }] with the loop's variables threaded. *)
Fixpoint foldM {A B} (f : A -> B -> M A) (l : list B) (a : A) : M A :=
  match l with
  | [] => ret a
  | x :: rest => let* a' := f a x in foldM f rest a'
  end.

Definition forEach {B} (f : B -> M unit) (l : list B) : M unit :=
  foldM (fun _ x => f x) l tt.

(** *** Helpers *)

Definition formatSenderName (user : option MaxUser) : jstr :=
  match user with
  | None => js "Unknown"
  | Some u =>
      let parts :=
        match last_name u with
        | Some l => if nonEmpty l then [first_name u; l] else [first_name u]
        | None => [first_name u]
        end in
      let joined := join (js " ") parts in
      if nonEmpty joined then joined
      else
        match username u with
        | Some n => if nonEmpty n then n else js "user_" ++ String_of_Z (user_id u)
        | None => js "user_" ++ String_of_Z (user_id u)
        end
  end.

(** A number used as a condition: set and not zero. *)
Definition truthyNum (n : option Z) : bool :=
  match n with
  | Some z => negb (z =? 0)
  | None => false
  end.

(** [opts.botUserId && message.sender?.user_id === opts.botUserId] *)
Definition fromBotItself (opts : MaxMonitorOptions) (message : MaxMessage) : bool :=
  truthyNum (botUserId opts)
  && bool_decide (user_id <$> sender message = botUserId opts).

(** *** processIncomingMessage: attachment reduction *)

(** The four arrays the attachment loop fills. *)
Record Reduced := mkReduced {
  attachmentDescriptions : list jstr;
  mediaPaths : list jstr;
  mediaUrls : list jstr;
  mediaTypes : list jstr
}.

Definition noAttachments : Reduced :=
  {| attachmentDescriptions := []; mediaPaths := []; mediaUrls := []; mediaTypes := [] |}.

Definition pushDescription (d : jstr) (r : Reduced) : Reduced :=
  {| attachmentDescriptions := attachmentDescriptions r ++ [d];
     mediaPaths := mediaPaths r; mediaUrls := mediaUrls r; mediaTypes := mediaTypes r |}.

Definition pushMedia (saved : SavedMedia) (r : Reduced) : Reduced :=
  {| attachmentDescriptions := attachmentDescriptions r;
     mediaPaths := mediaPaths r ++ [sm_path saved];
     mediaUrls := mediaUrls r ++ [sm_path saved];
     mediaTypes :=
       match sm_contentType saved with
       | Some t => if nonEmpty t then mediaTypes r ++ [t] else mediaTypes r
       | None => mediaTypes r
       end |}.

(** [`[Label${v ? `: ${v}` : ''}]`] *)
Definition labelled (label : string) (v : JsValue) : jstr :=
  js "[" ++ js label ++ (if truthy v then js ": " ++ template v else []) ++ js "]".

Definition downloadableTypes : list jstr :=
  [js "image"; js "sticker"; js "video"; js "audio"; js "file"].

(** One turn of the loop over [attachments]. *)
Definition reduceAttachment (account : ResolvedMaxAccount) (chatId : option Z)
    (r : Reduced) (att : MaxAttachment) : M Reduced :=
  let attType := default (js "unknown") (att_type att) in
  let payload := att_payload att in
  if includes downloadableTypes attType then
    let stickerCode :=
      if jstr_eqb attType (js "sticker")
      then orElse (optProp payload "code") (JsString [])
      else JsString [] in
    (* the cast [as string] of the code is read as its string form *)
    let* r :=
      (if truthy stickerCode then
         call (Log Debug (LogStickerReceived (template stickerCode))) ;;;
         match chatId with
         | Some c => remember (ChatNum c) (template stickerCode)
         | None => ret tt
         end ;;;
         ret (pushDescription
                (js "[Sticker: code=" ++ template stickerCode ++ js "]") r)
       else ret r) in
    let url := orElse (optProp payload "url")
                 (orElse (prop (att_props att) "url") (JsString [])) in
    (* the [else] branch: no URL, a text description *)
    let noUrl : M Reduced :=
      ret (if jstr_eqb attType (js "sticker")
           then pushDescription
                  (labelled "Sticker" (orElse (optProp payload "code") (JsString []))) r
           else if jstr_eqb attType (js "file")
           then pushDescription
                  (labelled "File"
                     (orElse (prop (att_props att) "filename")
                        (orElse (optProp payload "filename") (JsString [])))) r
           else pushDescription (js "[" ++ attType ++ js "]") r) in
    match url with
    | JsString ((_ :: _) as u) =>
        if startsWith u (js "http") then
          let maxBytes := default 20 (mediaMaxMb (config account)) * 1024 * 1024 in
          (* the [catch] branch *)
          let failed : M Reduced :=
            call (Log Error (LogDownloadFailed attType)) ;;;
            ret (if negb (jstr_eqb attType (js "sticker"))
                 then pushDescription (js "[" ++ attType ++ js ": " ++ u ++ js "]") r
                 else r) in
          let* fetched := call (FetchRemoteMedia u maxBytes) in
          match fetched with
          | Some f =>
              let* saved := call (SaveMediaBuffer f (js "inbound") maxBytes) in
              match saved with
              | Some sv => ret (pushMedia sv r)
              | None => failed
              end
          | None => failed
          end
        else noUrl
    | _ => noUrl
    end
  else if jstr_eqb attType (js "share") then
    ret (pushDescription
           (labelled "Share"
              (orElse (optProp payload "url")
                 (orElse (prop (att_props att) "url") (JsString [])))) r)
  else if jstr_eqb attType (js "location") then
    let lat := orElse (prop (att_props att) "latitude")
                 (orElse (optProp payload "latitude") (JsString [])) in
    let lon := orElse (prop (att_props att) "longitude")
                 (orElse (optProp payload "longitude") (JsString [])) in
    ret (pushDescription
           (js "[Location: " ++ template lat ++ js ", " ++ template lon ++ js "]") r)
  else if jstr_eqb attType (js "contact") then
    ret (pushDescription
           (labelled "Contact"
              (orElse (optProp payload "name")
                 (orElse (optProp payload "vcf_info") (JsString [])))) r)
  else if negb (jstr_eqb attType (js "inline_keyboard")) then
    ret (pushDescription (js "[" ++ attType ++ js "]") r)
  else ret r.

Definition reduceAttachments (account : ResolvedMaxAccount) (chatId : option Z)
    (atts : list MaxAttachment) : M Reduced :=
  foldM (reduceAttachment account chatId) atts noAttachments.

Definition attachmentText (r : Reduced) : jstr :=
  join (js " ") (attachmentDescriptions r).

Definition hasMedia (r : Reduced) : bool :=
  0 <? Z.of_nat (length (mediaPaths r)).

(** [rawText.trim() || attachmentText] *)
Definition effectiveText (rawText : jstr) (r : Reduced) : jstr :=
  if nonEmpty (trim rawText) then trim rawText else attachmentText r.

(** *** processIncomingMessage: mention detection *)

(** [new RegExp(source, flags).test(input)] of the JavaScript engine. *)
Variable RegExp_test : jstr -> jstr -> jstr -> bool.

(** ASCII upper case; the [i] flag compares an ASCII pattern character
    with a code unit [b] by their canonical forms, and no code unit above
    127 has an ASCII canonical form. *)
Definition asciiUpper (c : N) : N :=
  (if (97 <=? c) && (c <=? 122) then c - 32 else c)%N.

(** [\b] between the code unit [prev] and the rest of the input. *)
Definition wordBoundary (prev : N) (rest : jstr) : bool :=
  xorb (isWordChar prev)
       (match rest with c :: _ => isWordChar c | [] => false end).

(** [name] up to case, then a word boundary. *)
Fixpoint nameThenBoundary (name : jstr) (prev : N) (input : jstr) : bool :=
  match name with
  | [] => wordBoundary prev input
  | a :: name' =>
      match input with
      | b :: input' => (asciiUpper a =? asciiUpper b)%N && nameThenBoundary name' b input'
      | [] => false
      end
  end.

(** Is there a position where [@name\b] matches, case-insensitively. *)
Fixpoint searchMention (name input : jstr) : bool :=
  match input with
  | [] => false
  | c :: rest => (c =? 64)%N && nameThenBoundary name c rest || searchMention name rest
  end.

(** [new RegExp(`@${botUsername}\\b`, "i").test(rawText)].  For a user
    name of word characters the pattern has no metacharacter and the test
    is computed here; for any other name it is left to the engine. *)
Definition mentionPattern_test (botUsername rawText : jstr) : bool :=
  if forallb isWordChar botUsername
  then searchMention botUsername rawText
  else RegExp_test (js "@" ++ botUsername ++ [92%N] ++ js "b") (js "i") rawText.

Definition isGroupChat (message : MaxMessage) : bool :=
  match chat_type (recipient message) with
  | Some t => jstr_eqb t (js "chat") || jstr_eqb t (js "channel")
  | None => false
  end.

Definition isReply (message : MaxMessage) : bool :=
  match link message with
  | Some l => match link_type l with Reply => true | Forward => false end
  | None => false
  end.

(** [replySender?.is_bot && replySender?.user_id === opts.botUserId] *)
Definition replyToBot (opts : MaxMonitorOptions) (message : MaxMessage) : bool :=
  match link message with
  | Some l =>
      match link_type l, link_sender l with
      | Reply, Some u => is_bot u && bool_decide (Some (user_id u) = botUserId opts)
      | _, _ => false
      end
  | None => false
  end.

(** The [wasMentioned] variable after the mention block. *)
Definition detectMention (opts : MaxMonitorOptions) (message : MaxMessage)
    (rawText : jstr) : M (option bool) :=
  match botUsername opts with
  | Some ((_ :: _) as name) =>
      if isGroupChat message then
        if mentionPattern_test name rawText then ret (Some true)
        else if isReply message && replyToBot opts message then
          call (Log Debug LogReplyAsMention) ;;; ret (Some true)
        else ret (Some false)
      else ret None
  | _ => ret None
  end.

(** *** processIncomingMessage: DM policy *)

Definition senderIdOf (message : MaxMessage) : option Z :=
  user_id <$> sender message.

(** [String(chatId ?? senderId)] *)
Definition chatOrSender (message : MaxMessage) : jstr :=
  String_of_optZ
    (match chat_id (recipient message) with
     | Some c => Some c
     | None => senderIdOf message
     end).

(** The pairing branch: upsert, and reply on first creation. *)
Definition requestPairing (opts : MaxMonitorOptions) (message : MaxMessage) : M unit :=
  let account := opt_account opts in
  let senderStr := String_of_optZ (senderIdOf message) in
  let* ' (code, created) :=
    call (UpsertPairingRequest (js "max") senderStr (formatSenderName (sender message))) in
  if created : bool then
    call (Log Info (LogPairingRequest senderStr)) ;;;
    let* pairingReply :=
      call (BuildPairingReply (js "max") (js "Your MAX user id: " ++ senderStr) code) in
    let* sent :=
      call (SendMaxMessage (chatOrSender message) pairingReply
              {| so_token := token account; replyToMessageId := None;
                 format := None |}) in
    if sent : bool then call (StatusSink LastOutboundAt)
    else call (Log Error LogPairingReplyFailed)
  else ret tt.

Definition senderAllowed (effectiveAllowFrom : list jstr) (message : MaxMessage) : bool :=
  includes effectiveAllowFrom (String_of_optZ (senderIdOf message))
  || includes effectiveAllowFrom (js "*").

(** The DM block; [false] stands for its [return]s. *)
Definition dmGate (opts : MaxMonitorOptions) (message : MaxMessage) : M bool :=
  let account := opt_account opts in
  let dmPolicy := default (js "pairing") (dmPolicy (config account)) in
  if jstr_eqb dmPolicy (js "disabled") then
    call (Log Debug LogBlockedDm) ;;; ret false
  else if negb (jstr_eqb dmPolicy (js "open")) then
    let configAllowFrom :=
      map String_of_chat (default [] (allowFrom (config account))) in
    let* stored := call (ReadAllowFromStore (js "max")) in
    let storeAllowFrom := default [] stored in
    let effectiveAllowFrom := configAllowFrom ++ storeAllowFrom in
    if negb (senderAllowed effectiveAllowFrom message) then
      (if jstr_eqb dmPolicy (js "pairing") then requestPairing opts message else ret tt) ;;;
      ret false
    else ret true
  else ret true.

(** *** processIncomingMessage: group policy *)

Definition groupPolicyOf (opts : MaxMonitorOptions) : jstr :=
  match groupPolicy (config (opt_account opts)) with
  | Some p => p
  | None => default (js "allowlist") (defaults_groupPolicy (opt_config opts))
  end.

(** [key in groups] *)
Definition hasKey (groups : gmap jstr (option MaxGroupConfig)) (key : jstr) : bool :=
  bool_decide (is_Some (groups !! key)).

(** [chatIdStr in groups || "*" in groups], with [groups ?? {}]. *)
Definition chatAllowed (opts : MaxMonitorOptions) (chatId : option Z) : bool :=
  let groups := default ∅ (groups (config (opt_account opts))) in
  hasKey groups (String_of_optZ chatId) || hasKey groups (js "*").

(** [groups?.[String(chatId)] ?? groups?.["*"]] *)
Definition groupCfgOf (opts : MaxMonitorOptions) (chatId : option Z)
    : option MaxGroupConfig :=
  match groups (config (opt_account opts)) with
  | Some g =>
      match mjoin (g !! String_of_optZ chatId) with
      | Some c => Some c
      | None => mjoin (g !! js "*")
      end
  | None => None
  end.

(** [groupCfg?.requireMention ?? true] *)
Definition requireMentionOf (opts : MaxMonitorOptions) (chatId : option Z) : bool :=
  match groupCfgOf opts chatId with
  | Some c => default true (requireMention c)
  | None => true
  end.

(** The membership part of the group block: [disabled] and [allowlist];
    [false] stands for its [return]s. *)
Definition groupPolicyGate (opts : MaxMonitorOptions) (chatId : option Z) : M bool :=
  let groupPolicy := groupPolicyOf opts in
  if jstr_eqb groupPolicy (js "disabled") then
    call (Log Debug LogBlockedGroupDisabled) ;;; ret false
  else if jstr_eqb groupPolicy (js "allowlist") && negb (chatAllowed opts chatId) then
    call (Log Debug (LogBlockedGroupNotAllowed (String_of_optZ chatId))) ;;; ret false
  else ret true.

(** The mention requirement that closes the group block. *)
Definition mentionGate (opts : MaxMonitorOptions) (chatId : option Z)
    (wasMentioned : option bool) : M bool :=
  if requireMentionOf opts chatId && negb (default false wasMentioned) then
    call (Log Debug LogSkipNotMentioned) ;;; ret false
  else ret true.

Definition groupGate (opts : MaxMonitorOptions) (chatId : option Z)
    (wasMentioned : option bool) : M bool :=
  let* member := groupPolicyGate opts chatId in
  if member : bool then mentionGate opts chatId wasMentioned else ret false.

(** *** Reply delivery *)

Fixpoint dropPrefix (p s : jstr) {struct p} : option jstr :=
  match p, s with
  | [], _ => Some s
  | a :: p', b :: s' => if (a =? b)%N then dropPrefix p' s' else None
  | _ :: _, [] => None
  end.

(** Does the whole of [s] read [_edited_] and then one or more digits:
    a match of [/_edited_\d+$/] that starts at the head of [s]. *)
Definition editedSuffixHere (s : jstr) : bool :=
  match dropPrefix (js "_edited_") s with
  | Some ds => nonEmpty ds && forallb isDigit ds
  | None => false
  end.

(** [messageId.replace(/_edited_\d+$/, '')]: the leftmost match is cut. *)
Fixpoint stripEditedSuffix (s : jstr) : jstr :=
  match s with
  | [] => []
  | c :: r => if editedSuffixHere s then [] else c :: stripEditedSuffix r
  end.

Record DeliverParams := mkDeliverParams {
  dp_payload : ReplyPayload;
  dp_account : ResolvedMaxAccount;
  dp_chatId : jstr;
  dp_replyToId : option jstr
}.

Definition isRemoteUrl (u : jstr) : bool :=
  startsWith u (js "http://") || startsWith u (js "https://").

Definition deliverMedia (params : DeliverParams) (mediaUrl : jstr) : M unit :=
  let account := dp_account params in
  let sendOpts :=
    {| so_token := token account; replyToMessageId := dp_replyToId params;
       format := None |} in
  if isRemoteUrl mediaUrl then
    let maxBytes := default 20 (mediaMaxMb (config account)) * 1024 * 1024 in
    let* loaded := call (FetchRemoteMedia mediaUrl maxBytes) in
    match loaded with
    | Some l =>
        let* now := call DateNow in
        let tmpPath :=
          js "/tmp/max-media-" ++ String_of_Z now ++ js "-"
          ++ default (js "file") (fm_fileName l) in
        let* written := call (WriteFile tmpPath (fm_buffer l)) in
        if written : bool then
          let* sent := call (SendMaxMediaMessage (dp_chatId params) [] tmpPath sendOpts) in
          (if sent : bool then call (StatusSink LastOutboundAt) else ret tt) ;;;
          call (Unlink tmpPath) ;;;
          (if sent then ret tt else call (Log Error LogMediaSendFailed))
        else call (Log Error LogMediaSendFailed)
    | None => call (Log Error LogMediaSendFailed)
    end
  else
    let* sent := call (SendMaxMediaMessage (dp_chatId params) [] mediaUrl sendOpts) in
    if sent : bool then call (StatusSink LastOutboundAt)
    else call (Log Error LogMediaSendFailed).

Definition deliverMaxReply (params : DeliverParams) : M unit :=
  let payload := dp_payload params in
  let account := dp_account params in
  (match p_text payload with
   | Some ((_ :: _) as text) =>
       let chunkLimit := 4000 in
       let* chunkMode := call (ResolveChunkMode (js "max") (accountId account)) in
       let* chunks := call (ChunkMarkdownTextWithMode text chunkLimit chunkMode) in
       forEach
         (fun chunk =>
            let* sent :=
              call (SendMaxMessage (dp_chatId params) chunk
                      {| so_token := token account;
                         replyToMessageId := dp_replyToId params;
                         format := Some (js "markdown") |}) in
            if sent : bool then call (StatusSink LastOutboundAt)
            else call (Log Error LogSendFailed))
         chunks
   | _ => ret tt
   end) ;;;
  let mediaList :=
    match p_mediaUrls payload with
    | Some ((_ :: _) as l) => l
    | _ =>
        match p_mediaUrl payload with
        | Some ((_ :: _) as u) => [u]
        | _ => []
        end
    end in
  forEach (deliverMedia params) mediaList.

(** *** processIncomingMessage: envelope and hand-off *)

Definition someIfNonEmpty {A} (l : list A) : option (list A) :=
  match l with [] => None | _ => Some l end.

(** Everything after the policy gates. *)
Definition forwardToHost (opts : MaxMonitorOptions) (message : MaxMessage)
    (r : Reduced) (wasMentioned : option bool) : M unit :=
  let account := opt_account opts in
  let config := opt_config opts in
  let senderId := senderIdOf message in
  let senderName := formatSenderName (sender message) in
  let chatId := chat_id (recipient message) in
  let isGroup := isGroupChat message in
  let rawText := default [] (text (body message)) in
  let messageId := mid (body message) in
  let attachmentText := attachmentText r in
  let replyToId :=
    match link message with
    | Some l =>
        match link_type l with
        | Reply => (fun m => mid (body m)) <$> link_message l
        | Forward => None
        end
    | None => None
    end in
  let chatIdStr := chatOrSender message in
  let* route :=
    call (ResolveAgentRoute (js "max") (accountId account)
            (if isGroup then js "group" else js "direct") chatIdStr) in
  let fromLabel :=
    if isGroup then js "chat:" ++ chatIdStr
    else if nonEmpty senderName then senderName
    else js "user:" ++ String_of_optZ senderId in
  let* storePath := call (ResolveStorePath (session_store config) (agentId route)) in
  let* envelopeOptions := call ResolveEnvelopeFormatOptions in
  let* previousTimestamp := call (ReadSessionUpdatedAt storePath (sessionKey route)) in
  let bodyForAgent :=
    if nonEmpty attachmentText then
      if nonEmpty (trim rawText) then trim rawText ++ [10%N] ++ attachmentText
      else attachmentText
    else rawText in
  let* body :=
    call (FormatAgentEnvelope (js "MAX") fromLabel (timestamp message)
            previousTimestamp envelopeOptions bodyForAgent) in
  let* ctxPayload :=
    call (FinalizeInboundContext
            {| Body := body;
               BodyForAgent := bodyForAgent;
               RawBody := rawText;
               CommandBody := if nonEmpty rawText then rawText else attachmentText;
               From := js "max:" ++ String_of_optZ senderId;
               To := js "max:" ++ chatIdStr;
               SessionKey := Some (sessionKey route);
               AccountId := route_accountId route;
               ChatType := if isGroup then js "group" else js "direct";
               ConversationLabel := fromLabel;
               SenderName := if nonEmpty senderName then Some senderName else None;
               SenderId := String_of_Z <$> senderId;
               SenderUsername := sender message ≫= username;
               WasMentioned := if isGroup then wasMentioned else None;
               Provider := js "max";
               Surface := js "max";
               MessageSid := messageId;
               MessageSidFull := messageId;
               ReplyToId := replyToId;
               ReplyToIdFull := replyToId;
               OriginatingChannel := js "max";
               OriginatingTo := js "max:" ++ chatIdStr;
               MediaPath := head (mediaPaths r);
               MediaPaths := someIfNonEmpty (mediaPaths r);
               MediaUrl := head (mediaUrls r);
               MediaUrls := someIfNonEmpty (mediaUrls r);
               MediaType := head (mediaTypes r);
               MediaTypes := someIfNonEmpty (mediaTypes r) |}) in
  call (RecordSessionMetaFromInbound storePath
          (default (sessionKey route) (SessionKey ctxPayload)) ctxPayload) ;;;
  call (CreateReplyPrefixOptions (agentId route) (js "max") (route_accountId route)) ;;;
  (match chatId with
   | Some c => call (SendAction c (js "typing_on"))
   | None => ret tt
   end) ;;;
  let* payloads := call (DispatchReplyWithBufferedBlockDispatcher ctxPayload) in
  (* the [deliver] callback, once per payload the dispatcher hands over;
     [onError] only logs and is not called here, [deliver] catching its
     own failures *)
  forEach
    (fun payload =>
       let replyMid := stripEditedSuffix messageId in
       deliverMaxReply
         {| dp_payload := payload; dp_account := account;
            dp_chatId := chatIdStr; dp_replyToId := Some replyMid |})
    payloads.

(** The policy gates, in the order of the source; [false] stands for
    their [return]s. *)
Definition policyGates (opts : MaxMonitorOptions) (message : MaxMessage)
    (wasMentioned : option bool) : M bool :=
  let isGroup := isGroupChat message in
  let* dmOk := (if negb isGroup then dmGate opts message else ret true) in
  if dmOk : bool then
    if isGroup then groupGate opts (chat_id (recipient message)) wasMentioned
    else ret true
  else ret false.

(** Everything after the attachment loop. *)
Definition afterAttachments (opts : MaxMonitorOptions) (message : MaxMessage)
    (r : Reduced) : M unit :=
  let rawText := default [] (text (body message)) in
  (* skip truly empty messages *)
  if negb (nonEmpty (effectiveText rawText r)) && negb (hasMedia r) then ret tt
  else
    let* wasMentioned := detectMention opts message rawText in
    let* pass := policyGates opts message wasMentioned in
    if pass : bool then forwardToHost opts message r wasMentioned else ret tt.

(** The function up to the end of the attachment loop. *)
Definition attachmentPhase (opts : MaxMonitorOptions) (message : MaxMessage) : M Reduced :=
  call (Log Debug (LogProcessing (mid (body message)))) ;;;
  reduceAttachments (opt_account opts) (chat_id (recipient message))
    (default [] (attachments (body message))).

Definition processIncomingMessage (message : MaxMessage) (userLocale : option jstr)
    (opts : MaxMonitorOptions) : M unit :=
  let* r := attachmentPhase opts message in
  afterAttachments opts message r.

(** *** dispatchUpdate *)

Definition withMid (b : MaxMessageBody) (m : jstr) : MaxMessageBody :=
  {| mid := m; text := text b; attachments := attachments b |}.

Definition withText (b : MaxMessageBody) (t : jstr) : MaxMessageBody :=
  {| mid := mid b; text := Some t; attachments := attachments b |}.

Definition withAttachments (b : MaxMessageBody) (a : list MaxAttachment) : MaxMessageBody :=
  {| mid := mid b; text := text b; attachments := Some a |}.

Definition withBody (m : MaxMessage) (b : MaxMessageBody) : MaxMessage :=
  {| sender := sender m; recipient := recipient m; timestamp := timestamp m;
     link := link m; body := b |}.

(** [`${originalMid}_edited_${update.timestamp}`] *)
Definition editedMid (originalMid : jstr) (timestamp : Z) : jstr :=
  originalMid ++ js "_edited_" ++ String_of_Z timestamp.

(** [mark_seen] and [typing_on], not awaited, failures logged by their
    own [.catch]. *)
Definition markSeenAndTyping (message : MaxMessage) : M unit :=
  match chat_id (recipient message) with
  | Some c =>
      if negb (c =? 0) then
        call (SendAction c (js "mark_seen")) ;;;
        call (SendAction c (js "typing_on"))
      else ret tt
  | None => ret tt
  end.

(** The body of an edited message, completed from the platform when the
    update carries no text. *)
Definition refetchEdited (edited : MaxMessage) (originalMid : jstr) : M MaxMessage :=
  let noText :=
    match text (body edited) with
    | Some t => negb (nonEmpty (trim t))
    | None => true
    end in
  if noText && nonEmpty originalMid then
    match chat_id (recipient edited) with
    | Some c =>
        if negb (c =? 0) then
          let* fetched := call (GetMessages c [originalMid] 1) in
          match fetched with
          | Some messages =>
              match head messages ≫= (fun m => text (body m)) with
              | Some ((_ :: _) as t) =>
                  let fetchedBody := default (body edited) (body <$> head messages) in
                  let b := withText (body edited) t in
                  let b :=
                    match attachments fetchedBody with
                    | Some ((_ :: _) as a) => withAttachments b a
                    | _ => b
                    end in
                  call (Log Debug LogFetchedEditedText) ;;;
                  ret (withBody edited b)
              | _ => ret edited
              end
          | None => call (Log Debug LogFetchEditedFailed) ;;; ret edited
          end
        else ret edited
    | None => ret edited
    end
  else ret edited.

Definition processCallback (callback : MaxCallback) (opts : MaxMonitorOptions) : M unit :=
  let payload := default [] (cb_payload callback) in
  if negb (nonEmpty (trim payload)) then ret tt
  else
    let syntheticMessage :=
      {| sender := Some (cb_user callback);
         recipient :=
           match cb_message callback with
           | Some m => recipient m
           | None =>
               {| chat_id := Some (user_id (cb_user callback)); chat_type := None;
                  recipient_user_id := None |}
           end;
         timestamp := cb_timestamp callback;
         link := None;
         body := {| mid := callback_id callback; text := Some payload;
                    attachments := None |} |} in
    processIncomingMessage syntheticMessage None opts.

Definition processBotStarted (user : MaxUser) (chatId : option Z)
    (opts : MaxMonitorOptions) : M unit :=
  let* now := call DateNow in
  let* now' := call DateNow in
  let syntheticMessage :=
    {| sender := Some user;
       recipient :=
         {| chat_id := Some (default (user_id user) chatId);
            chat_type := Some (js "dialog"); recipient_user_id := None |};
       timestamp := now;
       link := None;
       body := {| mid := js "bot_started_" ++ String_of_Z (user_id user) ++ js "_"
                         ++ String_of_Z now';
                  text := Some (js "/start"); attachments := None |} |} in
  processIncomingMessage syntheticMessage None opts.

Definition dispatchUpdate (update : MaxUpdate) (opts : MaxMonitorOptions) : M unit :=
  let kind := update_type update in
  if jstr_eqb kind (js "message_created") then
    match upd_message update with
    | None => ret tt
    | Some message =>
        if fromBotItself opts message then ret tt
        else
          call (StatusSink LastInboundAt) ;;;
          markSeenAndTyping message ;;;
          processIncomingMessage message (user_locale update) opts
    end
  else if jstr_eqb kind (js "message_callback") then
    match upd_callback update with
    | None => ret tt
    | Some callback =>
        call (StatusSink LastInboundAt) ;;;
        processCallback callback opts
    end
  else if jstr_eqb kind (js "message_edited") then
    match upd_message update with
    | None => ret tt
    | Some message =>
        if fromBotItself opts message then ret tt
        else
          call (Log Debug (LogMessageEdited (mid (body message)))) ;;;
          call (StatusSink LastInboundAt) ;;;
          markSeenAndTyping message ;;;
          let originalMid := mid (body message) in
          let editedMessage :=
            withBody message
              (withMid (body message) (editedMid originalMid (upd_timestamp update))) in
          let* editedMessage := refetchEdited editedMessage originalMid in
          processIncomingMessage editedMessage (user_locale update) opts
    end
  else if jstr_eqb kind (js "bot_started") then
    match upd_user update with
    | None => ret tt
    | Some user =>
        call (Log Info (LogBotStarted (user_id user))) ;;;
        call (StatusSink LastInboundAt) ;;;
        processBotStarted user (upd_chat_id update) opts
    end
  else if jstr_eqb kind (js "bot_added") then
    call (Log Info (LogBotAdded (upd_chat_id update)))
  else if jstr_eqb kind (js "bot_removed") then
    call (Log Info (LogBotRemoved (upd_chat_id update)))
  else call (Log Debug (LogUnhandledUpdate kind)).

(** *** The polling loop *)

Definition pollTypes : list jstr :=
  [js "message_created"; js "message_callback"; js "message_edited";
   js "message_removed"; js "message_reaction_created";
   js "message_reaction_updated"; js "bot_started"; js "bot_added";
   js "bot_removed"].

(** [if (resp.marker != null) marker = resp.marker] *)
Definition adoptMarker (current : option Z) (resp : MaxUpdatesResponse) : option Z :=
  match marker resp with
  | Some m => Some m
  | None => current
  end.

(** The inner [for] over [resp.updates]; the source's [catch] around
    [dispatchUpdate] has nothing to catch here, since the calls it does
    not guard are taken to return. *)
Fixpoint dispatchAll (us : list MaxUpdate) (opts : MaxMonitorOptions) : M unit :=
  match us with
  | [] => ret tt
  | update :: rest =>
      let* aborted := call AbortSignalAborted in
      if aborted : bool then ret tt
      else dispatchUpdate update opts ;;; dispatchAll rest opts
  end.

(** At most [fuel] turns of the [while] loop from the given marker; the
    result is the marker when the turns end and whether the loop was left
    (the abort signal was seen). *)
Fixpoint pollingLoop (fuel : nat) (opts : MaxMonitorOptions) (marker : option Z)
    : M (option Z * bool) :=
  match fuel with
  | O => ret (marker, false)
  | S fuel' =>
      let* aborted := call AbortSignalAborted in
      if aborted : bool then ret (marker, true)
      else
        let* resp := call (GetUpdates 30 marker pollTypes) in
        match resp with
        | Some resp =>
            let marker := adoptMarker marker resp in
            dispatchAll (updates resp) opts ;;;
            pollingLoop fuel' opts marker
        | None =>
            let* aborted := call AbortSignalAborted in
            if aborted : bool then ret (marker, true)
            else
              call (Log Error LogPollingError) ;;;
              call (Sleep 3000) ;;;
              pollingLoop fuel' opts marker
        end
  end.

Definition startMaxPollingLoop (fuel : nat) (opts : MaxMonitorOptions)
    : M (option Z * bool) :=
  call (Log Info LogPollingStarted) ;;;
  let* out := pollingLoop fuel opts None in
  (if snd out then call (Log Info LogPollingStopped) else ret tt) ;;;
  ret out.

End Effects.

Arguments M World A : clear implicits.
Arguments State World : clear implicits.

(** *** Reading a run *)

Definition isDispatch (e : Event) : bool :=
  match e with
  | Ev (DispatchReplyWithBufferedBlockDispatcher _) _ => true
  | _ => false
  end.

Definition isResolveAgentRoute (e : Event) : bool :=
  match e with
  | Ev (ResolveAgentRoute _ _ _ _) _ => true
  | _ => false
  end.

Definition isUpsert (e : Event) : bool :=
  match e with
  | Ev (UpsertPairingRequest _ _ _) _ => true
  | _ => false
  end.

Definition isSend (e : Event) : bool :=
  match e with
  | Ev (SendMaxMessage _ _ _) _ | Ev (SendMaxMediaMessage _ _ _ _) _ => true
  | _ => false
  end.




(** A poll: the marker sent with a [getUpdates] request and the answer. *)
Definition pollOf (e : Event) : option (option Z * option MaxUpdatesResponse) :=
  match e with
  | Ev c r =>
      match c in Call R return R -> option (option Z * option MaxUpdatesResponse) with
      | GetUpdates _ marker _ => fun r => Some (marker, r)
      | _ => fun _ => None
      end r
  end.

(** The polls of a run, in order. *)
Definition polls (es : list Event) : list (option Z * option MaxUpdatesResponse) :=
  omap pollOf es.

(** [None] (unset) is below every marker. *)
Definition marker_le (a b : option Z) : Prop :=
  match a, b with
  | None, _ => True
  | Some _, None => False
  | Some x, Some y => x <= y
  end.

(** The marker the loop holds after a poll. *)
Definition markerAfter (current : option Z) (answer : option MaxUpdatesResponse)
    : option Z :=
  match answer with
  | Some resp => adoptMarker current resp
  | None => current
  end.

(** The polls are chained: each request carries the marker held after the
    poll before it, the first one the marker [current], and [final] is
    the marker held after the last. *)
Fixpoint markerChain (current : option Z)
    (ps : list (option Z * option MaxUpdatesResponse)) (final : option Z) : Prop :=
  match ps with
  | [] => final = current
  | (requested, answer) :: rest =>
      requested = current /\ markerChain (markerAfter current answer) rest final
  end.

(** A well-behaved platform: the marker it returns is not below the one
    it was asked from. *)
Definition vendorMonotone {World} (host : forall R, Call R -> World -> R * World)
    : Prop :=
  forall timeout requested types w resp w' m,
    host _ (GetUpdates timeout requested types) w = (Some resp, w') ->
    marker resp = Some m ->
    marker_le requested (Some m).

(** The message was handed to the host pipeline. *)
Definition forwarded (es : list Event) : bool := existsb isDispatch es.

(** The parts of a run. *)
Definition resultOf {World A} (m : M World A) (s : State World) : A := fst (fst (m s)).
Definition stateAfter {World A} (m : M World A) (s : State World) : State World :=
  snd (fst (m s)).
Definition eventsOf {World A} (m : M World A) (s : State World) : list Event := snd (m s).

(** Every call the action makes, from any state, satisfies [P]. *)
Definition emitsOnly {World A} (P : Event -> Prop) (m : M World A) : Prop :=
  forall s, Forall P (eventsOf m s).

(** Every result of the action, from any state, satisfies [Q]. *)
Definition returnsOnly {World A} (Q : A -> Prop) (m : M World A) : Prop :=
  forall s, Q (resultOf m s).

(** The message is not dropped as empty: it has text, a description of an
    attachment, or a downloaded medium. *)
Definition notEmpty (message : MaxMessage) (r : Reduced) : Prop :=
  nonEmpty (effectiveText (default [] (text (body message))) r) = true
  \/ hasMedia r = true.

End Monitor.

(** ** A reference collaborator

    A small host and platform to run the monitor on concrete inputs: the
    world is the list of pending pairing requests; downloads fail, sends
    succeed, the dispatcher answers every message with one text reply and
    the updates endpoint moves its marker forward by one. *)

Module Reference.

Import StickerCache Api Accounts Monitor.

Definition pairingCode : jstr := js "PAIR1234".

Definition referenceHost (R : Type) (c : Call R) (pending : list jstr)
    : R * list jstr :=
  match c in Call R return R * list jstr with
  | Log _ _ => (tt, pending)
  | StatusSink _ => (tt, pending)
  | DateNow => (1700000000000, pending)
  | Sleep _ => (tt, pending)
  | AbortSignalAborted => (false, pending)
  | WriteFile _ _ => (true, pending)
  | Unlink _ => (tt, pending)
  | GetUpdates _ marker _ =>
      (Some {| updates := []; marker := Some (default 0 marker + 1) |}, pending)
  | SendAction _ _ => (tt, pending)
  | GetMessages _ _ _ => (Some [], pending)
  | SendMaxMessage _ _ _ => (true, pending)
  | SendMaxMediaMessage _ _ _ _ => (true, pending)
  | FetchRemoteMedia _ _ => (None, pending)
  | SaveMediaBuffer _ _ _ => (None, pending)
  | ReadAllowFromStore _ => (Some [], pending)
  | UpsertPairingRequest _ id _ =>
      if includes pending id then ((pairingCode, false), pending)
      else ((pairingCode, true), id :: pending)
  | BuildPairingReply _ idLine code => (idLine ++ js " " ++ code, pending)
  | ResolveAgentRoute _ accountId _ peerId =>
      ({| agentId := js "main"; sessionKey := js "max:" ++ peerId;
          route_accountId := accountId |}, pending)
  | ResolveStorePath _ _ => (js "sessions.json", pending)
  | ResolveEnvelopeFormatOptions => ([], pending)
  | ReadSessionUpdatedAt _ _ => (None, pending)
  | FormatAgentEnvelope _ _ _ _ _ body => (body, pending)
  | FinalizeInboundContext ctx => (ctx, pending)
  | RecordSessionMetaFromInbound _ _ _ => (tt, pending)
  | CreateReplyPrefixOptions _ _ _ => (tt, pending)
  | DispatchReplyWithBufferedBlockDispatcher _ =>
      ([{| p_text := Some (js "ok"); p_mediaUrls := None; p_mediaUrl := None |}],
       pending)
  | ResolveChunkMode _ _ => (js "length", pending)
  | ChunkMarkdownTextWithMode text _ _ => ([text], pending)
  end.

(** No regular expression engine: every name the examples use is made of
    word characters. *)
Definition referenceRegExp (source flags input : jstr) : bool := false.

Definition emptyAccountConfig : MaxAccountConfig :=
  {| dmPolicy := None; allowFrom := None; groupPolicy := None; groups := None;
     mediaMaxMb := None; webhookUrl := None; webhookSecret := None;
     webhookPath := None |}.

Definition accountWith (c : MaxAccountConfig) : ResolvedMaxAccount :=
  {| accountId := js "default"; enabled := true; token := js "token"; config := c |}.

Definition hostConfig : OpenClawConfig :=
  {| defaults_groupPolicy := None; session_store := None |}.

Definition alice : MaxUser :=
  {| user_id := 1; first_name := js "Alice"; last_name := None; username := None;
     is_bot := false |}.

Definition theBot : MaxUser :=
  {| user_id := 7; first_name := js "Bot"; last_name := None;
     username := Some (js "mybot"); is_bot := true |}.

Definition textMessage (chatType : string) (chat : Z) (m : string) (t : option jstr)
    (l : option MaxLinkedMessage) : MaxMessage :=
  {| sender := Some alice;
     recipient := {| chat_id := Some chat; chat_type := Some (js chatType);
                     recipient_user_id := None |};
     timestamp := 1700000000000;
     link := l;
     body := {| mid := js m; text := t; attachments := None |} |}.

(** A message that carries one sticker, without a URL, and no text. *)
Definition stickerAttachment : MaxAttachment :=
  {| att_type := Some (js "sticker");
     att_payload := Some {[ js "code" := JsString (js "abc123") ]};
     att_props := ∅ |}.

Definition stickerMessage (chat : Z) : MaxMessage :=
  {| sender := Some alice;
     recipient := {| chat_id := Some chat; chat_type := Some (js "dialog");
                     recipient_user_id := None |};
     timestamp := 1700000000000;
     link := None;
     body := {| mid := js "mid.1"; text := None;
                attachments := Some [stickerAttachment] |} |}.

Definition optionsWith (c : MaxAccountConfig) (name : option jstr) : MaxMonitorOptions :=
  {| opt_account := accountWith c; opt_config := hostConfig;
     botUserId := Some 7; botUsername := name |}.

Definition openGroups : MaxAccountConfig :=
  {| dmPolicy := None; allowFrom := None; groupPolicy := Some (js "open");
     groups := None; mediaMaxMb := None; webhookUrl := None;
     webhookSecret := None; webhookPath := None |}.

Definition openDirect : MaxAccountConfig :=
  {| dmPolicy := Some (js "open"); allowFrom := Some [ChatStr (js "*")];
     groupPolicy := None; groups := None; mediaMaxMb := None; webhookUrl := None;
     webhookSecret := None; webhookPath := None |}.

Definition replyToTheBot : MaxLinkedMessage :=
  {| link_type := Reply; link_sender := Some theBot; link_chat_id := None;
     link_message := None |}.


Definition start : State (list jstr) :=
  {| world := []; stickers := StickerCache.initial |}.

(** A webhook sink whose callbacks append the update to a list. *)
Definition receive (u : Webhook.Json) (s : list Webhook.Json)
    : option jstr * list Webhook.Json := (None, s ++ [u]).

Definition targetWith (secret : option jstr)
    : Webhook.MaxWebhookTarget (list Webhook.Json) unit unit :=
  {| Webhook.account := tt; Webhook.config := tt; Webhook.path := js "/max";
     Webhook.secret := secret; Webhook.onUpdate := receive;
     Webhook.log := None; Webhook.error := None |}.

Definition guardedTargets : list (Webhook.MaxWebhookTarget (list Webhook.Json) unit unit) :=
  [targetWith (Some (js "s3cret"))].


Definition registryOf (ts : list (Webhook.MaxWebhookTarget (list Webhook.Json) unit unit))
    : Webhook.Registry (list Webhook.Json) unit unit :=
  {[ js "/max" := ts ]}.

(** Request URLs that are plain paths: the path name is the input. *)
Definition pathOnly (input : jstr) (base : option jstr) : option jstr := Some input.

Definition bodyErrorText (code : jstr) : jstr := js "request body timeout".

Definition postWith (secret : option jstr) : Webhook.Request :=
  {| Webhook.req_url := Some (js "/max"); Webhook.req_method := js "POST";
     Webhook.req_secretHeader := secret;
     Webhook.req_body := Webhook.BodyOk (Webhook.JObject []) |}.

(** The calls an action makes against the reference collaborator. *)
Definition trace {A} (m : M (list jstr) A) : list Event := eventsOf m start.

End Reference.

(** ** More ways to read the sticker cache and the webhook sink *)

Module CacheReading.

Import StickerCache.

(** The calls of a history that wrote the entry of the key [k]. *)
Definition writesOf (k : jstr) (h : list (ChatKey * jstr)) : list (ChatKey * jstr) :=
  List.filter (fun kc => jstr_eqb (String_of_chat (fst kc)) k) h.

End CacheReading.

(** ** webhook.ts: the registry with the identity of its entries

    [registerMaxWebhookTarget] stores a fresh object and returns a closure
    that removes that very object ([entry !== normalizedTarget]).  Here a
    stored target carries a reference, its identity, taken from a counter
    that every registration advances; the closure is the pair of the key
    and the reference it captured. *)

Module WebhookRegistry.

Import Webhook.

Section Store.

Context {S Account Config : Type}.

Record Entry := mkEntry {
  ref : nat;
  target : MaxWebhookTarget S Account Config
}.

Record Store := mkStore {
  nextRef : nat;
  webhookTargets : gmap jstr (list Entry)
}.

Definition empty : Store := {| nextRef := 0; webhookTargets := ∅ |}.

(** The variables the returned closure captures. *)
Record Unregister := mkUnregister {
  un_key : jstr;
  un_ref : nat
}.

Definition register (t : MaxWebhookTarget S Account Config) (st : Store)
    : Unregister * Store :=
  let key := normalizeWebhookPath (path t) in
  let normalizedTarget :=
    {| ref := nextRef st;
       target := {| account := account t; config := config t; path := key;
                    secret := secret t; onUpdate := onUpdate t;
                    log := log t; error := error t |} |} in
  let existing := default [] (webhookTargets st !! key) in
  let next := existing ++ [normalizedTarget] in
  ({| un_key := key; un_ref := nextRef st |},
   {| nextRef := Datatypes.S (nextRef st);
      webhookTargets := <[key := next]> (webhookTargets st) |}).

(** A call of the closure. *)
Definition unregister (u : Unregister) (st : Store) : Store :=
  let updated :=
    List.filter (fun entry => negb (ref entry =? un_ref u)%nat)
      (default [] (webhookTargets st !! un_key u)) in
  if (0 <? length updated)%nat
  then {| nextRef := nextRef st;
          webhookTargets := <[un_key u := updated]> (webhookTargets st) |}
  else {| nextRef := nextRef st;
          webhookTargets := delete (un_key u) (webhookTargets st) |}.

(** The map as [handleMaxWebhookRequest] reads it. *)
Definition registryOf (st : Store) : Registry S Account Config :=
  map target <$> webhookTargets st.

(** The targets on a path, none when the path has no entry. *)
Definition targetsAt (st : Store) (key : jstr) : list Entry :=
  default [] (webhookTargets st !! key).

(** No stored object has a reference the counter has yet to hand out. *)
Definition fresh (st : Store) : Prop :=
  forall key entry, In entry (targetsAt st key) -> (ref entry < nextRef st)%nat.

End Store.

Arguments Entry : clear implicits.
Arguments Store : clear implicits.

End WebhookRegistry.

(** ** accounts.ts: listing and resolving accounts

    The [channels.max] section as the functions read it: the fields of
    the section itself, which are the default account, and the entries of
    [accounts], in the order of [Object.keys].  The keys of an object are
    distinct; a read [accounts[id]] is the first entry under the key. *)

Module AccountResolution.

Import StickerCache Accounts.

(** The account fields, of the section or of an entry of [accounts]. *)
Record RawAccount := mkRawAccount {
  raw_enabled : option bool;
  raw_botToken : option jstr;
  raw_tokenFile : option jstr;
  raw_name : option jstr;
  (** [dmPolicy], [allowFrom], [groups], [groupPolicy], [webhook*],
      [mediaMaxMb] *)
  raw_settings : MaxAccountConfig
}.

Record MaxSection := mkMaxSection {
  section_top : RawAccount;
  section_accounts : option (list (jstr * RawAccount))
}.

(** An object without fields: [{}]. *)
Definition emptySettings : MaxAccountConfig :=
  {| dmPolicy := None; allowFrom := None; groupPolicy := None; groups := None;
     mediaMaxMb := None; webhookUrl := None; webhookSecret := None;
     webhookPath := None |}.

Definition emptyRaw : RawAccount :=
  {| raw_enabled := None; raw_botToken := None; raw_tokenFile := None;
     raw_name := None; raw_settings := emptySettings |}.

Inductive TokenSource := FromConfig | FromEnv | FromFile | NoToken.

(** [ResolvedMaxAccount], with the fields of its [config] that the
    monitor does not read next to those it reads. *)
Record Resolved := mkResolved {
  resolved : ResolvedMaxAccount;
  name : option jstr;
  tokenSource : TokenSource;
  config_botToken : option jstr;
  config_tokenFile : option jstr
}.

(** A string used as a condition: set and not empty. *)
Definition truthyStr (o : option jstr) : bool :=
  match o with
  | Some s => nonEmpty s
  | None => false
  end.

(** [x !== false] *)
Definition notFalse (o : option bool) : bool :=
  match o with
  | Some false => false
  | _ => true
  end.

(** [accounts?.[id]] *)
Definition accountEntry (accounts : option (list (jstr * RawAccount))) (id : jstr)
    : option RawAccount :=
  match accounts with
  | Some entries => snd <$> List.find (fun e => jstr_eqb (fst e) id) entries
  | None => None
  end.

Section Resolution.

(** [DEFAULT_ACCOUNT_ID] and [normalizeAccountId] of the plugin SDK. *)
Variable DEFAULT_ACCOUNT_ID : jstr.
Variable normalizeAccountId : jstr -> jstr.

(** [process.env.MAX_BOT_TOKEN] *)
Variable MAX_BOT_TOKEN : option jstr.

(** One turn of the loop over [Object.keys(accounts)]. *)
Definition pushAccountId (ids : list jstr) (key : jstr) : list jstr :=
  let normalized := normalizeAccountId key in
  if negb (jstr_eqb normalized DEFAULT_ACCOUNT_ID) && negb (includes ids normalized)
  then ids ++ [normalized]
  else ids.

Definition listMaxAccountIds (section : option MaxSection) : list jstr :=
  match section with
  | None => []
  | Some section =>
      let hasDefault :=
        truthyStr (raw_botToken (section_top section))
        || truthyStr (raw_tokenFile (section_top section))
        || truthyStr MAX_BOT_TOKEN in
      let ids := if hasDefault then [DEFAULT_ACCOUNT_ID] else [] in
      let ids :=
        match section_accounts section with
        | Some entries => fold_left pushAccountId (map fst entries) ids
        | None => ids
        end in
      if (length ids =? 0)%nat && notFalse (raw_enabled (section_top section))
      then ids ++ [DEFAULT_ACCOUNT_ID]
      else ids
  end.

Definition resolveDefaultMaxAccountId (section : option MaxSection) : jstr :=
  DEFAULT_ACCOUNT_ID.

Definition resolveMaxAccount (section : option MaxSection) (rawId : option jstr)
    : Resolved :=
  let accountId :=
    match rawId with
    | Some ((_ :: _) as id) => normalizeAccountId id
    | _ => DEFAULT_ACCOUNT_ID
    end in
  let top := default emptyRaw (section_top <$> section) in
  let accounts := section ≫= section_accounts in
  if jstr_eqb accountId DEFAULT_ACCOUNT_ID then
    let '(token, tokenSource) :=
      if truthyStr (trim <$> raw_botToken top)
      then (trim (default [] (raw_botToken top)), FromConfig)
      else if truthyStr (trim <$> MAX_BOT_TOKEN)
      then (trim (default [] MAX_BOT_TOKEN), FromEnv)
      else ([], NoToken) in
    {| resolved :=
         {| accountId := accountId; enabled := notFalse (raw_enabled top);
            token := token; config := raw_settings top |};
       name := raw_name top;
       tokenSource := tokenSource;
       config_botToken := raw_botToken top;
       config_tokenFile := raw_tokenFile top |}
  else
    let raw := default emptyRaw (accountEntry accounts accountId) in
    let '(token, tokenSource) :=
      if truthyStr (trim <$> raw_botToken raw)
      then (trim (default [] (raw_botToken raw)), FromConfig)
      else ([], NoToken) in
    {| resolved :=
         {| accountId := accountId; enabled := notFalse (raw_enabled raw);
            token := token; config := raw_settings raw |};
       name := raw_name raw;
       tokenSource := tokenSource;
       config_botToken := raw_botToken raw;
       config_tokenFile := None |}.

(** [listEnabledAccounts] of actions.ts: the listed accounts that are
    enabled and have a token. *)
Definition listEnabledAccounts (section : option MaxSection) : list Resolved :=
  List.filter (fun a => enabled (resolved a) && nonEmpty (token (resolved a)))
    (map (fun id => resolveMaxAccount section (Some id)) (listMaxAccountIds section)).

End Resolution.

End AccountResolution.

(** ** channel.ts: group settings and message targets *)

Module Channel.

Import StickerCache Accounts AccountResolution.

Section Groups.

Variable DEFAULT_ACCOUNT_ID : jstr.

(** The group's own entry and the entry of the wildcard. *)
Definition resolveMaxGroupConfig (section : option MaxSection)
    (groupId accountId : option jstr)
    : option MaxGroupConfig * option MaxGroupConfig :=
  match section with
  | None => (None, None)
  | Some maxSection =>
      (* account-level groups take priority over channel-level ones *)
      let accountGroups :=
        match accountId with
        | Some ((_ :: _) as id) =>
            if negb (jstr_eqb id DEFAULT_ACCOUNT_ID) then
              accountEntry (section_accounts maxSection) id
                ≫= (fun raw => groups (raw_settings raw))
            else None
        | _ => None
        end in
      let groups :=
        match accountGroups with
        | Some g => Some g
        | None => groups (raw_settings (section_top maxSection))
        end in
      let normalizedId := trim <$> groupId in
      let groupConfig :=
        match normalizedId, groups with
        | Some ((_ :: _) as id), Some g => mjoin (g !! id)
        | _, _ => None
        end in
      let defaultConfig := groups ≫= (fun g => mjoin (g !! js "*")) in
      (groupConfig, defaultConfig)
  end.

Definition resolveMaxGroupRequireMention (section : option MaxSection)
    (groupId accountId : option jstr) : bool :=
  let '(groupConfig, defaultConfig) := resolveMaxGroupConfig section groupId accountId in
  let configMention :=
    match groupConfig ≫= requireMention with
    | Some b => Some b
    | None => defaultConfig ≫= requireMention
    end in
  match configMention with
  | Some b => b
  | None => true
  end.

End Groups.

(** [/^-?\d+$/.test(s)] *)
Definition isNumericId (s : jstr) : bool :=
  let digits :=
    match s with
    | c :: rest => if (c =? 45)%N then rest else s
    | [] => s
    end in
  nonEmpty digits && forallb isDigit digits.

(** [messaging.normalizeTarget] *)
Definition normalizeTarget (raw : jstr) : option jstr :=
  let trimmed := trim raw in
  if isNumericId trimmed then Some trimmed else None.

(** [messaging.targetResolver.looksLikeId] *)
Definition looksLikeId (raw : jstr) : bool := isNumericId (trim raw).

End Channel.

(** ** send.ts: the kind of an uploaded medium *)

Module Send.

Inductive MediaType := Image | Video | Audio | File.

(** [s.split(".")], read from the left: [acc] is the segment begun. *)
Fixpoint splitAtDots (acc : jstr) (s : jstr) : list jstr :=
  match s with
  | [] => [acc]
  | c :: rest =>
      if (c =? 46)%N then acc :: splitAtDots [] rest
      else splitAtDots (acc ++ [c]) rest
  end.

(** [s.split(".").pop()] *)
Definition lastSegment (s : jstr) : jstr :=
  default [] (last (splitAtDots [] s)).

Definition isAscii (c : N) : bool := (c <? 128)%N.

Definition asciiLower (c : N) : N :=
  (if (65 <=? c) && (c <=? 90) then c + 32 else c)%N.

Section MediaTypes.

(** [String.prototype.toLowerCase] of the engine. *)
Variable String_toLowerCase : jstr -> jstr.

(** [s.toLowerCase()]: computed here for a string of ASCII characters,
    left to the engine otherwise. *)
Definition toLowerCase (s : jstr) : jstr :=
  if forallb isAscii s then map asciiLower s else String_toLowerCase s.

(** The media type [sendMaxMediaMessage] uploads a path as. *)
Definition mediaTypeOf (mediaPath : jstr) : MediaType :=
  let ext := toLowerCase (lastSegment mediaPath) in
  if includes [js "jpg"; js "jpeg"; js "png"; js "gif"; js "webp"] ext then Image
  else if includes [js "mp4"; js "mov"; js "avi"] ext then Video
  else if includes [js "mp3"; js "wav"; js "ogg"] ext then Audio
  else File.

End MediaTypes.

End Send.

(** ** actions.ts: the sticker action *)

Module Actions.

Import StickerCache AccountResolution.

(** [val.startsWith("max:") ? val.slice(4) : val] *)
Definition stripPrefix (val : jstr) : jstr :=
  match Monitor.dropPrefix (js "max:") val with
  | Some rest => rest
  | None => val
  end.

(** The code the [sticker] action sends to the chat [to]: the one given
    with the action, else the last one received; [None] when the action
    throws [stickerId is required]. *)
Definition stickerCodeFor (given : option jstr) (to : jstr) (cache : Cache)
    : option jstr :=
  let stickerCode :=
    if truthyStr given then given
    else
      match getLastStickerCode (Some (ChatStr to)) cache with
      | Some code => Some code
      | None => getLastStickerCode None cache
      end in
  if truthyStr stickerCode then stickerCode else None.

End Actions.

(** ** More ways to read a run of the monitor *)

Module Reading.

Import StickerCache Api Accounts Monitor.

Definition isReadAllowFrom (e : Event) : bool :=
  match e with
  | Ev (ReadAllowFromStore _) _ => true
  | _ => false
  end.

(** The DM policy in force: [account.config.dmPolicy ?? "pairing"]. *)
Definition dmPolicyOf (opts : MaxMonitorOptions) : jstr :=
  default (js "pairing") (dmPolicy (config (opt_account opts))).

(** The allow list a direct message is checked against, given what the
    pairing store answered. *)
Definition effectiveAllowFrom (opts : MaxMonitorOptions) (stored : option (list jstr))
    : list jstr :=
  map String_of_chat (default [] (allowFrom (config (opt_account opts))))
  ++ default [] stored.

(** The byte limit of a download: [(account.config.mediaMaxMb ?? 20) * 1024 * 1024]. *)
Definition mediaLimitOf (opts : MaxMonitorOptions) : Z :=
  default 20 (mediaMaxMb (config (opt_account opts))) * 1024 * 1024.

(** A download or a save of a downloaded medium is in order when the URL
    starts with [http] and the call carries the byte limit. *)
Definition downloadOk (limit : Z) (e : Event) : Prop :=
  match e with
  | Ev (FetchRemoteMedia url maxBytes) _ =>
      startsWith url (js "http") = true /\ maxBytes = limit
  | Ev (SaveMediaBuffer _ _ maxBytes) _ => maxBytes = limit
  | _ => True
  end.

(** The code a sticker attachment is remembered under, when it has one. *)
Definition stickerCodeOf (att : MaxAttachment) : option jstr :=
  if jstr_eqb (default (js "unknown") (att_type att)) (js "sticker") then
    let code := orElse (optProp (att_payload att) "code") (JsString []) in
    if truthy code then Some (template code) else None
  else None.

Definition stickerCodesOf (message : MaxMessage) : list jstr :=
  omap stickerCodeOf (default [] (attachments (body message))).

(** The action leaves the sticker cache as it found it. *)
Definition keepsStickers {World A} (m : M World A) : Prop :=
  forall s, stickers (stateAfter m s) = stickers s.

(** A text message sent: the addressee, the text and the options. *)
Definition textSendOf (e : Event) : option (jstr * jstr * SendOptions) :=
  match e with
  | Ev (SendMaxMessage to text o) _ => Some (to, text, o)
  | _ => None
  end.

(** The path of a temporary file that was written. *)
Definition writtenPathOf (e : Event) : option jstr :=
  match e with
  | Ev c r =>
      match c in Call R return R -> option jstr with
      | WriteFile path _ => fun written : bool => if written then Some path else None
      | _ => fun _ => None
      end r
  end.

(** The path of a file that was removed. *)
Definition unlinkedPathOf (e : Event) : option jstr :=
  match e with
  | Ev (Unlink path) _ => Some path
  | _ => None
  end.

(** The files the action removes are the temporary files it wrote, in
    the order it wrote them. *)
Definition removesWhatItWrote {World A} (m : M World A) : Prop :=
  forall s, omap unlinkedPathOf (eventsOf m s) = omap writtenPathOf (eventsOf m s).

(** The length of a back-off. *)
Definition sleepOf (e : Event) : option Z :=
  match e with
  | Ev (Sleep ms) _ => Some ms
  | _ => None
  end.

Definition isPollingStopped (e : Event) : bool :=
  match e with
  | Ev (Log Info LogPollingStopped) _ => true
  | _ => false
  end.

(** The abort signal was read and was raised. *)
Definition isAbortSeen (e : Event) : bool :=
  match e with
  | Ev c r =>
      match c in Call R return R -> bool with
      | AbortSignalAborted => fun aborted => aborted
      | _ => fun _ => false
      end r
  end.

(** A poll that failed: [getUpdates] threw. *)
Definition isFailedPoll (p : option Z * option MaxUpdatesResponse) : bool :=
  match snd p with
  | None => true
  | Some _ => false
  end.

(** The abort signal is never raised. *)
Definition neverAborts {World} (host : forall R, Call R -> World -> R * World) : Prop :=
  forall w, fst (host _ AbortSignalAborted w) = false.

(** The sender name of the context handed to [finalizeInboundContext]. *)
Definition finalizedSenderName (e : Event) : option (option jstr) :=
  match e with
  | Ev (FinalizeInboundContext ctx) _ => Some (SenderName ctx)
  | _ => None
  end.

(** A [getMessages] request: the chat, the ids asked for and the count. *)
Definition refetchOf (e : Event) : option (Z * list jstr * Z) :=
  match e with
  | Ev (GetMessages chatId messageIds count) _ => Some (chatId, messageIds, count)
  | _ => None
  end.

(** The text is missing or blank: [!text?.trim()]. *)
Definition blankText (text : option jstr) : bool :=
  match text with
  | Some t => negb (nonEmpty (trim t))
  | None => true
  end.

(** The URL of an attachment: [payload?.url ?? att.url ?? ""]. *)
Definition urlOf (att : MaxAttachment) : JsValue :=
  orElse (optProp (att_payload att) "url")
    (orElse (prop (att_props att) "url") (JsString [])).

(** A download of the URL [u] with the byte limit [limit]. *)
Definition isFetchOf (u : jstr) (limit : Z) (e : Event) : bool :=
  match e with
  | Ev (FetchRemoteMedia url maxBytes) _ => jstr_eqb url u && (maxBytes =? limit)
  | _ => false
  end.

End Reading.

(** ** Scenarios: configurations and collaborators for concrete runs *)

Module Scenarios.

Import StickerCache Api Accounts Monitor Reference AccountResolution.

Definition disabledDirect : MaxAccountConfig :=
  {| dmPolicy := Some (js "disabled"); allowFrom := None; groupPolicy := None;
     groups := None; mediaMaxMb := None; webhookUrl := None;
     webhookSecret := None; webhookPath := None |}.

(** An allow list that names one user. *)
Definition allowlistDirect (user : Z) : MaxAccountConfig :=
  {| dmPolicy := Some (js "allowlist"); allowFrom := Some [ChatNum user];
     groupPolicy := None; groups := None; mediaMaxMb := None; webhookUrl := None;
     webhookSecret := None; webhookPath := None |}.

Definition noMentionNeeded : MaxGroupConfig := {| requireMention := Some false |}.

(** The chat 5 is allowed and needs no mention. *)
Definition quietGroup : MaxAccountConfig :=
  {| dmPolicy := None; allowFrom := None; groupPolicy := None;
     groups := Some {[ js "5" := Some noMentionNeeded ]}; mediaMaxMb := None;
     webhookUrl := None; webhookSecret := None; webhookPath := None |}.

Definition createdUpdate (m : MaxMessage) : MaxUpdate :=
  {| update_type := js "message_created"; upd_timestamp := 1700000000000;
     upd_message := Some m; upd_callback := None; upd_chat_id := None;
     upd_user := None; user_locale := None |}.


(** The reference collaborator with the platform down: every poll fails. *)
Definition downHost (R : Type) (c : Call R) (pending : list jstr)
    : R * list jstr :=
  match c in Call R return R * list jstr with
  | GetUpdates _ _ _ => (None, pending)
  | other => referenceHost _ other pending
  end.

(** A section whose only token source is a token file. *)
Definition tokenFileOnly : MaxSection :=
  {| section_top :=
       {| raw_enabled := None; raw_botToken := None;
          raw_tokenFile := Some (js "/run/secrets/max"); raw_name := None;
          raw_settings := emptySettings |};
     section_accounts := None |}.

(** A section with one named account, under a key in capitals. *)
Definition capitalKey : MaxSection :=
  {| section_top := emptyRaw;
     section_accounts :=
       Some [(js "PROD",
              {| raw_enabled := None; raw_botToken := Some (js "prod-token");
                 raw_tokenFile := None; raw_name := None;
                 raw_settings := emptySettings |})] |}.

(** A normal form of account ids: trimmed, in lower case. *)
Definition lowerCaseId (id : jstr) : jstr := map Send.asciiLower (trim id).

(** A direct message with a picture. *)
Definition pictureMessage : MaxMessage :=
  {| sender := Some alice;
     recipient := {| chat_id := Some 1; chat_type := Some (js "dialog");
                     recipient_user_id := None |};
     timestamp := 1700000000000;
     link := None;
     body := {| mid := js "mid.1"; text := None;
                attachments :=
                  Some [{| att_type := Some (js "image");
                           att_payload :=
                             Some {[ js "url" := JsString (js "https://cdn.example/p.png") ]};
                           att_props := ∅ |}] |} |}.

End Scenarios.

(** * Properties *)

(** ** The sticker cache *)

Module StickerCacheFacts.

Import StickerCache.

Lemma rememberAll_snoc h k code c :
  rememberAll (h ++ [(k, code)]) c = rememberStickerCode k code (rememberAll h c).
Proof. unfold rememberAll. by rewrite fold_left_app. Qed.

(** After any history the global slot holds the code of the latest call. *)
Lemma global_is_latest h :
  lastStickerGlobal (rememberAll h initial) = snd <$> last h.
Proof.
  induction h as [|[k code] h _] using rev_ind; [done|].
  rewrite rememberAll_snoc, last_snoc. done.
Qed.

(** C10: [rememberStickerCode] writes the chat's entry and the global
    slot; [getLastStickerCode] answers with the chat's entry when it is
    there and non-empty and otherwise with the code remembered last, for
    whichever chat; it answers [null] only when nothing was ever
    remembered; so a code remembered for one chat is handed out for
    another chat that has none of its own. *)
Theorem getLastStickerCode_falls_back_to_any_chat :
  (forall k code c,
      lastStickerByChat (rememberStickerCode k code c) !! String_of_chat k = Some code
      /\ lastStickerGlobal (rememberStickerCode k code c) = Some code)
  /\ (forall h chat,
        let c := rememberAll h initial in
        getLastStickerCode (Some chat) c =
          match lastStickerByChat c !! String_of_chat chat with
          | Some ((_ :: _) as code) => Some code
          | _ => snd <$> last h
          end
        /\ (getLastStickerCode (Some chat) c = None <-> h = []))
  /\ (forall h chat other code,
        let c := rememberAll h initial in
        String_of_chat other <> String_of_chat chat ->
        lastStickerByChat c !! String_of_chat chat = None ->
        getLastStickerCode (Some chat) (rememberStickerCode other code c) = Some code).
Proof.
  split; [|split].
  - intros k code c. split; [apply lookup_insert_eq | done].
  - intros h chat c.
    assert (Hread : getLastStickerCode (Some chat) c =
              match lastStickerByChat c !! String_of_chat chat with
              | Some ((_ :: _) as code) => Some code
              | _ => snd <$> last h
              end).
    { unfold getLastStickerCode. subst c. rewrite <- global_is_latest.
      destruct (lastStickerByChat _ !! _) as [[|x code]|]; cbn; done. }
    split; [exact Hread|].
    rewrite Hread. split.
    + destruct (lastStickerByChat c !! String_of_chat chat) as [[|x code]|];
        try discriminate;
        (destruct h as [|a h] using rev_ind; [done|]);
        rewrite last_snoc; discriminate.
    + intros ->. done.
  - intros h chat other code c Hne Hnone.
    unfold getLastStickerCode, rememberStickerCode. cbn.
    rewrite lookup_insert_ne by done. by rewrite Hnone.
Qed.

End StickerCacheFacts.


Module JsStringFacts.

Lemma trimEnd_snoc s c :
  trimEnd (s ++ [c]) = if isWhiteSpace c then trimEnd s else s ++ [c].
Proof.
  induction s as [|a s IH]; cbn [app trimEnd].
  - by destruct (isWhiteSpace c).
  - rewrite IH. destruct (isWhiteSpace c) eqn:Hc; [done|].
    by destruct s.
Qed.

Lemma trimEnd_length s : (length (trimEnd s) <= length s)%nat.
Proof.
  induction s as [|a s IH]; cbn [trimEnd]; [done|].
  destruct (trimEnd s); [destruct (isWhiteSpace a)|]; cbn in *; lia.
Qed.

Lemma trimEnd_fixed s :
  trimEnd s = s <-> s = [] \/ exists s' c, s = s' ++ [c] /\ isWhiteSpace c = false.
Proof.
  destruct s as [|a s] using rev_ind; [split; [intros _; by left | done]|].
  rewrite trimEnd_snoc. split.
  - destruct (isWhiteSpace a) eqn:Ha; [|by right; eauto].
    intros Heq. pose proof (trimEnd_length s) as Hlen.
    rewrite Heq, length_app in Hlen. cbn in Hlen. lia.
  - intros [Hnil | (s' & c & Heq & Hc)]; [by destruct s|].
    apply app_inj_tail in Heq as [-> ->]. by rewrite Hc.
Qed.

Lemma trimEnd_idemp s : trimEnd (trimEnd s) = trimEnd s.
Proof.
  induction s as [|a s IH] using rev_ind; [done|].
  rewrite trimEnd_snoc. destruct (isWhiteSpace a) eqn:Ha; [done|].
  by rewrite trimEnd_snoc, Ha.
Qed.

Lemma trimEnd_cons c s :
  isWhiteSpace c = false -> trimEnd (c :: s) = c :: trimEnd s.
Proof. intros Hc. cbn [trimEnd]. rewrite Hc. by destruct (trimEnd s). Qed.

Lemma trimStart_head s :
  trimStart s = [] \/ exists c r, trimStart s = c :: r /\ isWhiteSpace c = false.
Proof.
  induction s as [|a s IH]; [by left|]. cbn [trimStart].
  destruct (isWhiteSpace a) eqn:Ha; [done|]. right. eauto.
Qed.

Lemma trimStart_cons c s : isWhiteSpace c = false -> trimStart (c :: s) = c :: s.
Proof. intros Hc. cbn. by rewrite Hc. Qed.

Lemma trim_cons c s : isWhiteSpace c = false -> trim (c :: s) = c :: trimEnd s.
Proof. intros Hc. unfold trim. by rewrite trimStart_cons, trimEnd_cons. Qed.

Lemma trim_idemp s : trim (trim s) = trim s.
Proof.
  unfold trim at 2 3. destruct (trimStart_head s) as [-> | (c & r & -> & Hc)]; [done|].
  rewrite trimEnd_cons by done. rewrite trim_cons by done. by rewrite trimEnd_idemp.
Qed.

Lemma trim_length s : (length (trim s) <= length s)%nat.
Proof.
  unfold trim. etrans; [apply trimEnd_length|].
  induction s as [|a s IH]; cbn [trimStart]; [done|].
  destruct (isWhiteSpace a); cbn; lia.
Qed.

Lemma length_sliceDropLast s : length (sliceDropLast s) = pred (length s).
Proof.
  unfold sliceDropLast. rewrite removelast_firstn_len.
  rewrite length_take. lia.
Qed.

Lemma endsWith_snoc s c d : endsWith (s ++ [c]) [d] = (d =? c)%N.
Proof.
  unfold endsWith. rewrite rev_unit. cbn [rev app startsWith].
  by rewrite andb_true_r.
Qed.

End JsStringFacts.

(** ** The webhook sink *)

Module WebhookFacts.

Import Webhook JsStringFacts.

Lemma slash_not_space : isWhiteSpace 47 = false.
Proof. reflexivity. Qed.

Lemma startsWith_slash t : startsWith t (js "/") = true -> exists r, t = 47%N :: r.
Proof.
  change (js "/") with [47%N].
  destruct t as [|b t]; cbn [startsWith]; [done|].
  rewrite andb_true_r. intros ->%N.eqb_eq. eauto.
Qed.

Lemma normalize_trim x : normalizeWebhookPath (trim x) = normalizeWebhookPath x.
Proof. unfold normalizeWebhookPath. by rewrite trim_idemp. Qed.

Lemma normalize_of_rooted r :
  normalizeWebhookPath (47%N :: r) =
    let t := 47%N :: trimEnd r in
    if (1 <? Z.of_nat (length t)) && endsWith t (js "/") then sliceDropLast t else t.
Proof.
  unfold normalizeWebhookPath. rewrite trim_cons by apply slash_not_space.
  cbn [nonEmpty]. done.
Qed.

Lemma stripped_rooted w :
  exists r,
    (if (1 <? Z.of_nat (length (47%N :: w))) && endsWith (47%N :: w) (js "/")
     then sliceDropLast (47%N :: w) else 47%N :: w) = 47%N :: r.
Proof.
  destruct (_ && _) eqn:Hc; [|eauto].
  destruct w as [|b w]; [done|]. unfold sliceDropLast. cbn [removelast]. eauto.
Qed.

Lemma normalize_rooted x : exists r, normalizeWebhookPath x = 47%N :: r.
Proof.
  unfold normalizeWebhookPath. cbv zeta.
  destruct (trim x) as [|a t] eqn:Ht; cbn [nonEmpty].
  { by exists []. }
  destruct (startsWith (a :: t) (js "/")) eqn:Hs.
  - apply startsWith_slash in Hs as [r [= -> ->]]. apply stripped_rooted.
  - apply (stripped_rooted (a :: t)).
Qed.

Section Resolve.

Variable URL_pathname : jstr -> option jstr -> option jstr.

Lemma resolve_rooted p url :
  exists r, resolveMaxWebhookPath URL_pathname p url = 47%N :: r.
Proof.
  unfold resolveMaxWebhookPath.
  destruct (trim <$> p) as [[|a t]|]; try apply normalize_rooted;
    (destruct url as [u|]; [|by eexists]);
    (destruct (nonEmpty (trim u)); [|by eexists]);
    (destruct (URL_pathname u None); [apply normalize_rooted | by eexists]).
Qed.

Lemma resolve_of_rooted r url :
  resolveMaxWebhookPath URL_pathname (Some (47%N :: r)) url
  = normalizeWebhookPath (47%N :: r).
Proof.
  unfold resolveMaxWebhookPath. cbn [fmap option_fmap option_map].
  rewrite trim_cons by apply slash_not_space.
  rewrite <- (trim_cons 47 r) by apply slash_not_space.
  apply normalize_trim.
Qed.

Lemma normalize_fixed r :
  normalizeWebhookPath (47%N :: r) = 47%N :: r <->
  47%N :: r = js "/"
  \/ exists q' c, 47%N :: r = q' ++ [c] /\ c <> 47%N /\ isWhiteSpace c = false.
Proof.
  rewrite normalize_of_rooted. cbv zeta. split.
  - destruct (_ && _) eqn:Hc.
    + intros Heq. apply (f_equal length) in Heq.
      rewrite length_sliceDropLast in Heq. cbn [length] in Heq.
      pose proof (trimEnd_length r). lia.
    + intros [= Ht]. rewrite Ht in Hc.
      apply trimEnd_fixed in Ht as [-> | (s' & c & -> & Hws)]; [left; reflexivity|].
      right. exists (47%N :: s'), c. split; [done|]. split; [|done].
      change (47%N :: s' ++ [c]) with ((47%N :: s') ++ [c]) in Hc.
      change (js "/") with [47%N] in Hc. rewrite endsWith_snoc in Hc.
      rewrite length_app in Hc. cbn [length] in Hc.
      apply andb_false_iff in Hc as [Hc|Hc]; [apply Z.ltb_ge in Hc; lia|].
      apply N.eqb_neq in Hc. congruence.
  - intros [[= ->] | (q' & c & Heq & Hne & Hws)]; [done|].
    assert (Ht : trimEnd (47%N :: r) = 47%N :: r).
    { apply trimEnd_fixed. right. eauto. }
    rewrite trimEnd_cons in Ht by apply slash_not_space. injection Ht as Ht.
    rewrite Ht, Heq. change (js "/") with [47%N]. rewrite endsWith_snoc.
    apply N.eqb_neq in Hne. rewrite N.eqb_sym in Hne. rewrite Hne.
    by rewrite andb_false_r.
Qed.

Lemma resolve_of_path p url :
  trim p <> [] ->
  resolveMaxWebhookPath URL_pathname (Some p) url = normalizeWebhookPath p.
Proof.
  intros Hne. rewrite <- normalize_trim. unfold resolveMaxWebhookPath.
  cbn [fmap option_fmap option_map]. by destruct (trim p).
Qed.

Lemma startsWith_app_one t a b :
  t <> [] -> startsWith (t ++ [a]) [b] = startsWith t [b].
Proof. by destruct t. Qed.

(** C8, amended: an application removes one trailing slash, not all of
    them, and never the root's.  The result [q] of [resolveMaxWebhookPath]
    is resolved to itself exactly when it is the root or ends in a
    character that is neither a slash nor white space. *)
Theorem resolveMaxWebhookPath_fixed_point_iff (p : jstr) (url : option jstr) :
  let q := resolveMaxWebhookPath URL_pathname (Some p) url in
  (resolveMaxWebhookPath URL_pathname (Some q) url = q <->
     q = js "/"
     \/ exists q' c, q = q' ++ [c] /\ c <> 47%N /\ isWhiteSpace c = false)
  /\ (forall t, trim p = t ++ js "/" -> t <> [] ->
        q = if startsWith t (js "/") then t else js "/" ++ t)
  /\ (trim p = js "/" -> q = js "/").
Proof.
  cbv zeta. split; [|split].
  - destruct (resolve_rooted (Some p) url) as [r ->].
    rewrite resolve_of_rooted. apply normalize_fixed.
  - intros t Ht Hne. change (js "/") with [47%N] in *.
    rewrite resolve_of_path by (rewrite Ht; by destruct t).
    unfold normalizeWebhookPath. cbv zeta. change (js "/") with [47%N].
    rewrite Ht. replace (nonEmpty (t ++ [47%N])) with true by (by destruct t).
    rewrite startsWith_app_one by done.
    destruct (startsWith t [47%N]).
    + rewrite endsWith_snoc, length_app. cbn [length].
      replace (1 <? _) with true by (symmetry; apply Z.ltb_lt; destruct t; cbn in *; [done | lia]).
      cbn [andb N.eqb Pos.eqb]. apply removelast_last.
    + change ([47%N] ++ t ++ [47%N]) with (([47%N] ++ t) ++ [47%N]).
      rewrite endsWith_snoc, !length_app. cbn [length].
      replace (1 <? _) with true by (symmetry; apply Z.ltb_lt; lia).
      cbn [andb N.eqb Pos.eqb]. apply removelast_last.
  - intros Ht. rewrite resolve_of_path by (by rewrite Ht).
    unfold normalizeWebhookPath. by rewrite Ht.
Qed.

End Resolve.

(** C8 as stated fails: two trailing slashes take two applications. *)
Lemma resolveMaxWebhookPath_not_idempotent :
  let resolve p := resolveMaxWebhookPath (fun _ _ => None) (Some p) None in
  resolve (js "/a//") = js "/a/"
  /\ resolve (resolve (js "/a//")) = js "/a"
  /\ resolve (resolve (js "/a//")) <> resolve (js "/a//").
Proof. vm_compute. repeat split; discriminate. Qed.

Lemma resolveMaxWebhookPath_fixed_point_witness :
  let p := js "/api/max/" in
  trim p = js "/api/max" ++ js "/"
  /\ js "/api/max" <> []
  /\ resolveMaxWebhookPath (fun _ _ => None) (Some p) None = js "/api/max"
  /\ resolveMaxWebhookPath (fun _ _ => None) (Some (js "/api/max")) None = js "/api/max".
Proof.
  cbv zeta.
  destruct (resolveMaxWebhookPath_fixed_point_iff (fun _ _ => None) (js "/api/max/") None)
    as (Hfix & Hstrip & _).
  split; [reflexivity|]. split; [discriminate|]. split.
  - apply (Hstrip (js "/api/max")); [reflexivity | discriminate].
  - apply Hfix. right. exists (js "/api/ma"), 120%N. repeat split; discriminate.
Defined.


Lemma jstr_eqb_eq a b : jstr_eqb a b = true <-> a = b.
Proof. unfold jstr_eqb. apply bool_decide_eq_true. Qed.

Lemma jstr_eqb_neq a b : jstr_eqb a b = false <-> a <> b.
Proof. unfold jstr_eqb. apply bool_decide_eq_false. Qed.

Section Matching.

Context {S Account Config : Type}.



End Matching.

Section Responses.

Context {S Account Config : Type}.

Variable URL_pathname : jstr -> option jstr -> option jstr.
Variable requestBodyErrorToText : jstr -> jstr.



End Responses.



(** Registration order is list order: a new target goes last on its path. *)
Lemma registerMaxWebhookTarget_appends {S Account Config}
    (t : MaxWebhookTarget S Account Config) (reg : Registry S Account Config) :
  let key := normalizeWebhookPath (path t) in
  exists t',
    registerMaxWebhookTarget t reg !! key = Some (default [] (reg !! key) ++ [t'])
    /\ path t' = key /\ secret t' = secret t /\ onUpdate t' = onUpdate t.
Proof.
  cbv zeta. unfold registerMaxWebhookTarget, Registry in *. eexists. split.
  - apply (lookup_insert_eq (M := gmap jstr)).
  - done.
Qed.

(** The cases of the handler's own test suite for the path. *)
Example resolveMaxWebhookPath_tests :
  let url (input : jstr) (base : option jstr) := Some (js "/api/max") in
  resolveMaxWebhookPath url (Some (js "/custom-path")) None = js "/custom-path"
  /\ resolveMaxWebhookPath url None (Some (js "https://example.com/api/max"))
     = js "/api/max"
  /\ resolveMaxWebhookPath url (Some (js "custom")) None = js "/custom"
  /\ resolveMaxWebhookPath url (Some (js "/api/max/")) None = js "/api/max"
  /\ resolveMaxWebhookPath url None None = js "/max"
  /\ resolveMaxWebhookPath url (Some (js "/")) None = js "/".
Proof. vm_compute. repeat split. Qed.

End WebhookFacts.

(** ** The monitor *)

Module MonitorFacts.

Import StickerCache Api Accounts Monitor.

Section Runs.

Context {World : Type}.
Variable host : forall R, Call R -> World -> R * World.

Lemma run_eta {A} (m : M World A) s :
  m s = (resultOf m s, stateAfter m s, eventsOf m s).
Proof. unfold resultOf, stateAfter, eventsOf. by destruct (m s) as [[a s1] e]. Qed.

Lemma events_ret {A} (a : A) (s : State World) : eventsOf (ret a) s = [].
Proof. done. Qed.

Lemma events_bind {A B} (m : M World A) (f : A -> M World B) s :
  eventsOf (bind m f) s
  = eventsOf m s ++ eventsOf (f (resultOf m s)) (stateAfter m s).
Proof.
  unfold eventsOf, resultOf, stateAfter, bind.
  destruct (m s) as [[a s1] e1]. cbn. by destruct (f a s1) as [[b s2] e2].
Qed.

Lemma result_bind {A B} (m : M World A) (f : A -> M World B) s :
  resultOf (bind m f) s = resultOf (f (resultOf m s)) (stateAfter m s).
Proof.
  unfold eventsOf, resultOf, stateAfter, bind.
  destruct (m s) as [[a s1] e1]. cbn. by destruct (f a s1) as [[b s2] e2].
Qed.

Lemma state_bind {A B} (m : M World A) (f : A -> M World B) s :
  stateAfter (bind m f) s = stateAfter (f (resultOf m s)) (stateAfter m s).
Proof.
  unfold eventsOf, resultOf, stateAfter, bind.
  destruct (m s) as [[a s1] e1]. cbn. by destruct (f a s1) as [[b s2] e2].
Qed.

Lemma events_call {R} (c : Call R) s :
  eventsOf (call host c) s = [Ev c (resultOf (call host c) s)].
Proof.
  unfold eventsOf, resultOf, call. by destruct (host R c (world s)).
Qed.

Lemma emits_ret {A} P (a : A) : emitsOnly P (ret a : M World A).
Proof. intros s. constructor. Qed.

Lemma emits_call {R} (P : Event -> Prop) (c : Call R) :
  (forall r, P (Ev c r)) -> emitsOnly P (call host c).
Proof. intros HP s. rewrite events_call. by repeat constructor. Qed.

Lemma emits_remember P k code : emitsOnly P (remember k code : M World unit).
Proof. intros s. constructor. Qed.

Lemma emits_bind {A B} P (m : M World A) (f : A -> M World B) :
  emitsOnly P m -> (forall a, emitsOnly P (f a)) -> emitsOnly P (bind m f).
Proof.
  intros Hm Hf s. rewrite events_bind. apply Forall_app. split; [apply Hm | apply Hf].
Qed.

(** The same, when the continuation needs a fact about the result. *)
Lemma emits_bind_with {A B} (Q : A -> Prop) P (m : M World A) (f : A -> M World B) :
  returnsOnly Q m -> emitsOnly P m -> (forall a, Q a -> emitsOnly P (f a)) ->
  emitsOnly P (bind m f).
Proof.
  intros HQ Hm Hf s. rewrite events_bind. apply Forall_app.
  split; [apply Hm | apply Hf, HQ].
Qed.

Lemma emits_foldM {A B} P (f : A -> B -> M World A) l a :
  (forall a x, emitsOnly P (f a x)) -> emitsOnly P (foldM f l a).
Proof.
  intros Hf. revert a. induction l as [|x l IH]; intros a; cbn [foldM].
  - apply emits_ret.
  - apply emits_bind; [apply Hf | intros a'; apply IH].
Qed.

Lemma emits_forEach {B} P (f : B -> M World unit) l :
  (forall x, emitsOnly P (f x)) -> emitsOnly P (forEach f l).
Proof. intros Hf. apply emits_foldM. intros _ x. apply Hf. Qed.

Lemma emits_weaken {A} (P Q : Event -> Prop) (m : M World A) :
  (forall e, P e -> Q e) -> emitsOnly P m -> emitsOnly Q m.
Proof. intros HPQ Hm s. eapply Forall_impl; [apply Hm | done]. Qed.

End Runs.

(** Walk through an action call by call; [tac] settles the side
    condition at each call. *)
Ltac emits_walk tac :=
  repeat first
    [ apply emits_ret
    | apply emits_remember
    | apply emits_call; intros; tac
    | apply emits_bind; [|intros]
    | apply emits_forEach; intros
    | apply emits_foldM; intros
    | match goal with
      | |- emitsOnly _ (match ?x with _ => _ end) => destruct x
      | |- emitsOnly _ (let _ := _ in _) => cbv zeta
      end ].

Section Attachments.

Context {World : Type}.
Variable host : forall R, Call R -> World -> R * World.
Variable RegExp_test : jstr -> jstr -> jstr -> bool.

(** The attachment loop calls the log sink and the media collaborators
    and nothing else. *)
Lemma reduceAttachment_emits account chatId r att :
  emitsOnly (fun e => isDispatch e = false /\ isResolveAgentRoute e = false
                      /\ isUpsert e = false /\ isSend e = false
                      /\ pollOf e = None)
    (reduceAttachment host account chatId r att).
Proof.
  unfold reduceAttachment. emits_walk ltac:(by repeat split).
Qed.

Lemma attachmentPhase_emits opts message :
  emitsOnly (fun e => isDispatch e = false /\ isResolveAgentRoute e = false
                      /\ isUpsert e = false /\ isSend e = false
                      /\ pollOf e = None)
    (attachmentPhase host opts message).
Proof.
  unfold attachmentPhase, reduceAttachments.
  apply emits_bind; [by apply emits_call | intros _].
  apply emits_foldM. intros. apply reduceAttachment_emits.
Qed.

(** C1: when the effective text is empty and no attachment was
    downloaded, [processIncomingMessage] ends where the attachment loop
    ended: same state, no further call; and the calls made until then
    include neither the resolution of an agent route nor the dispatch to
    the host pipeline. *)
Theorem processIncomingMessage_drops_empty_message
    (message : MaxMessage) (userLocale : option jstr) (opts : MaxMonitorOptions)
    (s : State World) :
  let loop := attachmentPhase host opts message in
  effectiveText (default [] (text (body message))) (resultOf loop s) = [] ->
  mediaPaths (resultOf loop s) = [] ->
  processIncomingMessage host RegExp_test message userLocale opts s
    = (tt, stateAfter loop s, eventsOf loop s)
  /\ Forall (fun e => isDispatch e = false /\ isResolveAgentRoute e = false)
       (eventsOf (processIncomingMessage host RegExp_test message userLocale opts) s).
Proof.
  cbv zeta. intros Htext Hmedia.
  assert (Hrun : processIncomingMessage host RegExp_test message userLocale opts s
                 = (tt, stateAfter (attachmentPhase host opts message) s,
                    eventsOf (attachmentPhase host opts message) s)).
  { unfold processIncomingMessage, bind.
    rewrite (run_eta (attachmentPhase host opts message) s).
    unfold afterAttachments, hasMedia. rewrite Htext, Hmedia.
    change (negb (nonEmpty []) && negb (0 <? Z.of_nat (length (@nil jstr)))) with true.
    unfold ret. by rewrite app_nil_r. }
  split; [exact Hrun|].
  unfold eventsOf at 1. rewrite Hrun. cbn [snd].
  eapply Forall_impl; [apply attachmentPhase_emits|]. cbn. tauto.
Qed.

(** C4, evaluated at its input: for a message without text whose only
    attachment is [{type:"sticker", payload:{code:"abc123"}}] the loop
    describes the sticker twice, so the effective text is
    ["[Sticker: code=abc123] [Sticker: abc123]"] and not
    ["[Sticker: code=abc123]"]; the cache does record [abc123] for the
    chat and the message is not dropped as empty. *)
Theorem sticker_without_url_described_twice (opts : MaxMonitorOptions) (chat : Z)
    (s : State World) :
  let message := Reference.stickerMessage chat in
  let loop := attachmentPhase host opts message in
  attachmentDescriptions (resultOf loop s)
    = [js "[Sticker: code=abc123]"; js "[Sticker: abc123]"]
  /\ effectiveText (default [] (text (body message))) (resultOf loop s)
     = js "[Sticker: code=abc123] [Sticker: abc123]"
  /\ effectiveText (default [] (text (body message))) (resultOf loop s)
     <> js "[Sticker: code=abc123]"
  /\ getLastStickerCode (Some (ChatNum chat)) (stickers (stateAfter loop s))
     = Some (js "abc123")
  /\ notEmpty message (resultOf loop s).
Proof.
  cbv zeta.
  assert (Hrun : exists w,
            attachmentPhase host opts (Reference.stickerMessage chat) s
            = ({| attachmentDescriptions :=
                    [js "[Sticker: code=abc123]"; js "[Sticker: abc123]"];
                  mediaPaths := []; mediaUrls := []; mediaTypes := [] |},
               {| world := w;
                  stickers := rememberStickerCode (ChatNum chat) (js "abc123")
                                (stickers s) |},
               [Ev (Log Debug (LogProcessing (js "mid.1"))) tt;
                Ev (Log Debug (LogStickerReceived (js "abc123"))) tt])).
  { vm_compute.
    destruct (host _ _ _) as [[] w1]. vm_compute.
    destruct (host _ _ _) as [[] w2]. vm_compute.
    by eexists. }
  destruct Hrun as [w Hrun]. unfold resultOf, stateAfter. rewrite Hrun. cbn [fst snd].
  repeat split.
  - discriminate.
  - unfold getLastStickerCode, rememberStickerCode.
    cbn [lastStickerByChat lastStickerGlobal stickers]. by rewrite lookup_insert_eq.
  - by left.
Qed.

End Attachments.

Section Gates.

Context {World : Type}.
Variable host : forall R, Call R -> World -> R * World.
Variable RegExp_test : jstr -> jstr -> jstr -> bool.

Lemma forwarded_app es es' : forwarded (es ++ es') = forwarded es || forwarded es'.
Proof. apply existsb_app. Qed.

Lemma not_forwarded {A} (m : M World A) s :
  emitsOnly (fun e => isDispatch e = false) m -> forwarded (eventsOf m s) = false.
Proof.
  intros Hm. specialize (Hm s). unfold forwarded.
  induction Hm as [|e es He _ IH]; [done|]. cbn. by rewrite He, IH.
Qed.

(** What the mention block leaves in [wasMentioned]. *)
Lemma detectMention_result opts message rawText s :
  resultOf (detectMention host RegExp_test opts message rawText) s =
    match botUsername opts with
    | Some ((_ :: _) as name) =>
        if isGroupChat message
        then Some (mentionPattern_test RegExp_test name rawText
                   || replyToBot opts message)
        else None
    | _ => None
    end.
Proof.
  unfold detectMention. destruct (botUsername opts) as [[|c name]|]; try done.
  destruct (isGroupChat message); [|done].
  destruct (mentionPattern_test _ _ _); [reflexivity|]. cbn [orb].
  assert (Hr : isReply message && replyToBot opts message = replyToBot opts message).
  { unfold isReply, replyToBot. destruct (link message) as [l|]; [|done].
    by destruct (link_type l). }
  rewrite Hr. destruct (replyToBot opts message); [|reflexivity].
  by rewrite result_bind.
Qed.

Lemma detectMention_emits opts message rawText :
  emitsOnly (fun e => isDispatch e = false /\ isUpsert e = false /\ isSend e = false)
    (detectMention host RegExp_test opts message rawText).
Proof. unfold detectMention. emits_walk ltac:(by repeat split). Qed.

Lemma policyGates_emits_no_dispatch opts message wasMentioned :
  emitsOnly (fun e => isDispatch e = false)
    (policyGates host opts message wasMentioned).
Proof.
  unfold policyGates, dmGate, requestPairing, groupGate, groupPolicyGate, mentionGate.
  emits_walk ltac:(done).
Qed.

(** The hand-off reaches the dispatcher. *)
Lemma forwardToHost_forwards opts message r wasMentioned s :
  forwarded (eventsOf (forwardToHost host opts message r wasMentioned) s) = true.
Proof.
  unfold forwardToHost. cbv zeta.
  repeat lazymatch goal with
    | |- forwarded (eventsOf
           (bind (call _ (DispatchReplyWithBufferedBlockDispatcher _)) _) _) = true =>
        fail
    | |- forwarded (eventsOf (bind _ _) _) = true =>
        rewrite events_bind, forwarded_app; apply orb_true_iff; right
    end.
  rewrite events_bind, forwarded_app. apply orb_true_iff. left.
  by rewrite events_call.
Qed.

(** A message that is not empty is forwarded exactly when the gates let
    it pass. *)
Lemma afterAttachments_forwarded opts message r s :
  notEmpty message r ->
  let mention := detectMention host RegExp_test opts message
                   (default [] (text (body message))) in
  forwarded (eventsOf (afterAttachments host RegExp_test opts message r) s)
  = resultOf (policyGates host opts message (resultOf mention s)) (stateAfter mention s).
Proof.
  intros Hne. cbv zeta. unfold afterAttachments.
  assert (Hc : negb (nonEmpty (effectiveText (default [] (text (body message))) r))
               && negb (hasMedia r) = false).
  { destruct Hne as [-> | ->]; [done | by rewrite andb_false_r]. }
  rewrite Hc. rewrite !events_bind, !forwarded_app.
  rewrite (not_forwarded (detectMention _ _ _ _ _)).
  2:{ eapply emits_weaken; [|apply detectMention_emits]. cbn. tauto. }
  rewrite (not_forwarded (policyGates _ _ _ _)) by apply policyGates_emits_no_dispatch.
  cbn [orb]. destruct (resultOf (policyGates _ _ _ _) _).
  - apply forwardToHost_forwards.
  - done.
Qed.

Lemma processIncomingMessage_forwarded message userLocale opts s :
  let loop := attachmentPhase host opts message in
  forwarded (eventsOf (processIncomingMessage host RegExp_test message userLocale opts) s)
  = forwarded (eventsOf (afterAttachments host RegExp_test opts message (resultOf loop s))
                 (stateAfter loop s)).
Proof.
  cbv zeta. unfold processIncomingMessage. rewrite events_bind, forwarded_app.
  rewrite not_forwarded; [done|].
  eapply emits_weaken; [|apply attachmentPhase_emits]. cbn. tauto.
Qed.

Lemma result_ret {A} (a : A) (s : State World) : resultOf (ret a) s = a.
Proof. done. Qed.

(** In a group that passes the membership check and requires a mention,
    the gates let through exactly the mentioned messages. *)
Lemma policyGates_group_result opts message wasMentioned s :
  isGroupChat message = true ->
  groupPolicyOf opts <> js "disabled" ->
  (groupPolicyOf opts = js "allowlist" ->
   chatAllowed opts (chat_id (recipient message)) = true) ->
  requireMentionOf opts (chat_id (recipient message)) = true ->
  resultOf (policyGates host opts message wasMentioned) s = default false wasMentioned.
Proof.
  intros Hgroup Hdis Hallow Hreq.
  unfold policyGates, groupGate, groupPolicyGate, mentionGate.
  rewrite Hgroup, Hreq. cbn [negb andb]. rewrite result_bind, result_ret.
  apply WebhookFacts.jstr_eqb_neq in Hdis. rewrite Hdis.
  assert (Hal : jstr_eqb (groupPolicyOf opts) (js "allowlist")
                && negb (chatAllowed opts (chat_id (recipient message))) = false).
  { destruct (jstr_eqb _ (js "allowlist")) eqn:Heq; [|done].
    apply WebhookFacts.jstr_eqb_eq in Heq. by rewrite (Hallow Heq). }
  rewrite Hal. rewrite result_bind, result_ret.
  destruct wasMentioned as [[|]|]; cbn [default from_option id negb];
    try reflexivity; by rewrite result_bind.
Qed.

Lemma requireMention_unless_false opts chatId :
  (forall c, groupCfgOf opts chatId = Some c -> requireMention c <> Some false) ->
  requireMentionOf opts chatId = true.
Proof.
  intros H. unfold requireMentionOf.
  destruct (groupCfgOf opts chatId) as [c|]; [|done].
  specialize (H c eq_refl). by destruct (requireMention c) as [[|]|].
Qed.

(** C2, amended: a group or channel message that is not empty and passes
    the group policy gate, in a chat whose resolved configuration does not
    set [requireMention] to [false], is forwarded exactly when its text
    matches [@<botUsername>] or it replies to a message of the bot,
    provided the bot's user name is known; when the user name is not
    known, no mention is detected and the message is dropped. *)
Theorem group_message_forwarded_iff_mentioned
    (message : MaxMessage) (userLocale : option jstr) (opts : MaxMonitorOptions)
    (s : State World) :
  let chatId := chat_id (recipient message) in
  let rawText := default [] (text (body message)) in
  isGroupChat message = true ->
  notEmpty message (resultOf (attachmentPhase host opts message) s) ->
  groupPolicyOf opts <> js "disabled" ->
  (groupPolicyOf opts = js "allowlist" -> chatAllowed opts chatId = true) ->
  (forall c, groupCfgOf opts chatId = Some c -> requireMention c <> Some false) ->
  let es :=
    eventsOf (processIncomingMessage host RegExp_test message userLocale opts) s in
  match botUsername opts with
  | Some ((_ :: _) as name) =>
      forwarded es = true <->
      mentionPattern_test RegExp_test name rawText = true
      \/ replyToBot opts message = true
  | _ => forwarded es = false
  end.
Proof.
  cbv zeta. intros Hgroup Hne Hdis Hallow Hreq.
  apply requireMention_unless_false in Hreq.
  rewrite processIncomingMessage_forwarded. cbv zeta.
  rewrite afterAttachments_forwarded by done. cbv zeta.
  rewrite policyGates_group_result by done.
  rewrite detectMention_result, Hgroup.
  destruct (botUsername opts) as [[|c name]|]; [done| |done].
  cbn [default from_option id]. apply orb_true_iff.
Qed.



Lemma detectMention_direct opts message rawText :
  isGroupChat message = false ->
  detectMention host RegExp_test opts message rawText = ret None.
Proof.
  intros Hdm. unfold detectMention. rewrite Hdm.
  by destruct (botUsername opts) as [[|c name]|].
Qed.



End Gates.

Section EditedMessages.

Context {World : Type}.
Variable host : forall R, Call R -> World -> R * World.
Variable RegExp_test : jstr -> jstr -> jstr -> bool.

Lemma uint_digits_all d : forallb isDigit (uint_digits d) = true.
Proof. induction d; cbn [uint_digits forallb]; by rewrite ?IHd. Qed.



Lemma dropPrefix_here p rest : dropPrefix p (p ++ rest) = Some rest.
Proof.
  induction p as [|a p IH]; cbn [dropPrefix app]; [done|]. by rewrite N.eqb_refl.
Qed.








End EditedMessages.

(** The same walk, with a lemma for the calls of [processIncomingMessage]. *)
Ltac emits_walk_using lem tac :=
  repeat first
    [ apply lem
    | apply emits_ret
    | apply emits_remember
    | apply emits_call; intros; tac
    | apply emits_bind; [|intros]
    | apply emits_forEach; intros
    | apply emits_foldM; intros
    | match goal with
      | |- emitsOnly _ (match ?x with _ => _ end) => destruct x
      | |- emitsOnly _ (let _ := _ in _) => cbv zeta
      end ].

Section Polling.

Context {World : Type}.
Variable host : forall R, Call R -> World -> R * World.
Variable RegExp_test : jstr -> jstr -> jstr -> bool.

Lemma processIncomingMessage_no_poll message userLocale opts :
  emitsOnly (fun e => pollOf e = None)
    (processIncomingMessage host RegExp_test message userLocale opts).
Proof.
  unfold processIncomingMessage, attachmentPhase, reduceAttachments, reduceAttachment,
    afterAttachments, detectMention, policyGates, dmGate, requestPairing, groupGate,
    groupPolicyGate, mentionGate, forwardToHost, deliverMaxReply, deliverMedia.
  emits_walk ltac:(reflexivity).
Qed.

Lemma dispatchUpdate_no_poll update opts :
  emitsOnly (fun e => pollOf e = None) (dispatchUpdate host RegExp_test update opts).
Proof.
  unfold dispatchUpdate, processCallback, processBotStarted, refetchEdited,
    markSeenAndTyping.
  emits_walk_using processIncomingMessage_no_poll ltac:(reflexivity).
Qed.

Lemma dispatchAll_no_poll us opts :
  emitsOnly (fun e => pollOf e = None) (dispatchAll host RegExp_test us opts).
Proof.
  induction us as [|u us IH]; cbn [dispatchAll]; [apply emits_ret|].
  apply emits_bind; [by apply emits_call | intros aborted].
  destruct aborted; [apply emits_ret|].
  apply emits_bind; [apply dispatchUpdate_no_poll | intros _; apply IH].
Qed.

Lemma polls_none {A} (m : M World A) s :
  emitsOnly (fun e => pollOf e = None) m -> polls (eventsOf m s) = [].
Proof.
  intros Hm. specialize (Hm s). unfold polls.
  induction Hm as [|e es He _ IH]; [done|]. cbn. by rewrite He.
Qed.

Lemma polls_app es es' : polls (es ++ es') = polls es ++ polls es'.
Proof. apply omap_app. Qed.

Lemma marker_le_refl a : marker_le a a.
Proof. destruct a; cbn; [lia | done]. Qed.

Lemma marker_le_trans a b c : marker_le a b -> marker_le b c -> marker_le a c.
Proof. destruct a, b, c; cbn; try done; lia. Qed.

(** One poll: what the request carried and what the loop holds next. *)
Lemma markerAfter_changes_by_adoption current answer :
  markerAfter current answer <> current ->
  exists resp m, answer = Some resp /\ marker resp = Some m
                 /\ markerAfter current answer = Some m.
Proof.
  unfold markerAfter, adoptMarker. destruct answer as [resp|]; [|done].
  destruct (marker resp) as [m|] eqn:Hm; [|done]. eauto.
Qed.

Lemma pollingLoop_chain fuel opts current s :
  let run := pollingLoop host RegExp_test fuel opts current in
  markerChain current (polls (eventsOf run s)) (fst (resultOf run s)).
Proof.
  cbv zeta. revert current s. induction fuel as [|fuel IH]; intros current s;
    cbn [pollingLoop]; [done|].
  rewrite events_bind, result_bind, polls_app, events_call. cbn [polls omap pollOf app].
  destruct (resultOf (call host AbortSignalAborted) s); [done|].
  rewrite events_bind, result_bind, polls_app, events_call. cbn [polls omap pollOf app].
  fold (polls). split; [done|].
  destruct (resultOf (call host (GetUpdates 30 current pollTypes)) _) as [resp|];
    cbn [markerAfter].
  - rewrite events_bind, result_bind, polls_app.
    rewrite polls_none by apply dispatchAll_no_poll. apply IH.
  - rewrite events_bind, result_bind, polls_app, events_call.
    cbn [polls omap pollOf app].
    destruct (resultOf (call host AbortSignalAborted) _); [done|].
    rewrite events_bind, result_bind, polls_app, events_call.
    cbn [polls omap pollOf app].
    rewrite events_bind, result_bind, polls_app, events_call.
    cbn [polls omap pollOf app]. apply IH.
Qed.

Lemma emits_call_host {R} (P : Event -> Prop) (c : Call R) :
  (forall w, P (Ev c (fst (host R c w)))) -> emitsOnly P (call host c).
Proof.
  intros HP s. rewrite events_call. repeat constructor.
  unfold resultOf, call. specialize (HP (world s)). by destruct (host R c (world s)).
Qed.

(** Against a well-behaved platform no poll lowers the marker. *)
Lemma pollingLoop_polls_rise fuel opts current :
  vendorMonotone host ->
  emitsOnly (fun e => forall p, pollOf e = Some p ->
                        marker_le (fst p) (markerAfter (fst p) (snd p)))
    (pollingLoop host RegExp_test fuel opts current).
Proof.
  intros Hvendor. revert current. induction fuel as [|fuel IH]; intros current;
    cbn [pollingLoop]; [apply emits_ret|].
  assert (Hquiet : forall A (m : M World A),
            emitsOnly (fun e => pollOf e = None) m ->
            emitsOnly (fun e => forall p, pollOf e = Some p ->
                         marker_le (fst p) (markerAfter (fst p) (snd p))) m).
  { intros A m. apply emits_weaken. by intros e ->. }
  apply emits_bind; [by apply emits_call | intros aborted].
  destruct aborted; [apply emits_ret|].
  apply emits_bind.
  { apply emits_call_host. intros w p [= <-]. cbn [fst snd].
    destruct (host _ (GetUpdates 30 current pollTypes) w) as [[resp|] w'] eqn:Hw;
      cbn [fst markerAfter]; [|apply marker_le_refl].
    unfold adoptMarker. destruct (marker resp) as [m|] eqn:Hm; [|apply marker_le_refl].
    eapply Hvendor; eauto. }
  intros [resp|].
  - apply emits_bind; [apply Hquiet, dispatchAll_no_poll | intros _; apply IH].
  - apply emits_bind; [by apply emits_call | intros aborted].
    destruct aborted; [apply emits_ret|].
    apply emits_bind; [by apply emits_call | intros _].
    apply emits_bind; [by apply emits_call | intros _]. apply IH.
Qed.

(** Chained polls that never lower the marker give a non-decreasing
    sequence of markers. *)
Lemma markerChain_sorted current ps final :
  markerChain current ps final ->
  Forall (fun p => marker_le (fst p) (markerAfter (fst p) (snd p))) ps ->
  Forall (marker_le current) (map fst ps ++ [final])
  /\ StronglySorted marker_le (map fst ps ++ [final]).
Proof.
  revert current. induction ps as [|[requested answer] ps IH]; intros current;
    cbn [markerChain map app fst snd].
  - intros -> _. split; repeat constructor. apply marker_le_refl.
  - intros [-> Hchain] [Hrise Hrest]%Forall_cons. cbn [fst snd] in Hrise.
    destruct (IH _ Hchain Hrest) as [Hall Hsorted]. split.
    + constructor; [apply marker_le_refl|].
      eapply Forall_impl; [exact Hall|]. intros x. by apply marker_le_trans.
    + constructor; [exact Hsorted|].
      eapply Forall_impl; [exact Hall|]. intros x. by apply marker_le_trans.
Qed.

Lemma polls_forall (P : option Z * option MaxUpdatesResponse -> Prop) es :
  Forall (fun e => forall p, pollOf e = Some p -> P p) es -> Forall P (polls es).
Proof.
  induction 1 as [|e es He _ IH]; [constructor|]. unfold polls in *.
  cbn [omap list_omap]. destruct (pollOf e) as [p|] eqn:Hp; [|exact IH].
  constructor; [by apply He | exact IH].
Qed.

(** C7: the marker of the polling loop starts unset; each request carries
    the marker held after the poll before it, and a poll changes the
    marker only by adopting the marker field of a successful response
    that has one; against a platform that never returns a marker below
    the one it was asked from, the markers of the successive polls never
    decrease. *)
Theorem polling_marker_never_decreases
    (fuel : nat) (opts : MaxMonitorOptions) (s : State World) :
  vendorMonotone host ->
  let run := startMaxPollingLoop host RegExp_test fuel opts in
  let ps := polls (eventsOf run s) in
  let final := fst (resultOf run s) in
  markerChain None ps final
  /\ (forall current answer,
        markerAfter current answer <> current ->
        exists resp m, answer = Some resp /\ marker resp = Some m
                       /\ markerAfter current answer = Some m)
  /\ StronglySorted marker_le (map fst ps ++ [final]).
Proof.
  intros Hvendor. cbv zeta.
  assert (Hps : polls (eventsOf (startMaxPollingLoop host RegExp_test fuel opts) s)
                = polls (eventsOf (pollingLoop host RegExp_test fuel opts None)
                           (stateAfter (call host (Log Info LogPollingStarted)) s))
                /\ fst (resultOf (startMaxPollingLoop host RegExp_test fuel opts) s)
                   = fst (resultOf (pollingLoop host RegExp_test fuel opts None)
                            (stateAfter (call host (Log Info LogPollingStarted)) s))).
  { unfold startMaxPollingLoop.
    rewrite events_bind, result_bind, polls_app, events_call. cbn [polls omap pollOf app].
    fold polls. rewrite events_bind, result_bind, polls_app.
    rewrite events_bind, result_bind, polls_app.
    destruct (snd (resultOf (pollingLoop _ _ _ _ _) _));
      rewrite ?events_call; cbn [polls omap pollOf app eventsOf ret snd];
      by rewrite app_nil_r. }
  destruct Hps as [-> ->].
  pose proof (pollingLoop_chain fuel opts None
                (stateAfter (call host (Log Info LogPollingStarted)) s)) as Hchain.
  cbv zeta in Hchain.
  split; [exact Hchain|]. split; [apply markerAfter_changes_by_adoption|].
  eapply markerChain_sorted; [exact Hchain|].
  apply polls_forall, pollingLoop_polls_rise, Hvendor.
Qed.

End Polling.

(** *** The theorems at concrete inputs, against the reference collaborator *)

Lemma processIncomingMessage_drops_empty_message_witness :
  let message := Reference.textMessage "dialog" 1 "mid.1" (Some (js "   ")) None in
  let opts := Reference.optionsWith Reference.emptyAccountConfig (Some (js "mybot")) in
  processIncomingMessage Reference.referenceHost Reference.referenceRegExp
    message None opts Reference.start
  = (tt, Reference.start, [Ev (Log Debug (LogProcessing (js "mid.1"))) tt]).
Proof.
  cbv zeta.
  refine (proj1 (processIncomingMessage_drops_empty_message
                   Reference.referenceHost Reference.referenceRegExp
                   (Reference.textMessage "dialog" 1 "mid.1" (Some (js "   ")) None)
                   None _ Reference.start _ _)); vm_compute; reflexivity.
Defined.

(** C2 as stated fails: with the bot's user name unknown, a reply to the
    bot's own message in a group that requires a mention is dropped. *)
Lemma reply_to_bot_dropped_without_username :
  let message :=
    Reference.textMessage "chat" 5 "mid.1" (Some (js "hello"))
      (Some Reference.replyToTheBot) in
  let opts := Reference.optionsWith Reference.openGroups None in
  isGroupChat message = true
  /\ groupPolicyOf opts = js "open"
  /\ groupCfgOf opts (chat_id (recipient message)) = None
  /\ replyToBot opts message = true
  /\ forwarded
       (Reference.trace
          (processIncomingMessage Reference.referenceHost Reference.referenceRegExp
             message None opts)) = false.
Proof. vm_compute. repeat split. Qed.

Lemma group_message_forwarded_iff_mentioned_witness :
  let message :=
    Reference.textMessage "chat" 5 "mid.1" (Some (js "hello"))
      (Some Reference.replyToTheBot) in
  let opts := Reference.optionsWith Reference.openGroups (Some (js "mybot")) in
  forwarded
    (Reference.trace
       (processIncomingMessage Reference.referenceHost Reference.referenceRegExp
          message None opts)) = true
  <-> mentionPattern_test Reference.referenceRegExp (js "mybot") (js "hello") = true
      \/ replyToBot opts message = true.
Proof.
  cbv zeta.
  refine (group_message_forwarded_iff_mentioned
            Reference.referenceHost Reference.referenceRegExp
            (Reference.textMessage "chat" 5 "mid.1" (Some (js "hello"))
               (Some Reference.replyToTheBot))
            None (Reference.optionsWith Reference.openGroups (Some (js "mybot")))
            Reference.start _ _ _ _ _).
  - reflexivity.
  - left. reflexivity.
  - vm_compute. discriminate.
  - vm_compute. discriminate.
  - vm_compute. discriminate.
Defined.



(** The cases of the mention pattern in the plugin's test suite. *)
Example mentionPattern_tests :
  let test := mentionPattern_test Reference.referenceRegExp (js "max_claw") in
  test (js "@max_claw hello!") = true
  /\ test (js "hey @max_claw what's up?") = true
  /\ test (js "hello @max_claw") = true
  /\ test (js "@MAX_CLAW hello") = true
  /\ test (js "@Max_Claw hello") = true
  /\ test (js "@max_claw_extra hello") = false
  /\ test (js "max_claw hello") = false
  /\ test (js "@other_bot hello") = false
  /\ test (js "@max_claw, hello") = true
  /\ test (js "@max_claw! help") = true.
Proof. vm_compute. repeat split. Qed.

(** Two messages in a row from the same unknown sender, against a store
    that remembers pending requests: two upserts, one reply. *)
Example second_pairing_request_is_silent :
  let opts := Reference.optionsWith Reference.emptyAccountConfig (Some (js "mybot")) in
  let first := Reference.textMessage "dialog" 1 "mid.1" (Some (js "hi")) None in
  let second := Reference.textMessage "dialog" 1 "mid.2" (Some (js "hello?")) None in
  let es :=
    Reference.trace
      (bind
         (processIncomingMessage Reference.referenceHost Reference.referenceRegExp
            first None opts)
         (fun _ =>
            processIncomingMessage Reference.referenceHost Reference.referenceRegExp
              second None opts)) in
  length (List.filter isUpsert es) = 2%nat
  /\ length (List.filter isSend es) = 1%nat
  /\ forwarded es = false.
Proof. vm_compute. repeat split. Qed.

(** The sticker message of C4 under an open DM policy reaches the host
    pipeline, with the doubled description as the body for the agent. *)
Example sticker_message_is_forwarded :
  let opts := Reference.optionsWith Reference.openDirect (Some (js "mybot")) in
  let es :=
    Reference.trace
      (processIncomingMessage Reference.referenceHost Reference.referenceRegExp
         (Reference.stickerMessage 1) None opts) in
  forwarded es = true
  /\ Exists (fun e => match e with
                      | Ev (DispatchReplyWithBufferedBlockDispatcher ctx) _ =>
                          BodyForAgent ctx = js "[Sticker: code=abc123] [Sticker: abc123]"
                      | _ => False
                      end) es.
Proof.
  split; [reflexivity|]. vm_compute.
  repeat first [ by apply Exists_cons_hd | apply Exists_cons_tl ].
Qed.

Lemma referenceHost_monotone : vendorMonotone Reference.referenceHost.
Proof.
  intros timeout requested types w resp w' m [= <- _] [= <-].
  destruct requested as [x|]; cbn; [lia | done].
Defined.

Lemma polling_marker_never_decreases_witness :
  let run :=
    startMaxPollingLoop Reference.referenceHost Reference.referenceRegExp 3
      (Reference.optionsWith Reference.emptyAccountConfig (Some (js "mybot"))) in
  map fst (polls (eventsOf run Reference.start)) = [None; Some 1; Some 2]
  /\ fst (resultOf run Reference.start) = Some 3
  /\ StronglySorted marker_le [None; Some 1; Some 2; Some 3].
Proof.
  cbv zeta. split; [reflexivity|]. split; [reflexivity|].
  exact (proj2 (proj2 (polling_marker_never_decreases
                         Reference.referenceHost Reference.referenceRegExp 3
                         (Reference.optionsWith Reference.emptyAccountConfig
                            (Some (js "mybot")))
                         Reference.start referenceHost_monotone))).
Defined.

End MonitorFacts.

(** ** The sticker cache, entry by entry *)

Module StickerHistoryFacts.

Import StickerCache CacheReading.

Lemma writesOf_snoc k h kc :
  writesOf k (h ++ [kc])
  = writesOf k h ++ (if jstr_eqb (String_of_chat (fst kc)) k then [kc] else []).
Proof. unfold writesOf. rewrite List.filter_app. cbn. by destruct (jstr_eqb _ _). Qed.

(** After any history the entry of a key holds the code of the latest
    call under that key. *)
Lemma entry_is_latest h k :
  lastStickerByChat (rememberAll h initial) !! k = snd <$> last (writesOf k h).
Proof.
  induction h as [|[k' code] h IH] using rev_ind; [done|].
  rewrite StickerCacheFacts.rememberAll_snoc, writesOf_snoc.
  unfold rememberStickerCode. cbn [lastStickerByChat fst].
  destruct (jstr_eqb (String_of_chat k') k) eqn:Hk.
  - apply WebhookFacts.jstr_eqb_eq in Hk as ->.
    rewrite lookup_insert_eq, last_snoc. done.
  - apply WebhookFacts.jstr_eqb_neq in Hk.
    rewrite lookup_insert_ne by done. by rewrite app_nil_r.
Qed.

(** X15: the per-chat entries of the cache are keyed by the printed form
    of the chat id, and the last write wins: after any history of
    [rememberStickerCode] calls the entry of a chat holds the code of the
    latest call whose chat id prints like it (the number 123 and the
    string "123" share an entry), untouched by the calls for other chats;
    and when that code is not empty, [getLastStickerCode] for the chat
    answers with it, whatever was remembered later for other chats. *)
Theorem sticker_entry_is_latest_write_for_chat (h : list (ChatKey * jstr)) (chat : ChatKey) :
  let c := rememberAll h initial in
  lastStickerByChat c !! String_of_chat chat
    = snd <$> last (writesOf (String_of_chat chat) h)
  /\ (forall k code,
        last (writesOf (String_of_chat chat) h) = Some (k, code) ->
        code <> [] ->
        getLastStickerCode (Some chat) c = Some code)
  /\ (forall other,
        String_of_chat other = String_of_chat chat ->
        getLastStickerCode (Some other) c = getLastStickerCode (Some chat) c).
Proof.
  cbv zeta. split; [apply entry_is_latest|]. split.
  - intros k code Hlast Hne. unfold getLastStickerCode.
    rewrite entry_is_latest, Hlast. cbn. by destruct code.
  - intros other Heq. unfold getLastStickerCode. by rewrite Heq.
Qed.

End StickerHistoryFacts.

(** ** The webhook sink: routing and state *)

Module WebhookRoutingFacts.

Import Webhook JsStringFacts WebhookFacts.

Section Routing.

Context {S Account Config : Type}.

Variable URL_pathname : jstr -> option jstr -> option jstr.
Variable requestBodyErrorToText : jstr -> jstr.

(** X16: the webhook handler runs a target's callback, and with it
    touches the state, only when it answers 200 or 500: a request it does
    not handle, a request whose URL does not parse, and every request
    answered 405, 413, 408, 400 or 401 leaves the state as it was. *)
Theorem handleMaxWebhookRequest_runs_callback_only_on_delivery
    (reg : Registry S Account Config) (req : Request) (s : S) :
  let answer := handleMaxWebhookRequest URL_pathname requestBodyErrorToText reg req s in
  statusOf (fst answer) <> Some 200 ->
  statusOf (fst answer) <> Some 500 ->
  snd answer = s.
Proof.
  cbv zeta. unfold handleMaxWebhookRequest.
  destruct (URL_pathname _ _) as [pathname|]; [|done].
  destruct (reg !! _) as [[|t ts]|]; [done| |done].
  destruct (negb _); [done|].
  destruct (req_body req) as [raw|code err]; [|done].
  destruct (invalidPayload raw); [done|].
  destruct (findMatchedTarget _ _ _) as [m|]; [|done].
  destruct (onUpdate m raw s) as [[e|] s']; cbn; done.
Qed.


(** X18: registration and routing meet: once a target is registered, a
    POST with a JSON object body whose path normalises to the target's
    normalised path is never left unhandled; and when the target is the
    only one on its path and has no secret, the update reaches its
    callback whatever header the request carries: 200 when the callback
    returns, 500 when it throws. *)
Theorem registered_target_receives_requests
    (t : MaxWebhookTarget S Account Config) (reg : Registry S Account Config)
    (req : Request) (pathname : jstr) (fields : list (jstr * Json)) (s : S) :
  let answer :=
    handleMaxWebhookRequest URL_pathname requestBodyErrorToText
      (registerMaxWebhookTarget t reg) req s in
  URL_pathname (default (js "/") (req_url req)) (Some (js "http://localhost"))
    = Some pathname ->
  normalizeWebhookPath pathname = normalizeWebhookPath (path t) ->
  isPost req ->
  req_body req = BodyOk (JObject fields) ->
  fst answer <> NotHandled
  /\ (default [] (reg !! normalizeWebhookPath (path t)) = [] ->
      hasSecret t = false ->
      answer =
        match onUpdate t (JObject fields) s with
        | (None, s') =>
            (Responded {| statusCode := 200;
                          headers := [(js "Content-Type", js "application/json")];
                          body := JSON_ok_true |}, s')
        | (Some e, s') =>
            (Responded {| statusCode := 500; headers := [];
                          body := js "Internal Server Error" |},
             match error t with
             | Some report => report (js "Webhook update processing failed: " ++ e) s'
             | None => s'
             end)
        end).
Proof.
  cbv zeta. intros Hurl Hpath Hpost Hbody.
  unfold handleMaxWebhookRequest, registerMaxWebhookTarget, Registry, isPost in *.
  rewrite Hurl, Hpath, (lookup_insert_eq (M := gmap jstr)).
  apply jstr_eqb_eq in Hpost. rewrite Hpost, Hbody. cbn [negb invalidPayload].
  split.
  - destruct (default [] _ ++ _) as [|t0 ts] eqn:Happ.
    { by destruct (default [] _). }
    destruct (findMatchedTarget _ _ _) as [m|]; [|done].
    by destruct (onUpdate m _ s) as [[e|] s'].
  - intros -> Hsec. cbn [app findMatchedTarget].
    unfold hasSecret in *. cbn [secret]. rewrite Hsec. cbn [andb negb].
    cbn [onUpdate error]. reflexivity.
Qed.

End Routing.

(** A POST with the wrong secret is answered 401 and touches nothing. *)
Lemma handleMaxWebhookRequest_runs_callback_only_on_delivery_witness :
  snd (handleMaxWebhookRequest Reference.pathOnly Reference.bodyErrorText
         (Reference.registryOf Reference.guardedTargets)
         (Reference.postWith (Some (js "wrong"))) [])
  = [].
Proof.
  refine (handleMaxWebhookRequest_runs_callback_only_on_delivery
            Reference.pathOnly Reference.bodyErrorText
            (Reference.registryOf Reference.guardedTargets)
            (Reference.postWith (Some (js "wrong"))) [] _ _);
    vm_compute; discriminate.
Defined.

(** A target registered under [/max/] is reached by a POST to [/max]. *)
Lemma registered_target_receives_requests_witness :
  let t :=
    {| account := tt; config := tt; path := js "/max/"; secret := None;
       onUpdate := Reference.receive; log := None; error := None |} in
  handleMaxWebhookRequest Reference.pathOnly Reference.bodyErrorText
    (registerMaxWebhookTarget t ∅) (Reference.postWith (Some (js "any"))) []
  = (Responded {| statusCode := 200;
                  headers := [(js "Content-Type", js "application/json")];
                  body := JSON_ok_true |}, [JObject []]).
Proof.
  cbv zeta.
  refine (proj2 (registered_target_receives_requests
                   Reference.pathOnly Reference.bodyErrorText
                   {| account := tt; config := tt; path := js "/max/"; secret := None;
                      onUpdate := Reference.receive; log := None; error := None |}
                   ∅ (Reference.postWith (Some (js "any"))) (js "/max") []
                   [] eq_refl eq_refl eq_refl eq_refl) eq_refl eq_refl).
Defined.

End WebhookRoutingFacts.

(** ** The webhook registry: registering and unregistering *)

Module WebhookRegistryFacts.

Import Webhook WebhookRegistry.

Section Store.

Context {S Account Config : Type}.

Variable URL_pathname : jstr -> option jstr -> option jstr.
Variable requestBodyErrorToText : jstr -> jstr.

Lemma targetsAt_register (t : MaxWebhookTarget S Account Config) (st : Store S Account Config) key :
  targetsAt (snd (register t st)) key =
    if decide (key = normalizeWebhookPath (path t))
    then targetsAt st key
         ++ [{| ref := nextRef st;
                target := {| account := account t; config := config t;
                             path := normalizeWebhookPath (path t);
                             secret := secret t; onUpdate := onUpdate t;
                             log := log t; error := error t |} |}]
    else targetsAt st key.
Proof.
  unfold targetsAt, register. cbn [snd webhookTargets].
  destruct (decide _) as [->|Hne].
  - by rewrite lookup_insert_eq.
  - by rewrite lookup_insert_ne.
Qed.

Lemma targetsAt_unregister (u : Unregister) (st : Store S Account Config) key :
  targetsAt (unregister u st) key =
    if decide (key = un_key u)
    then List.filter (fun entry => negb (ref entry =? un_ref u)%nat) (targetsAt st key)
    else targetsAt st key.
Proof.
  unfold targetsAt, unregister. cbv zeta.
  destruct (0 <? length _)%nat eqn:Hlen; cbn [webhookTargets];
    destruct (decide _) as [->|Hne].
  - by rewrite lookup_insert_eq.
  - by rewrite lookup_insert_ne.
  - rewrite lookup_delete_eq. apply Nat.ltb_ge in Hlen.
    by destruct (List.filter _ _) as [|e es]; [|cbn in Hlen; lia].
  - by rewrite lookup_delete_ne.
Qed.

Lemma filter_keeps_older (l : list (Entry S Account Config)) n :
  (forall entry, In entry l -> (ref entry < n)%nat) ->
  List.filter (fun entry => negb (ref entry =? n)%nat) l = l.
Proof.
  induction l as [|e l IH]; intros Hl; [done|]. cbn [List.filter].
  assert (He : (ref e =? n)%nat = false).
  { apply Nat.eqb_neq. specialize (Hl e (or_introl eq_refl)). lia. }
  rewrite He. cbn [negb]. f_equal. apply IH. intros entry Hin. apply Hl. by right.
Qed.

(** The handler reads the registry through the targets of the request's
    path, an absent path and an empty list being the same to it. *)
Lemma handleMaxWebhookRequest_ext (reg reg' : Registry S Account Config) req s :
  (forall key, default [] (reg !! key) = default [] (reg' !! key)) ->
  handleMaxWebhookRequest URL_pathname requestBodyErrorToText reg req s
  = handleMaxWebhookRequest URL_pathname requestBodyErrorToText reg' req s.
Proof.
  intros Hsame. unfold handleMaxWebhookRequest.
  destruct (URL_pathname _ _) as [pathname|]; [|done].
  specialize (Hsame (normalizeWebhookPath pathname)).
  destruct (reg !! _) as [[|t ts]|], (reg' !! _) as [[|t' ts']|]; cbn in Hsame;
    try done; by injection Hsame as -> ->.
Qed.

Lemma registryOf_lookup (st : Store S Account Config) key :
  default [] (registryOf st !! key) = map target (targetsAt st key).
Proof.
  unfold registryOf, targetsAt, Registry. rewrite (lookup_fmap (M := gmap jstr)).
  by destruct (webhookTargets st !! key).
Qed.

(** The registry the handler reads after a registration is the one
    [registerMaxWebhookTarget] builds. *)
Lemma registryOf_register (t : MaxWebhookTarget S Account Config) (st : Store S Account Config) :
  registryOf (snd (register t st)) = registerMaxWebhookTarget t (registryOf st).
Proof.
  unfold registryOf, register, registerMaxWebhookTarget, Registry. cbn [snd webhookTargets].
  rewrite (fmap_insert (M := gmap jstr)), (lookup_fmap (M := gmap jstr)), map_app. cbn [map target].
  by destruct (webhookTargets st !! _).
Qed.

(** X19: unregistering undoes the registration.  In a registry whose
    entries are older than the next registration, calling the closure
    that [registerMaxWebhookTarget] returned leaves on every path the
    targets that were there before, in their order (a path the
    registration created is deleted again), so the handler answers every
    request as it did before the registration. *)
Theorem unregister_undoes_register (t : MaxWebhookTarget S Account Config) (st : Store S Account Config) :
  fresh st ->
  let u := fst (register t st) in
  let st1 := snd (register t st) in
  (forall key, targetsAt (unregister u st1) key = targetsAt st key)
  /\ (webhookTargets st !! un_key u = None ->
      webhookTargets (unregister u st1) !! un_key u = None)
  /\ (forall req s,
        handleMaxWebhookRequest URL_pathname requestBodyErrorToText
          (registryOf (unregister u st1)) req s
        = handleMaxWebhookRequest URL_pathname requestBodyErrorToText
            (registryOf st) req s)
  /\ fresh st1 /\ fresh (unregister u st1).
Proof.
  intros Hfresh. cbv zeta.
  assert (Hat : forall key,
            targetsAt (unregister (fst (register t st)) (snd (register t st))) key
            = targetsAt st key).
  { intros key. rewrite targetsAt_unregister. cbn [fst register un_key un_ref].
    destruct (decide _) as [->|Hne].
    - rewrite targetsAt_register. rewrite decide_True by done.
      rewrite List.filter_app. cbn [List.filter ref]. rewrite Nat.eqb_refl. cbn [negb].
      rewrite app_nil_r. apply filter_keeps_older. apply Hfresh.
    - rewrite targetsAt_register. by rewrite decide_False. }
  assert (Hfresh1 : fresh (snd (register t st))).
  { intros key entry. rewrite targetsAt_register. cbn [snd register nextRef].
    destruct (decide _) as [->|Hne].
    - intros [Hin | [<- | []]]%in_app_or; [|cbn; lia].
      specialize (Hfresh _ _ Hin). lia.
    - intros Hin. specialize (Hfresh _ _ Hin). lia. }
  split; [exact Hat|]. split; [|split; [|split]].
  - intros Hnone. unfold unregister. cbv zeta.
    pose proof (Hat (normalizeWebhookPath (path t))) as Hk.
    rewrite targetsAt_unregister in Hk. cbn [fst register un_key] in Hk.
    rewrite decide_True in Hk by done. cbn [fst register un_key un_ref].
    unfold targetsAt in Hk at 1. cbn [fst register un_ref] in Hk.
    rewrite Hk. unfold targetsAt. cbn in Hnone. rewrite Hnone. cbn.
    apply lookup_delete_eq.
  - intros req s. apply handleMaxWebhookRequest_ext. intros key.
    by rewrite !registryOf_lookup, Hat.
  - exact Hfresh1.
  - intros key entry. rewrite Hat. intros Hin. specialize (Hfresh _ _ Hin).
    assert (Hn : nextRef (unregister (fst (register t st)) (snd (register t st)))
                 = Datatypes.S (nextRef st)).
    { unfold unregister. cbv zeta. by destruct (0 <? _)%nat. }
    rewrite Hn. lia.
Qed.

Lemma filter_twice (l : list (Entry S Account Config)) n :
  List.filter (fun entry => negb (ref entry =? n)%nat)
    (List.filter (fun entry => negb (ref entry =? n)%nat) l)
  = List.filter (fun entry => negb (ref entry =? n)%nat) l.
Proof.
  induction l as [|e l IH]; [done|]. cbn [List.filter].
  destruct (negb _) eqn:He; [|exact IH]. cbn [List.filter]. by rewrite He, IH.
Qed.

(** X20: a closure removes the target it was returned for and nothing
    else.  When two targets are registered one after the other, calling
    the closure of the first leaves on every path the targets that
    registering the second alone would have left, in the same order; and
    calling a closure a second time changes nothing. *)
Theorem unregister_removes_only_its_own_target
    (a b : MaxWebhookTarget S Account Config) (st : Store S Account Config) :
  fresh st ->
  let ua := fst (register a st) in
  let st2 := snd (register b (snd (register a st))) in
  (forall key,
      map target (targetsAt (unregister ua st2) key)
      = map target (targetsAt (snd (register b st)) key))
  /\ (forall key,
        targetsAt (unregister ua (unregister ua st2)) key
        = targetsAt (unregister ua st2) key).
Proof.
  intros Hfresh. cbv zeta. split.
  - intros key. rewrite targetsAt_unregister, !targetsAt_register.
    cbn [fst snd register un_key un_ref nextRef].
    destruct (decide (key = normalizeWebhookPath (path a))) as [Ha|Ha];
      destruct (decide (key = normalizeWebhookPath (path b))) as [Hb|Hb].
    + rewrite !List.filter_app. cbn [List.filter ref].
      rewrite Nat.eqb_refl.
      replace (Datatypes.S (nextRef st) =? nextRef st)%nat with false
        by (symmetry; apply Nat.eqb_neq; lia).
      cbn [negb app]. rewrite filter_keeps_older by apply Hfresh.
      rewrite !map_app. cbn [map target]. by rewrite app_nil_r.
    + rewrite !List.filter_app. cbn [List.filter ref].
      rewrite Nat.eqb_refl. cbn [negb]. rewrite app_nil_r.
      by rewrite filter_keeps_older by apply Hfresh.
    + by rewrite !map_app.
    + reflexivity.
  - intros key. rewrite !targetsAt_unregister.
    destruct (decide _); [apply filter_twice | reflexivity].
Qed.

End Store.

(** Registering on an empty registry and unregistering again: a request
    to the path is not handled, as before. *)
Lemma unregister_undoes_register_witness :
  let st := @WebhookRegistry.empty (list Json) unit unit in
  let u := fst (register (Reference.targetWith None) st) in
  let st1 := snd (register (Reference.targetWith None) st) in
  webhookTargets (unregister u st1) !! js "/max" = None
  /\ handleMaxWebhookRequest Reference.pathOnly Reference.bodyErrorText
       (registryOf (unregister u st1)) (Reference.postWith None) []
     = (NotHandled, []).
Proof.
  cbv zeta.
  assert (Hfresh : fresh (@WebhookRegistry.empty (list Json) unit unit)).
  { intros key entry Hin. unfold targetsAt in Hin. cbn in Hin.
    rewrite lookup_empty in Hin. destruct Hin. }
  destruct (unregister_undoes_register Reference.pathOnly Reference.bodyErrorText
              (Reference.targetWith None) WebhookRegistry.empty Hfresh)
    as (_ & Hgone & Hsame & _).
  split.
  - apply Hgone. apply lookup_empty.
  - rewrite Hsame. reflexivity.
Defined.

(** Two targets on one path: the first one unregistered, the second
    remains. *)
Lemma unregister_removes_only_its_own_target_witness :
  let st := @WebhookRegistry.empty (list Json) unit unit in
  let a := Reference.targetWith (Some (js "s3cret")) in
  let b := Reference.targetWith None in
  let ua := fst (register a st) in
  let st2 := snd (register b (snd (register a st))) in
  map target (targetsAt (unregister ua st2) (js "/max")) = [b].
Proof.
  cbv zeta.
  assert (Hfresh : fresh (@WebhookRegistry.empty (list Json) unit unit)).
  { intros key entry Hin. unfold targetsAt in Hin. cbn in Hin.
    rewrite lookup_empty in Hin. destruct Hin. }
  destruct (unregister_removes_only_its_own_target
              (Reference.targetWith (Some (js "s3cret"))) (Reference.targetWith None)
              WebhookRegistry.empty Hfresh) as [Hrest _].
  rewrite Hrest. reflexivity.
Defined.

End WebhookRegistryFacts.

(** ** Accounts: listing and resolving *)

Module AccountResolutionFacts.

Import StickerCache Accounts AccountResolution JsStringFacts.

Section Resolution.

Variable DEFAULT_ACCOUNT_ID : jstr.
Variable normalizeAccountId : jstr -> jstr.
Variable MAX_BOT_TOKEN : option jstr.

Lemma truthyStr_trim o :
  truthyStr (trim <$> o) = nonEmpty (trim (default [] o)).
Proof. by destruct o. Qed.

Lemma nonEmpty_false (s : jstr) : nonEmpty s = false <-> s = [].
Proof. by destruct s. Qed.

(** X21: the token of a resolved account has no white space around it
    and its source tells where it came from: [none] exactly when the token
    is empty; [config] when the account's own [botToken] is not blank,
    which then is the token, trimmed; [env] only for the default account,
    and only when its [botToken] is missing or blank, the token then being
    the environment's, trimmed.  A named account never takes the token of
    the environment, and no account is ever resolved from [tokenFile]. *)
Theorem resolved_token_and_source (section : option MaxSection) (rawId : option jstr) :
  let r := resolveMaxAccount DEFAULT_ACCOUNT_ID normalizeAccountId MAX_BOT_TOKEN
             section rawId in
  let t := token (resolved r) in
  trim t = t
  /\ (tokenSource r = NoToken <-> t = [])
  /\ tokenSource r <> FromFile
  /\ (tokenSource r = FromConfig ->
      t = trim (default [] (config_botToken r)))
  /\ (tokenSource r = FromEnv ->
      accountId (resolved r) = DEFAULT_ACCOUNT_ID
      /\ trim (default [] (config_botToken r)) = []
      /\ t = trim (default [] MAX_BOT_TOKEN)).
Proof.
  cbv zeta. unfold resolveMaxAccount. cbv zeta.
  destruct (jstr_eqb _ DEFAULT_ACCOUNT_ID) eqn:Hid.
  - apply WebhookFacts.jstr_eqb_eq in Hid.
    rewrite !truthyStr_trim.
    destruct (nonEmpty (trim (default [] (raw_botToken _)))) eqn:Hc;
      [|destruct (nonEmpty (trim (default [] MAX_BOT_TOKEN))) eqn:He];
      cbn [resolved token tokenSource config_botToken accountId].
    + split; [apply trim_idemp|]. split; [|done].
      split; [done|]. intros Hnil. by rewrite Hnil in Hc.
    + split; [apply trim_idemp|]. split; [|split; [done|split; [done|]]].
      * split; [done|]. intros Hnil. by rewrite Hnil in He.
      * intros _. by apply nonEmpty_false in Hc.
    + done.
  - rewrite !truthyStr_trim.
    destruct (nonEmpty (trim (default [] (raw_botToken _)))) eqn:Hc;
      cbn [resolved token tokenSource config_botToken accountId].
    + split; [apply trim_idemp|]. split; [|done].
      split; [done|]. intros Hnil. by rewrite Hnil in Hc.
    + done.
Qed.

Lemma pushAccountId_NoDup ids key :
  NoDup ids -> NoDup (pushAccountId DEFAULT_ACCOUNT_ID normalizeAccountId ids key).
Proof.
  intros Hnd. unfold pushAccountId. cbv zeta.
  destruct (negb _ && negb (includes ids _)) eqn:Hc; [|done].
  apply andb_true_iff in Hc as [_ Hnot]. apply negb_true_iff in Hnot.
  apply NoDup_app. split; [done|]. split; [|apply NoDup_singleton].
  intros x Hx ->%list_elem_of_singleton.
  unfold includes in Hnot. apply not_true_iff_false in Hnot. apply Hnot.
  apply existsb_exists. exists (normalizeAccountId key).
  split; [by apply list_elem_of_In | by apply WebhookFacts.jstr_eqb_eq].
Qed.

Lemma fold_pushAccountId_NoDup keys ids :
  NoDup ids ->
  NoDup (fold_left (pushAccountId DEFAULT_ACCOUNT_ID normalizeAccountId) keys ids).
Proof.
  revert ids. induction keys as [|k keys IH]; intros ids Hnd; [done|].
  cbn [fold_left]. by apply IH, pushAccountId_NoDup.
Qed.

Lemma pushAccountId_grows ids key x :
  In x ids -> In x (pushAccountId DEFAULT_ACCOUNT_ID normalizeAccountId ids key).
Proof.
  intros Hin. unfold pushAccountId. cbv zeta. destruct (_ && _); [|done].
  apply in_or_app. by left.
Qed.

Lemma fold_pushAccountId_grows keys ids x :
  In x ids ->
  In x (fold_left (pushAccountId DEFAULT_ACCOUNT_ID normalizeAccountId) keys ids).
Proof.
  revert ids. induction keys as [|k keys IH]; intros ids Hin; [done|].
  cbn [fold_left]. by apply IH, pushAccountId_grows.
Qed.

Lemma includes_In l x : includes l x = true <-> In x l.
Proof.
  unfold includes. rewrite existsb_exists. split.
  - by intros (y & Hin & ->%WebhookFacts.jstr_eqb_eq).
  - intros Hin. exists x. split; [done | by apply WebhookFacts.jstr_eqb_eq].
Qed.

(** Every key leaves its normal form in the list, unless that is the
    default id. *)
Lemma fold_pushAccountId_covers keys ids key :
  In key keys ->
  normalizeAccountId key <> DEFAULT_ACCOUNT_ID ->
  In (normalizeAccountId key)
    (fold_left (pushAccountId DEFAULT_ACCOUNT_ID normalizeAccountId) keys ids).
Proof.
  revert ids. induction keys as [|k keys IH]; intros ids Hin Hne; [done|].
  cbn [fold_left]. destruct Hin as [->|Hin]; [|by apply IH].
  apply fold_pushAccountId_grows. unfold pushAccountId. cbv zeta.
  apply WebhookFacts.jstr_eqb_neq in Hne. rewrite Hne. cbn [negb andb].
  destruct (includes ids _) eqn:Hinc; cbn [negb].
  - by apply includes_In.
  - apply in_or_app. right. by left.
Qed.

(** What is in the list came from the start or from a key. *)
Lemma fold_pushAccountId_origin keys ids x :
  In x (fold_left (pushAccountId DEFAULT_ACCOUNT_ID normalizeAccountId) keys ids) ->
  In x ids
  \/ (x <> DEFAULT_ACCOUNT_ID /\ exists key, In key keys /\ x = normalizeAccountId key).
Proof.
  revert ids. induction keys as [|k keys IH]; intros ids; [by left|].
  cbn [fold_left]. intros Hin. destruct (IH _ Hin) as [Hids | (Hne & key & Hk & ->)].
  - unfold pushAccountId in Hids. cbv zeta in Hids.
    destruct (negb _ && _) eqn:Hc; [|by left].
    apply in_app_or in Hids as [Hids | [<- | []]]; [by left|].
    right. apply andb_true_iff in Hc as [Hd _]. apply negb_true_iff in Hd.
    apply WebhookFacts.jstr_eqb_neq in Hd. split; [done|]. exists k. split; [by left | done].
  - right. split; [done|]. exists key. split; [by right | done].
Qed.

Lemma listMaxAccountIds_covers (sec : MaxSection) entries key :
  section_accounts sec = Some entries ->
  In key (map fst entries) ->
  normalizeAccountId key <> DEFAULT_ACCOUNT_ID ->
  In (normalizeAccountId key)
    (listMaxAccountIds DEFAULT_ACCOUNT_ID normalizeAccountId MAX_BOT_TOKEN (Some sec)).
Proof.
  intros Hacc Hkey Hne. unfold listMaxAccountIds. cbv zeta. rewrite Hacc.
  match goal with
  | |- In _ (if _ then ?ids ++ _ else _) =>
      assert (Hin : In (normalizeAccountId key) ids)
        by (by apply fold_pushAccountId_covers)
  end.
  destruct (_ && _); [apply in_or_app; by left | done].
Qed.

(** X22: [listMaxAccountIds] names every account once: the list has no
    duplicates, even when several keys of [accounts] have the same normal
    form; each id in it is the default id or the normal form of a key;
    and the normal form of every key is in it, unless it is the default
    id (such a key adds nothing).  The list is empty only without a
    section, or when the section is disabled ([enabled: false]). *)
Theorem listMaxAccountIds_lists_each_account_once (section : option MaxSection) :
  let ids := listMaxAccountIds DEFAULT_ACCOUNT_ID normalizeAccountId MAX_BOT_TOKEN section in
  let keys := map fst (default [] (section ≫= section_accounts)) in
  NoDup ids
  /\ (forall id, In id ids ->
        id = DEFAULT_ACCOUNT_ID \/ exists key, In key keys /\ id = normalizeAccountId key)
  /\ (section <> None ->
      forall key, In key keys -> normalizeAccountId key <> DEFAULT_ACCOUNT_ID ->
      In (normalizeAccountId key) ids)
  /\ (ids = [] ->
      section = None
      \/ exists sec, section = Some sec /\ raw_enabled (section_top sec) = Some false).
Proof.
  cbv zeta. unfold listMaxAccountIds. destruct section as [sec|]; cbn [mbind option_bind].
  2:{ split; [constructor|]. split; [done|]. split; [done|]. by left. }
  cbv zeta.
  set (start := if _ || _ || _ then [DEFAULT_ACCOUNT_ID] else []).
  assert (Hstart : NoDup start /\ forall x, In x start -> x = DEFAULT_ACCOUNT_ID).
  { subst start. destruct (_ || _ || _).
    - split; [apply NoDup_singleton|]. by intros x [<-|[]].
    - split; [constructor | done]. }
  destruct Hstart as [Hnd Hdef].
  set (named := match section_accounts sec with
                | Some entries =>
                    fold_left (pushAccountId DEFAULT_ACCOUNT_ID normalizeAccountId)
                      (map fst entries) start
                | None => start
                end).
  assert (Hnamed : named
            = fold_left (pushAccountId DEFAULT_ACCOUNT_ID normalizeAccountId)
                (map fst (default [] (section_accounts sec))) start).
  { subst named. by destruct (section_accounts sec). }
  rewrite Hnamed. clear named Hnamed.
  set (keys := map fst (default [] (section_accounts sec))).
  set (ids := fold_left _ keys start).
  assert (Hids : NoDup ids) by (by apply fold_pushAccountId_NoDup).
  assert (Horigin : forall id, In id ids ->
            id = DEFAULT_ACCOUNT_ID \/ exists key, In key keys /\ id = normalizeAccountId key).
  { intros id Hin. destruct (fold_pushAccountId_origin _ _ _ Hin) as [H | (_ & H)];
      [left; by apply Hdef | by right]. }
  assert (Hcovers : forall key, In key keys ->
            normalizeAccountId key <> DEFAULT_ACCOUNT_ID ->
            In (normalizeAccountId key) ids)
    by (intros; by apply fold_pushAccountId_covers).
  destruct (length ids =? 0)%nat eqn:Hlen.
  - apply Nat.eqb_eq in Hlen.
    assert (Hi : ids = []) by (by destruct ids). rewrite Hi in *.
    destruct (notFalse _) eqn:Hen; cbn [andb app].
    + split; [apply NoDup_singleton|]. split; [intros id [<-|[]]; by left|].
      split; [|done]. intros _ key Hkey Hne. by destruct (Hcovers key Hkey Hne).
    + split; [constructor|]. split; [done|]. split.
      * intros _ key Hkey Hne. by destruct (Hcovers key Hkey Hne).
      * intros _. right. exists sec. split; [done|].
        unfold notFalse in Hen. by destruct (raw_enabled _) as [[|]|].
  - cbn [andb]. split; [exact Hids|]. split; [exact Horigin|]. split.
    + intros _. exact Hcovers.
    + intros Hnil. rewrite Hnil in Hlen. done.
Qed.

Lemma resolve_accountId section rawId :
  accountId (resolved (resolveMaxAccount DEFAULT_ACCOUNT_ID normalizeAccountId
                         MAX_BOT_TOKEN section rawId))
  = match rawId with
    | Some ((_ :: _) as id) => normalizeAccountId id
    | _ => DEFAULT_ACCOUNT_ID
    end.
Proof.
  unfold resolveMaxAccount. cbv zeta.
  destruct (jstr_eqb _ _); [destruct (truthyStr _); [|destruct (truthyStr _)]
                           | destruct (truthyStr _)]; reflexivity.
Qed.

(** The default account, resolved: its token is the section's own
    [botToken], else the environment's. *)
Lemma resolve_default_token section rawId :
  let r := resolveMaxAccount DEFAULT_ACCOUNT_ID normalizeAccountId MAX_BOT_TOKEN
             section rawId in
  accountId (resolved r) = DEFAULT_ACCOUNT_ID ->
  trim (default [] (raw_botToken (default emptyRaw (section_top <$> section)))) = [] ->
  trim (default [] MAX_BOT_TOKEN) = [] ->
  token (resolved r) = [] /\ tokenSource r = NoToken.
Proof.
  cbv zeta. unfold resolveMaxAccount. cbv zeta.
  destruct (jstr_eqb _ DEFAULT_ACCOUNT_ID) eqn:Hid.
  - intros _ Hc He. rewrite !truthyStr_trim, Hc, He. done.
  - apply WebhookFacts.jstr_eqb_neq in Hid.
    destruct (truthyStr _); cbn [resolved accountId]; intros Heq; done.
Qed.

(** X23: [tokenFile] counts as a token source when accounts are listed
    but is never read when one is resolved.  With a [tokenFile] and
    neither a [botToken] nor a token in the environment (missing or
    blank), the default account is listed, it resolves with an empty
    token from the source [none], and no default account is among the
    enabled accounts that the message actions are offered for. *)
Theorem token_file_alone_gives_no_usable_account (sec : MaxSection) :
  truthyStr (raw_tokenFile (section_top sec)) = true ->
  trim (default [] (raw_botToken (section_top sec))) = [] ->
  trim (default [] MAX_BOT_TOKEN) = [] ->
  let resolve := resolveMaxAccount DEFAULT_ACCOUNT_ID normalizeAccountId MAX_BOT_TOKEN in
  In DEFAULT_ACCOUNT_ID
    (listMaxAccountIds DEFAULT_ACCOUNT_ID normalizeAccountId MAX_BOT_TOKEN (Some sec))
  /\ token (resolved (resolve (Some sec) None)) = []
  /\ tokenSource (resolve (Some sec) None) = NoToken
  /\ config_tokenFile (resolve (Some sec) None) = raw_tokenFile (section_top sec)
  /\ Forall (fun a => accountId (resolved a) <> DEFAULT_ACCOUNT_ID)
       (listEnabledAccounts DEFAULT_ACCOUNT_ID normalizeAccountId MAX_BOT_TOKEN (Some sec)).
Proof.
  intros Hfile Hc He. cbv zeta. split; [|split; [|split; [|split]]].
  - unfold listMaxAccountIds. cbv zeta. rewrite Hfile, orb_true_r. cbn [orb].
    set (ids := match section_accounts sec with
                | Some entries => fold_left _ (map fst entries) [DEFAULT_ACCOUNT_ID]
                | None => [DEFAULT_ACCOUNT_ID]
                end).
    assert (Hin : In DEFAULT_ACCOUNT_ID ids).
    { subst ids. destruct (section_accounts sec);
        [apply fold_pushAccountId_grows|]; by left. }
    destruct (_ && _); [apply in_or_app|]; auto.
  - apply resolve_default_token; try done. apply resolve_accountId.
  - apply resolve_default_token; try done. apply resolve_accountId.
  - unfold resolveMaxAccount. cbv zeta.
    rewrite (proj2 (WebhookFacts.jstr_eqb_eq _ _) eq_refl).
    destruct (truthyStr (trim <$> raw_botToken _));
      [|destruct (truthyStr (trim <$> MAX_BOT_TOKEN))]; reflexivity.
  - unfold listEnabledAccounts. apply Forall_forall. intros a Ha.
    apply list_elem_of_In, filter_In in Ha as [Hmap Hok].
    apply in_map_iff in Hmap as (id & <- & _). intros Hid.
    destruct (resolve_default_token (Some sec) (Some id) Hid Hc He) as [Ht _].
    cbv zeta in Ht. rewrite Ht in Hok. by rewrite andb_false_r in Hok.
Qed.

(** X24: accounts are listed by the normal form of their key but read
    by the id as given.  For an entry of [accounts] whose key is not in
    normal form (and whose normal form is neither the default id, nor
    empty, nor a key itself), the normal form is listed, and resolving it
    reads no entry: the account comes out enabled, with an empty token
    from the source [none] and without settings. *)
Theorem account_under_unnormalised_key_resolves_empty
    (sec : MaxSection) (entries : list (jstr * RawAccount)) (key : jstr) (raw : RawAccount) :
  let id := normalizeAccountId key in
  let r := resolveMaxAccount DEFAULT_ACCOUNT_ID normalizeAccountId MAX_BOT_TOKEN
             (Some sec) (Some id) in
  section_accounts sec = Some entries ->
  In (key, raw) entries ->
  id <> DEFAULT_ACCOUNT_ID ->
  id <> [] ->
  normalizeAccountId id = id ->
  accountEntry (Some entries) id = None ->
  In id (listMaxAccountIds DEFAULT_ACCOUNT_ID normalizeAccountId MAX_BOT_TOKEN (Some sec))
  /\ accountId (resolved r) = id
  /\ token (resolved r) = []
  /\ tokenSource r = NoToken
  /\ enabled (resolved r) = true
  /\ config (resolved r) = emptySettings.
Proof.
  cbv zeta. intros Hacc Hin Hne Hnil Hnorm Hentry. split.
  - eapply listMaxAccountIds_covers; [exact Hacc| |done].
    apply in_map_iff. by exists (key, raw).
  - unfold resolveMaxAccount. cbv zeta.
    destruct (normalizeAccountId key) as [|c id'] eqn:Hid; [done|].
    rewrite Hnorm. apply WebhookFacts.jstr_eqb_neq in Hne. rewrite Hne.
    cbn [mbind option_bind]. rewrite Hacc, Hentry. cbn. done.
Qed.

End Resolution.

Lemma token_file_alone_gives_no_usable_account_witness :
  let resolve := resolveMaxAccount (js "default") Scenarios.lowerCaseId None in
  In (js "default")
    (listMaxAccountIds (js "default") Scenarios.lowerCaseId None
       (Some Scenarios.tokenFileOnly))
  /\ token (resolved (resolve (Some Scenarios.tokenFileOnly) None)) = []
  /\ tokenSource (resolve (Some Scenarios.tokenFileOnly) None) = NoToken
  /\ config_tokenFile (resolve (Some Scenarios.tokenFileOnly) None)
     = Some (js "/run/secrets/max")
  /\ Forall (fun a => accountId (resolved a) <> js "default")
       (listEnabledAccounts (js "default") Scenarios.lowerCaseId None
          (Some Scenarios.tokenFileOnly)).
Proof.
  cbv zeta.
  exact (token_file_alone_gives_no_usable_account (js "default") Scenarios.lowerCaseId
           None Scenarios.tokenFileOnly eq_refl eq_refl eq_refl).
Defined.

(** The account configured under [PROD] is listed as [prod] and resolved
    without its token. *)
Lemma account_under_unnormalised_key_resolves_empty_witness :
  let r := resolveMaxAccount (js "default") Scenarios.lowerCaseId None
             (Some Scenarios.capitalKey) (Some (js "prod")) in
  In (js "prod")
    (listMaxAccountIds (js "default") Scenarios.lowerCaseId None
       (Some Scenarios.capitalKey))
  /\ accountId (resolved r) = js "prod"
  /\ token (resolved r) = []
  /\ tokenSource r = NoToken
  /\ enabled (resolved r) = true
  /\ config (resolved r) = emptySettings.
Proof.
  cbv zeta.
  refine (account_under_unnormalised_key_resolves_empty
            (js "default") Scenarios.lowerCaseId None Scenarios.capitalKey
            _ (js "PROD") _ eq_refl (or_introl eq_refl) _ _ eq_refl eq_refl);
    vm_compute; discriminate.
Defined.

End AccountResolutionFacts.

(** ** The channel plugin: group settings and targets *)

Module ChannelFacts.

Import StickerCache Accounts AccountResolution Channel Monitor JsStringFacts.

Lemma digit_not_space c : isDigit c = true -> isWhiteSpace c = false.
Proof.
  unfold isDigit, isWhiteSpace.
  intros [Hlo Hhi]%andb_true_iff. apply N.leb_le in Hlo, Hhi.
  repeat (apply orb_false_iff; split);
    first [ apply N.eqb_neq; lia
          | apply andb_false_iff;
            destruct (N.leb_spec 9 c), (N.leb_spec c 13), (N.leb_spec 8192 c);
            (left; reflexivity) || (right; reflexivity) || lia
          | idtac ].
Qed.

Lemma trimEnd_no_space s :
  forallb (fun c => negb (isWhiteSpace c)) s = true -> trimEnd s = s.
Proof.
  induction s as [|c s IH]; [done|]. cbn [forallb].
  intros [Hc Hs]%andb_true_iff. apply negb_true_iff in Hc.
  rewrite trimEnd_cons by done. by rewrite IH.
Qed.

Lemma trim_no_space s :
  forallb (fun c => negb (isWhiteSpace c)) s = true -> trim s = s.
Proof.
  destruct s as [|c s]; [done|]. intros Hall. pose proof Hall as Hall'.
  cbn [forallb] in Hall. apply andb_true_iff in Hall as [Hc Hs].
  apply negb_true_iff in Hc. rewrite trim_cons by done. f_equal.
  by apply trimEnd_no_space.
Qed.

Lemma digits_no_space s :
  forallb isDigit s = true -> forallb (fun c => negb (isWhiteSpace c)) s = true.
Proof.
  induction s as [|c s IH]; [done|]. cbn [forallb].
  intros [Hc Hs]%andb_true_iff. by rewrite (digit_not_space c Hc), IH.
Qed.

Lemma uint_digits_nonEmpty p : nonEmpty (uint_digits (Pos.to_uint p)) = true.
Proof.
  pose proof (DecimalPos.Unsigned.to_uint_nonnil p) as Hnn.
  by destruct (Pos.to_uint p).
Qed.

Lemma String_of_Z_no_space n :
  forallb (fun c => negb (isWhiteSpace c)) (String_of_Z n) = true.
Proof.
  destruct n as [|p|p]; [done| |]; cbn [String_of_Z].
  - apply digits_no_space, MonitorFacts.uint_digits_all.
  - change (js "-" ++ ?d) with (45%N :: d). cbn [forallb].
    rewrite digits_no_space by apply MonitorFacts.uint_digits_all. done.
Qed.

Lemma trim_String_of_Z n : trim (String_of_Z n) = String_of_Z n.
Proof. apply trim_no_space, String_of_Z_no_space. Qed.

Lemma trim_String_of_optZ n : trim (String_of_optZ n) = String_of_optZ n.
Proof. destruct n as [n|]; [apply trim_String_of_Z | reflexivity]. Qed.

Lemma String_of_optZ_nonEmpty n : nonEmpty (String_of_optZ n) = true.
Proof.
  destruct n as [[|p|p]|]; try done. cbn [String_of_optZ String_of_Z].
  apply uint_digits_nonEmpty.
Qed.

Lemma isNumericId_String_of_Z n : isNumericId (String_of_Z n) = true.
Proof.
  unfold isNumericId. destruct n as [|p|p]; [done| |]; cbn [String_of_Z].
  - pose proof (MonitorFacts.uint_digits_all (Pos.to_uint p)) as Hall.
    pose proof (uint_digits_nonEmpty p) as Hne.
    destruct (uint_digits (Pos.to_uint p)) as [|c ds] eqn:Hd; [done|].
    destruct (c =? 45)%N eqn:Hc; cbv zeta.
    + apply N.eqb_eq in Hc as ->. done.
    + by rewrite Hall.
  - change (js "-" ++ ?d) with (45%N :: d). cbv iota zeta.
    change (45 =? 45)%N with true. cbv iota.
    by rewrite uint_digits_nonEmpty, MonitorFacts.uint_digits_all.
Qed.

(** X26: [normalizeTarget] accepts the decimal integers and nothing
    else: what it answers with is the input without the white space
    around it, an optional minus sign followed by one or more digits;
    every chat or user id, printed, is its own normal form; a normal form
    is normalised to itself; and [looksLikeId] says yes exactly when
    [normalizeTarget] gives an answer. *)
Theorem normalizeTarget_accepts_decimal_ids (raw : jstr) :
  (forall n : Z, normalizeTarget (String_of_Z n) = Some (String_of_Z n))
  /\ (forall t, normalizeTarget raw = Some t ->
        t = trim raw
        /\ normalizeTarget t = Some t
        /\ exists sign digits,
             t = sign ++ digits /\ (sign = [] \/ sign = js "-")
             /\ digits <> [] /\ forallb isDigit digits = true)
  /\ (looksLikeId raw = true <-> normalizeTarget raw <> None).
Proof.
  split; [|split].
  - intros n. unfold normalizeTarget. cbv zeta.
    by rewrite trim_String_of_Z, isNumericId_String_of_Z.
  - intros t. unfold normalizeTarget. cbv zeta.
    destruct (isNumericId (trim raw)) eqn:Hnum; [|done]. intros [= <-].
    split; [done|]. split; [by rewrite trim_idemp, Hnum|].
    unfold isNumericId in Hnum. cbv zeta in Hnum.
    apply andb_true_iff in Hnum as [Hne Hall].
    destruct (trim raw) as [|c r] eqn:Ht; [done|].
    destruct (c =? 45)%N eqn:Hc.
    + apply N.eqb_eq in Hc as ->.
      exists (js "-"), r. split; [done|]. split; [by right|].
      split; [by destruct r | done].
    + exists [], (c :: r). split; [done|]. split; [by left|]. done.
  - unfold looksLikeId, normalizeTarget. cbv zeta.
    destruct (isNumericId (trim raw)); split; done.
Qed.

Section GroupSettings.

Variable DEFAULT_ACCOUNT_ID : jstr.
Variable normalizeAccountId : jstr -> jstr.
Variable MAX_BOT_TOKEN : option jstr.

(** The two ways of reading the pair of entries. *)
Lemma requireMention_two_readings (own wildcard : option MaxGroupConfig) :
  let ofChannel :=
    match match own ≫= requireMention with
          | Some b => Some b
          | None => wildcard ≫= requireMention
          end with
    | Some b => b
    | None => true
    end in
  let ofMonitor :=
    match match own with Some c => Some c | None => wildcard end with
    | Some c => default true (requireMention c)
    | None => true
    end in
  (ofChannel <> ofMonitor <->
     (exists c, own = Some c /\ requireMention c = None)
     /\ wildcard ≫= requireMention = Some false)
  /\ (ofChannel <> ofMonitor -> ofMonitor = true /\ ofChannel = false).
Proof.
  cbv zeta. destruct own as [c|]; cbn [mbind option_bind].
  - destruct (requireMention c) as [b|] eqn:Hc; cbn [default from_option id].
    + split; [|done]. split; [done|]. intros [(c' & [= <-] & Hc') _]. congruence.
    + destruct (wildcard ≫= requireMention) as [[|]|] eqn:Hw.
      * split; [|done]. split; [done|]. by intros [_ ?].
      * split; [|done]. split; [|done]. intros _. split; [by exists c | done].
      * split; [|done]. split; [done|]. by intros [_ ?].
  - destruct wildcard as [w|]; cbn [mbind option_bind].
    + destruct (requireMention w) as [b|]; cbn; (split; [|done]);
        (split; [done|]); by intros [(c & ? & _) _].
    + split; [|done]. split; [done|]. by intros [(c & ? & _) _].
Qed.

(** X25: the plugin answers the question whether a group requires a
    mention in two places, and the two differ in one case.  For the
    default account and a chat id, [resolveMaxGroupRequireMention] (what
    the channel plugin tells the host) and the monitor's gate read the
    same [groups]; they disagree exactly when the chat has an entry of its
    own that does not set [requireMention] while the wildcard entry sets
    it to [false]: the monitor then takes the chat's entry as a whole and
    requires a mention, the channel plugin falls through to the wildcard
    and does not. *)
Theorem requireMention_of_monitor_and_channel
    (sec : MaxSection) (chatId : option Z) (config : OpenClawConfig)
    (botUserId : option Z) (botUsername : option jstr) :
  let opts :=
    {| opt_account :=
         resolved (resolveMaxAccount DEFAULT_ACCOUNT_ID normalizeAccountId MAX_BOT_TOKEN
                     (Some sec) None);
       opt_config := config; Monitor.botUserId := botUserId;
       Monitor.botUsername := botUsername |} in
  let ofChannel :=
    resolveMaxGroupRequireMention DEFAULT_ACCOUNT_ID (Some sec)
      (Some (String_of_optZ chatId)) None in
  let ofMonitor := requireMentionOf opts chatId in
  let groups := default ∅ (groups (raw_settings (section_top sec))) in
  let own := mjoin (groups !! String_of_optZ chatId) in
  let wildcard := mjoin (groups !! js "*") in
  (ofChannel <> ofMonitor <->
     (exists c, own = Some c /\ requireMention c = None)
     /\ wildcard ≫= requireMention = Some false)
  /\ (ofChannel <> ofMonitor -> ofMonitor = true /\ ofChannel = false).
Proof.
  cbv zeta.
  set (G := default ∅ (groups (raw_settings (section_top sec)))).
  assert (Hcfg : Accounts.config
            (resolved (resolveMaxAccount DEFAULT_ACCOUNT_ID normalizeAccountId
                         MAX_BOT_TOKEN (Some sec) None))
          = raw_settings (section_top sec)).
  { unfold resolveMaxAccount. cbv zeta.
    rewrite (proj2 (WebhookFacts.jstr_eqb_eq _ _) eq_refl).
    destruct (truthyStr (trim <$> raw_botToken _));
      [|destruct (truthyStr (trim <$> MAX_BOT_TOKEN))]; reflexivity. }
  assert (Hmon : requireMentionOf
            {| opt_account :=
                 resolved (resolveMaxAccount DEFAULT_ACCOUNT_ID normalizeAccountId
                             MAX_BOT_TOKEN (Some sec) None);
               opt_config := config; Monitor.botUserId := botUserId;
               Monitor.botUsername := botUsername |} chatId
          = match match mjoin (G !! String_of_optZ chatId) with
                  | Some c => Some c
                  | None => mjoin (G !! js "*")
                  end with
            | Some c => default true (requireMention c)
            | None => true
            end).
  { unfold requireMentionOf, groupCfgOf. cbn [opt_account]. rewrite Hcfg. subst G.
    destruct (groups (raw_settings (section_top sec))) as [g|]; [done|].
    cbn [default from_option]. by rewrite !lookup_empty. }
  assert (Hch : resolveMaxGroupRequireMention DEFAULT_ACCOUNT_ID (Some sec)
                  (Some (String_of_optZ chatId)) None
          = match match mjoin (G !! String_of_optZ chatId) ≫= requireMention with
                  | Some b => Some b
                  | None => mjoin (G !! js "*") ≫= requireMention
                  end with
            | Some b => b
            | None => true
            end).
  { unfold resolveMaxGroupRequireMention, resolveMaxGroupConfig. cbv zeta.
    cbn [fmap option_fmap option_map]. rewrite trim_String_of_optZ.
    pose proof (String_of_optZ_nonEmpty chatId) as Hne. subst G.
    destruct (String_of_optZ chatId) as [|c0 id] eqn:Hid; [done|].
    destruct (groups (raw_settings (section_top sec))) as [g|]; [done|].
    cbn [default from_option mbind option_bind]. by rewrite !lookup_empty. }
  rewrite Hmon, Hch. apply requireMention_two_readings.
Qed.

End GroupSettings.

End ChannelFacts.

(** ** The monitor: policies, dispatch, delivery, polling *)

Module MonitorPolicyFacts.

Import StickerCache Api Accounts Monitor Reading MonitorFacts.

Section DirectMessages.

Context {World : Type}.
Variable host : forall R, Call R -> World -> R * World.
Variable RegExp_test : jstr -> jstr -> jstr -> bool.

(** The attachment loop reads no allow list either. *)
Lemma attachmentPhase_quiet opts message :
  emitsOnly (fun e => isDispatch e = false /\ isResolveAgentRoute e = false
                      /\ isUpsert e = false /\ isSend e = false
                      /\ isReadAllowFrom e = false)
    (attachmentPhase host opts message).
Proof.
  unfold attachmentPhase, reduceAttachments, reduceAttachment.
  emits_walk ltac:(by repeat split).
Qed.


Lemma notEmpty_not_skipped message r :
  notEmpty message r ->
  negb (nonEmpty (effectiveText (default [] (text (body message))) r))
  && negb (hasMedia r) = false.
Proof. intros [-> | ->]; [done | by rewrite andb_false_r]. Qed.

(** What the DM block answers. *)
Lemma dmGate_result opts message s :
  resultOf (dmGate host opts message) s =
    if jstr_eqb (dmPolicyOf opts) (js "disabled") then false
    else if jstr_eqb (dmPolicyOf opts) (js "open") then true
    else senderAllowed
           (effectiveAllowFrom opts
              (resultOf (call host (ReadAllowFromStore (js "max"))) s)) message.
Proof.
  unfold dmGate, dmPolicyOf, effectiveAllowFrom. cbv zeta.
  destruct (jstr_eqb _ (js "disabled")); [by rewrite result_bind|].
  destruct (jstr_eqb _ (js "open")); cbn [negb]; [reflexivity|].
  rewrite result_bind. destruct (senderAllowed _ _); cbn [negb]; [reflexivity|].
  by rewrite result_bind.
Qed.

Lemma policyGates_direct_result opts message wasMentioned s :
  isGroupChat message = false ->
  resultOf (policyGates host opts message wasMentioned) s
  = resultOf (dmGate host opts message) s.
Proof.
  intros Hdm. unfold policyGates. rewrite Hdm. cbn [negb].
  rewrite result_bind. by destruct (resultOf (dmGate host opts message) s).
Qed.

(** A direct message that is not empty is forwarded exactly when the DM
    block lets it pass. *)
Lemma direct_message_forwarded message userLocale opts s :
  let loop := attachmentPhase host opts message in
  isGroupChat message = false ->
  notEmpty message (resultOf loop s) ->
  forwarded (eventsOf (processIncomingMessage host RegExp_test message userLocale opts) s)
  = resultOf (dmGate host opts message) (stateAfter loop s).
Proof.
  cbv zeta. intros Hdm Hne.
  rewrite processIncomingMessage_forwarded. cbv zeta.
  rewrite afterAttachments_forwarded by done. cbv zeta.
  rewrite detectMention_direct by done.
  by rewrite policyGates_direct_result.
Qed.

(** When the gates answer [false] nothing follows them. *)
Lemma afterAttachments_blocked (P : Event -> Prop) opts message r :
  emitsOnly P
    (detectMention host RegExp_test opts message (default [] (text (body message)))) ->
  (forall w, returnsOnly (fun b => b = false) (policyGates host opts message w)) ->
  (forall w, emitsOnly P (policyGates host opts message w)) ->
  emitsOnly P (afterAttachments host RegExp_test opts message r).
Proof.
  intros Hm Hr He. unfold afterAttachments. destruct (_ && _); [apply emits_ret|].
  apply emits_bind; [exact Hm | intros w].
  eapply emits_bind_with; [apply Hr | apply He | intros a ->; apply emits_ret].
Qed.

(** X1: under [dmPolicy=disabled] no direct message gets anywhere: while
    it is processed the allow list is not read, no pairing request is
    made, nothing is sent, no agent route is resolved and the host
    pipeline is not invoked. *)
Theorem dm_policy_disabled_blocks_direct_messages
    (message : MaxMessage) (userLocale : option jstr) (opts : MaxMonitorOptions) :
  isGroupChat message = false ->
  dmPolicyOf opts = js "disabled" ->
  emitsOnly (fun e => isDispatch e = false /\ isResolveAgentRoute e = false
                      /\ isUpsert e = false /\ isSend e = false
                      /\ isReadAllowFrom e = false)
    (processIncomingMessage host RegExp_test message userLocale opts).
Proof.
  intros Hdm Hpol. unfold processIncomingMessage.
  apply emits_bind; [apply attachmentPhase_quiet | intros r].
  apply afterAttachments_blocked.
  - rewrite detectMention_direct by done. apply emits_ret.
  - intros w s. rewrite policyGates_direct_result by done.
    rewrite dmGate_result, Hpol. reflexivity.
  - intros w. unfold policyGates, dmGate. unfold dmPolicyOf in Hpol. rewrite Hdm, Hpol.
    change (jstr_eqb (js "disabled") (js "disabled")) with true. cbn [negb].
    emits_walk ltac:(by repeat split).
Qed.

(** X2: under [dmPolicy=open] every direct message that is not empty is
    handed to the host pipeline, whoever sent it: the allow list is not
    read and no pairing request is made. *)
Theorem dm_policy_open_forwards_direct_messages
    (message : MaxMessage) (userLocale : option jstr) (opts : MaxMonitorOptions)
    (s : State World) :
  let loop := attachmentPhase host opts message in
  let es :=
    eventsOf (processIncomingMessage host RegExp_test message userLocale opts) s in
  isGroupChat message = false ->
  notEmpty message (resultOf loop s) ->
  dmPolicyOf opts = js "open" ->
  forwarded es = true
  /\ Forall (fun e => isUpsert e = false /\ isReadAllowFrom e = false) es.
Proof.
  cbv zeta. intros Hdm Hne Hpol. split.
  - rewrite direct_message_forwarded by done. rewrite dmGate_result, Hpol. reflexivity.
  - revert s Hne. intros s _. revert s.
    change (emitsOnly (fun e => isUpsert e = false /\ isReadAllowFrom e = false)
              (processIncomingMessage host RegExp_test message userLocale opts)).
    unfold processIncomingMessage.
    apply emits_bind.
    { eapply emits_weaken; [|apply attachmentPhase_quiet]. cbn. tauto. }
    intros r. unfold afterAttachments. destruct (_ && _); [apply emits_ret|].
    rewrite detectMention_direct by done.
    unfold policyGates, dmGate. unfold dmPolicyOf in Hpol. rewrite Hdm, Hpol.
    change (jstr_eqb (js "open") (js "disabled")) with false.
    change (jstr_eqb (js "open") (js "open")) with true. cbn [negb].
    unfold forwardToHost, deliverMaxReply, deliverMedia.
    emits_walk ltac:(by split).
Qed.

(** X3: under any DM policy other than [disabled] and [open] (so under
    [pairing], the default, and under [allowlist]), a direct message that
    is not empty is handed to the host pipeline exactly when the sender's
    id, or the wildcard [*], is in the configured [allowFrom] list or in
    the list the pairing store answers with. *)
Theorem direct_message_forwarded_iff_sender_allowed
    (message : MaxMessage) (userLocale : option jstr) (opts : MaxMonitorOptions)
    (s : State World) :
  let loop := attachmentPhase host opts message in
  let stored :=
    resultOf (call host (ReadAllowFromStore (js "max"))) (stateAfter loop s) in
  let es :=
    eventsOf (processIncomingMessage host RegExp_test message userLocale opts) s in
  isGroupChat message = false ->
  notEmpty message (resultOf loop s) ->
  dmPolicyOf opts <> js "disabled" ->
  dmPolicyOf opts <> js "open" ->
  forwarded es = senderAllowed (effectiveAllowFrom opts stored) message
  /\ (senderAllowed (effectiveAllowFrom opts stored) message = true <->
      In (String_of_optZ (senderIdOf message)) (effectiveAllowFrom opts stored)
      \/ In (js "*") (effectiveAllowFrom opts stored)).
Proof.
  cbv zeta. intros Hdm Hne Hdis Hopen. split.
  - rewrite direct_message_forwarded by done. rewrite dmGate_result.
    apply WebhookFacts.jstr_eqb_neq in Hdis, Hopen. by rewrite Hdis, Hopen.
  - unfold senderAllowed, includes. rewrite orb_true_iff, !existsb_exists.
    split; (intros [H|H]; [left|right]).
    + destruct H as (x & Hin & ->%WebhookFacts.jstr_eqb_eq). done.
    + destruct H as (x & Hin & ->%WebhookFacts.jstr_eqb_eq). done.
    + eexists. split; [exact H|]. by apply WebhookFacts.jstr_eqb_eq.
    + eexists. split; [exact H|]. by apply WebhookFacts.jstr_eqb_eq.
Qed.

(** X4: under a DM policy other than [disabled], [open] and [pairing]
    (so under [allowlist]), a direct message from a sender who is not
    allowed is dropped in silence: after the attachment loop the only
    call is the read of the pairing store; no pairing request, no reply,
    no log line. *)
Theorem unlisted_sender_dropped_silently_without_pairing
    (message : MaxMessage) (userLocale : option jstr) (opts : MaxMonitorOptions)
    (s : State World) :
  let loop := attachmentPhase host opts message in
  let read := call host (ReadAllowFromStore (js "max")) in
  isGroupChat message = false ->
  notEmpty message (resultOf loop s) ->
  dmPolicyOf opts <> js "disabled" ->
  dmPolicyOf opts <> js "open" ->
  dmPolicyOf opts <> js "pairing" ->
  senderAllowed (effectiveAllowFrom opts (resultOf read (stateAfter loop s))) message
    = false ->
  eventsOf (processIncomingMessage host RegExp_test message userLocale opts) s
  = eventsOf loop s
    ++ [Ev (ReadAllowFromStore (js "max")) (resultOf read (stateAfter loop s))].
Proof.
  cbv zeta. intros Hdm Hne Hdis Hopen Hpair Hnot.
  unfold processIncomingMessage. rewrite events_bind. f_equal.
  unfold afterAttachments. rewrite notEmpty_not_skipped by done.
  rewrite detectMention_direct by done.
  rewrite events_bind, events_ret. cbn [app].
  change (stateAfter (ret None) ?x) with x. change (resultOf (ret None) ?x) with (@None bool).
  rewrite events_bind.
  unfold policyGates at 1. rewrite Hdm. cbn [negb].
  rewrite events_bind.
  unfold dmGate at 1. unfold dmPolicyOf, effectiveAllowFrom in *.
  apply WebhookFacts.jstr_eqb_neq in Hdis, Hopen, Hpair.
  rewrite Hdis, Hopen, Hpair. cbn [negb].
  rewrite events_bind, events_call. rewrite Hnot. cbn [negb].
  assert (Hgate : resultOf (dmGate host opts message)
                    (stateAfter (attachmentPhase host opts message) s) = false).
  { rewrite dmGate_result. unfold dmPolicyOf, effectiveAllowFrom.
    by rewrite Hdis, Hopen, Hnot. }
  rewrite policyGates_direct_result, Hgate by done.
  rewrite events_bind, !events_ret. by rewrite !app_nil_r.
Qed.

End DirectMessages.

Section Groups.

Context {World : Type}.
Variable host : forall R, Call R -> World -> R * World.
Variable RegExp_test : jstr -> jstr -> jstr -> bool.

Lemma groupPolicyGate_result opts chatId s :
  resultOf (groupPolicyGate host opts chatId) s =
    negb (jstr_eqb (groupPolicyOf opts) (js "disabled"))
    && negb (jstr_eqb (groupPolicyOf opts) (js "allowlist")
             && negb (chatAllowed opts chatId)).
Proof.
  unfold groupPolicyGate. cbv zeta.
  destruct (jstr_eqb _ (js "disabled")); [by rewrite result_bind|].
  destruct (_ && _); [by rewrite result_bind | reflexivity].
Qed.

Lemma policyGates_group opts message wasMentioned :
  isGroupChat message = true ->
  policyGates host opts message wasMentioned
  = bind (ret true)
      (fun dmOk : bool =>
         if dmOk then groupGate host opts (chat_id (recipient message)) wasMentioned
         else ret false).
Proof. intros Hg. unfold policyGates. by rewrite Hg. Qed.

(** X5: a group or channel message is dropped whenever the group policy
    is [disabled], or is [allowlist] while neither the chat's id nor the
    wildcard [*] is a key of the configured groups; being mentioned does
    not help.  Nothing is sent, no agent route is resolved and the host
    pipeline is not invoked. *)
Theorem group_message_blocked_by_group_policy
    (message : MaxMessage) (userLocale : option jstr) (opts : MaxMonitorOptions) :
  isGroupChat message = true ->
  groupPolicyOf opts = js "disabled"
  \/ (groupPolicyOf opts = js "allowlist"
      /\ chatAllowed opts (chat_id (recipient message)) = false) ->
  emitsOnly (fun e => isDispatch e = false /\ isResolveAgentRoute e = false
                      /\ isSend e = false)
    (processIncomingMessage host RegExp_test message userLocale opts).
Proof.
  intros Hg Hblock. unfold processIncomingMessage.
  apply emits_bind.
  { eapply emits_weaken; [|apply attachmentPhase_emits]. cbn. tauto. }
  intros r. apply afterAttachments_blocked.
  - unfold detectMention. emits_walk ltac:(by repeat split).
  - intros w s. rewrite policyGates_group by done. rewrite result_bind.
    change (resultOf (ret true) s) with true. cbv iota.
    unfold groupGate. rewrite result_bind, groupPolicyGate_result.
    destruct Hblock as [-> | [-> ->]]; reflexivity.
  - intros w. rewrite policyGates_group by done.
    unfold groupGate, groupPolicyGate, mentionGate.
    emits_walk ltac:(by repeat split).
Qed.

(** X6: in a group or channel that passes the group policy, a resolved
    group configuration with [requireMention: false] lets every message
    that is not empty through to the host pipeline, mentioned or not. *)
Theorem group_message_forwarded_without_mention_when_not_required
    (message : MaxMessage) (userLocale : option jstr) (opts : MaxMonitorOptions)
    (s : State World) (c : MaxGroupConfig) :
  let chatId := chat_id (recipient message) in
  isGroupChat message = true ->
  notEmpty message (resultOf (attachmentPhase host opts message) s) ->
  groupPolicyOf opts <> js "disabled" ->
  (groupPolicyOf opts = js "allowlist" -> chatAllowed opts chatId = true) ->
  groupCfgOf opts chatId = Some c ->
  requireMention c = Some false ->
  forwarded
    (eventsOf (processIncomingMessage host RegExp_test message userLocale opts) s)
  = true.
Proof.
  cbv zeta. intros Hg Hne Hdis Hallow Hcfg Hreq.
  rewrite processIncomingMessage_forwarded. cbv zeta.
  rewrite afterAttachments_forwarded by done. cbv zeta.
  rewrite policyGates_group by done. rewrite result_bind.
  match goal with |- context [resultOf (ret true) ?x] =>
    change (resultOf (ret true) x) with true;
    change (stateAfter (ret true) x) with x end.
  cbv iota. unfold groupGate. rewrite result_bind, groupPolicyGate_result.
  apply WebhookFacts.jstr_eqb_neq in Hdis. rewrite Hdis. cbn [negb andb].
  assert (Hal : jstr_eqb (groupPolicyOf opts) (js "allowlist")
                && negb (chatAllowed opts (chat_id (recipient message))) = false).
  { destruct (jstr_eqb _ (js "allowlist")) eqn:Heq; [|done].
    apply WebhookFacts.jstr_eqb_eq in Heq. by rewrite (Hallow Heq). }
  rewrite Hal. cbn [negb]. unfold mentionGate, requireMentionOf.
  rewrite Hcfg, Hreq. reflexivity.
Qed.

End Groups.

Section Dispatch.

Context {World : Type}.
Variable host : forall R, Call R -> World -> R * World.
Variable RegExp_test : jstr -> jstr -> jstr -> bool.

Lemma forwarded_log_only level msg (s : State World) :
  forwarded (eventsOf (call host (Log level msg)) s) = false.
Proof. by rewrite events_call. Qed.

(** X7: [dispatchUpdate] hands something to the host pipeline only for
    an update of type [message_created] or [message_edited] that carries
    a message not sent by the bot itself, for a [message_callback] whose
    payload is not blank, and for a [bot_started] that names a user.
    Every other update (among them [bot_added], [bot_removed],
    [message_removed], reactions and unknown types) never reaches it. *)
Theorem dispatchUpdate_forwards_only_user_input
    (update : MaxUpdate) (opts : MaxMonitorOptions) (s : State World) :
  forwarded (eventsOf (dispatchUpdate host RegExp_test update opts) s) = true ->
  (exists message,
      (update_type update = js "message_created"
       \/ update_type update = js "message_edited")
      /\ upd_message update = Some message
      /\ fromBotItself opts message = false)
  \/ (exists callback,
        update_type update = js "message_callback"
        /\ upd_callback update = Some callback
        /\ trim (default [] (cb_payload callback)) <> [])
  \/ (exists user,
        update_type update = js "bot_started" /\ upd_user update = Some user).
Proof.
  unfold dispatchUpdate. cbv zeta.
  destruct (jstr_eqb _ (js "message_created")) eqn:Hc.
  { apply WebhookFacts.jstr_eqb_eq in Hc.
    destruct (upd_message update) as [message|]; [|done].
    destruct (fromBotItself opts message) eqn:Hself; [done|].
    intros _. left. exists message. auto. }
  destruct (jstr_eqb _ (js "message_callback")) eqn:Hcb.
  { apply WebhookFacts.jstr_eqb_eq in Hcb.
    destruct (upd_callback update) as [callback|]; [|done].
    intros Hf. right. left. exists callback. split; [done|]. split; [done|].
    intros Hblank. revert Hf. rewrite events_bind, forwarded_app, events_call.
    unfold processCallback. rewrite Hblank. done. }
  destruct (jstr_eqb _ (js "message_edited")) eqn:He.
  { apply WebhookFacts.jstr_eqb_eq in He.
    destruct (upd_message update) as [message|]; [|done].
    destruct (fromBotItself opts message) eqn:Hself; [done|].
    intros _. left. exists message. auto. }
  destruct (jstr_eqb _ (js "bot_started")) eqn:Hb.
  { apply WebhookFacts.jstr_eqb_eq in Hb.
    destruct (upd_user update) as [user|]; [|done].
    intros _. right. right. by exists user. }
  destruct (jstr_eqb _ (js "bot_added"));
    [by rewrite forwarded_log_only|].
  destruct (jstr_eqb _ (js "bot_removed")); by rewrite forwarded_log_only.
Qed.

End Dispatch.

(** The walk of [emits_walk], keeping the equation of every case it
    splits on. *)
Ltac emits_walk_eq tac :=
  repeat first
    [ apply emits_ret
    | apply emits_remember
    | apply emits_call; intros; tac
    | apply emits_bind; [|intros]
    | apply emits_forEach; intros
    | apply emits_foldM; intros
    | match goal with
      | |- emitsOnly _ (match ?x with _ => _ end) => destruct x eqn:?
      | |- emitsOnly _ (let _ := _ in _) => cbv zeta
      end ].

Section Downloads.

Context {World : Type}.
Variable host : forall R, Call R -> World -> R * World.
Variable RegExp_test : jstr -> jstr -> jstr -> bool.

Lemma isRemoteUrl_http u : isRemoteUrl u = true -> startsWith u (js "http") = true.
Proof.
  unfold isRemoteUrl. change (js "http://") with (js "http" ++ js "://").
  change (js "https://") with (js "http" ++ js "s://").
  assert (Hpre : forall p q, startsWith u (p ++ q) = true -> startsWith u p = true).
  { intros p. revert u. induction p as [|a p IH]; intros u q; [done|].
    destruct u as [|b u]; cbn [app startsWith]; [done|].
    intros [-> H]%andb_true_iff. by rewrite (IH _ _ H). }
  intros [H|H]%orb_true_iff; eapply Hpre; exact H.
Qed.

Lemma processIncomingMessage_downloads message userLocale opts :
  emitsOnly (downloadOk (mediaLimitOf opts))
    (processIncomingMessage host RegExp_test message userLocale opts).
Proof.
  unfold processIncomingMessage, attachmentPhase, reduceAttachments, reduceAttachment,
    afterAttachments, detectMention, policyGates, dmGate, requestPairing, groupGate,
    groupPolicyGate, mentionGate, forwardToHost, deliverMaxReply, deliverMedia.
  emits_walk_eq ltac:(unfold downloadOk, mediaLimitOf; auto using isRemoteUrl_http).
Qed.

(** X8: whatever update is dispatched, the plugin downloads only from
    URLs that start with [http] (an attachment's URL on the way in, a
    reply's media URL on the way out), and every download, like every save
    of a downloaded attachment, carries the byte limit
    [mediaMaxMb * 1024 * 1024], with 20 for [mediaMaxMb] when it is not
    configured. *)
Theorem downloads_are_http_and_size_limited
    (update : MaxUpdate) (opts : MaxMonitorOptions) :
  emitsOnly (downloadOk (mediaLimitOf opts))
    (dispatchUpdate host RegExp_test update opts).
Proof.
  unfold dispatchUpdate, processCallback, processBotStarted, refetchEdited,
    markSeenAndTyping.
  emits_walk_using processIncomingMessage_downloads ltac:(exact I).
Qed.

End Downloads.

Section Stickers.

Context {World : Type}.
Variable host : forall R, Call R -> World -> R * World.
Variable RegExp_test : jstr -> jstr -> jstr -> bool.

Lemma keeps_ret {A} (a : A) : keepsStickers (ret a : M World A).
Proof. by intros s. Qed.

Lemma keeps_call {R} (c : Call R) : keepsStickers (call host c).
Proof. intros s. unfold stateAfter, call. by destruct (host R c (world s)). Qed.

Lemma keeps_bind {A B} (m : M World A) (f : A -> M World B) :
  keepsStickers m -> (forall a, keepsStickers (f a)) -> keepsStickers (bind m f).
Proof. intros Hm Hf s. rewrite state_bind. by rewrite Hf, Hm. Qed.

Lemma keeps_foldM {A B} (f : A -> B -> M World A) l a :
  (forall a x, keepsStickers (f a x)) -> keepsStickers (foldM f l a).
Proof.
  intros Hf. revert a. induction l as [|x l IH]; intros a; cbn [foldM].
  - apply keeps_ret.
  - apply keeps_bind; [apply Hf | intros a'; apply IH].
Qed.

Lemma keeps_forEach {B} (f : B -> M World unit) l :
  (forall x, keepsStickers (f x)) -> keepsStickers (forEach f l).
Proof. intros Hf. apply keeps_foldM. intros _ x. apply Hf. Qed.

Lemma rememberAll_cons k code h c :
  rememberAll ((k, code) :: h) c = rememberAll h (rememberStickerCode k code c).
Proof. reflexivity. Qed.

Lemma stickers_bind_keeps {A B} (m : M World A) (f : A -> M World B) s :
  (forall a, keepsStickers (f a)) ->
  stickers (stateAfter (bind m f) s) = stickers (stateAfter m s).
Proof. intros Hf. rewrite state_bind. apply Hf. Qed.

(** One turn of the attachment loop writes the cache for a sticker with
    a code in a chat with an id, and not otherwise. *)
Lemma reduceAttachment_stickers account chatId r att s :
  stickers (stateAfter (reduceAttachment host account chatId r att) s) =
    match stickerCodeOf att, chatId with
    | Some code, Some c => rememberStickerCode (ChatNum c) code (stickers s)
    | _, _ => stickers s
    end.
Proof.
  unfold reduceAttachment, stickerCodeOf. cbv zeta.
  set (attType := default (js "unknown") (att_type att)).
  destruct (includes downloadableTypes attType) eqn:Hinc.
  - rewrite stickers_bind_keeps.
    2:{ intros r'.
        repeat first
          [ apply keeps_ret
          | apply keeps_call
          | apply keeps_bind; [|intros]
          | match goal with
            | |- keepsStickers (match ?x with _ => _ end) => destruct x
            end ]. }
    destruct (jstr_eqb attType (js "sticker")); [|reflexivity].
    destruct (truthy _); [|reflexivity].
    rewrite state_bind.
    rewrite stickers_bind_keeps by (intros; apply keeps_ret).
    destruct chatId as [c|].
    + unfold stateAfter at 1. cbn [remember fst snd stickers].
      f_equal. apply keeps_call.
    + unfold stateAfter at 1. cbn [ret fst snd]. apply keeps_call.
  - assert (Hns : jstr_eqb attType (js "sticker") = false).
    { apply WebhookFacts.jstr_eqb_neq. intros Heq. rewrite Heq in Hinc. done. }
    rewrite Hns.
    match goal with |- stickers (stateAfter ?k s) = _ => revert s;
      change (keepsStickers k) end.
    repeat first
      [ apply keeps_ret
      | match goal with
        | |- keepsStickers (match ?x with _ => _ end) => destruct x
        end ].
Qed.

Lemma reduceAttachments_stickers account chatId atts r s :
  stickers (stateAfter (foldM (reduceAttachment host account chatId) atts r) s) =
    match chatId with
    | Some c =>
        rememberAll (map (fun code => (ChatNum c, code)) (omap stickerCodeOf atts))
          (stickers s)
    | None => stickers s
    end.
Proof.
  revert r s. induction atts as [|att atts IH]; intros r s; cbn [foldM].
  - by destruct chatId.
  - rewrite state_bind, IH, reduceAttachment_stickers. cbn [omap list_omap].
    destruct chatId as [c|]; destruct (stickerCodeOf att); reflexivity.
Qed.

Lemma afterAttachments_keeps opts message r :
  keepsStickers (afterAttachments host RegExp_test opts message r).
Proof.
  unfold afterAttachments, detectMention, policyGates, dmGate, requestPairing, groupGate,
    groupPolicyGate, mentionGate, forwardToHost, deliverMaxReply, deliverMedia.
  repeat first
    [ apply keeps_ret
    | apply keeps_call
    | apply keeps_bind; [|intros]
    | apply keeps_forEach; intros
    | match goal with
      | |- keepsStickers (match ?x with _ => _ end) => destruct x
      | |- keepsStickers (let _ := _ in _) => cbv zeta
      end ].
Qed.

Lemma truthy_template v : truthy v = true -> nonEmpty (template v) = true.
Proof.
  destruct v as [| |[|]|n|str]; cbn [truthy template]; try done.
  destruct n as [|p|p]; [done| |done]. intros _. cbn [String_of_Z].
  pose proof (DecimalPos.Unsigned.to_uint_nonnil p) as Hnn.
  by destruct (Pos.to_uint p).
Qed.

Lemma stickerCodeOf_nonEmpty att code :
  stickerCodeOf att = Some code -> nonEmpty code = true.
Proof.
  unfold stickerCodeOf. destruct (jstr_eqb _ _); [|done]. cbv zeta.
  destruct (truthy _) eqn:Ht; [|done]. intros [= <-]. by apply truthy_template.
Qed.

(** The cache after a message: one [rememberStickerCode] per sticker
    with a code, under the chat's id. *)
Lemma processIncomingMessage_stickers message userLocale opts s :
  stickers (stateAfter (processIncomingMessage host RegExp_test message userLocale opts) s)
  = match chat_id (recipient message) with
    | Some c =>
        rememberAll (map (fun code => (ChatNum c, code)) (stickerCodesOf message))
          (stickers s)
    | None => stickers s
    end.
Proof.
  unfold processIncomingMessage. rewrite state_bind, afterAttachments_keeps.
  unfold attachmentPhase. rewrite state_bind. unfold reduceAttachments.
  rewrite reduceAttachments_stickers, keeps_call. reflexivity.
Qed.

Lemma last_stickerCode_nonEmpty message code :
  last (stickerCodesOf message) = Some code -> nonEmpty code = true.
Proof.
  unfold stickerCodesOf. intros Hlast.
  assert (Hin : code ∈ omap stickerCodeOf (default [] (attachments (body message)))).
  { destruct (omap stickerCodeOf _) as [|x l] using rev_ind; [done|].
    rewrite last_snoc in Hlast. injection Hlast as ->.
    apply elem_of_app. right. by apply list_elem_of_singleton. }
  apply list_elem_of_omap in Hin as (att & _ & Hatt).
  by eapply stickerCodeOf_nonEmpty.
Qed.

(** After the codes of a message were remembered for a chat, the chat's
    entry and the global slot hold the last of them. *)
Lemma rememberAll_codes_last c codes code cache :
  last codes = Some code ->
  let after := rememberAll (map (fun code => (ChatNum c, code)) codes) cache in
  lastStickerByChat after !! String_of_Z c = Some code
  /\ lastStickerGlobal after = Some code.
Proof.
  intros Hlast. cbv zeta.
  destruct codes as [|x l] using rev_ind; [done|]. clear IHl.
  rewrite last_snoc in Hlast. injection Hlast as ->.
  rewrite map_app. cbn [map]. rewrite StickerCacheFacts.rememberAll_snoc.
  unfold rememberStickerCode. cbn [lastStickerByChat lastStickerGlobal String_of_chat].
  by rewrite lookup_insert_eq.
Qed.

(** X9: processing a message writes the sticker cache exactly as if
    [rememberStickerCode] had been called, in order, for each sticker
    attachment of the message that has a code, under the chat's id; a
    message without a chat id, or without such a sticker, leaves the cache
    as it was.  So afterwards [getLastStickerCode] for the chat answers
    with the code of the message's last sticker. *)
Theorem processIncomingMessage_remembers_sticker_codes
    (message : MaxMessage) (userLocale : option jstr) (opts : MaxMonitorOptions)
    (s : State World) :
  let after :=
    stickers (stateAfter (processIncomingMessage host RegExp_test message userLocale opts) s) in
  after =
    match chat_id (recipient message) with
    | Some c =>
        rememberAll (map (fun code => (ChatNum c, code)) (stickerCodesOf message))
          (stickers s)
    | None => stickers s
    end
  /\ (forall c code,
        chat_id (recipient message) = Some c ->
        last (stickerCodesOf message) = Some code ->
        getLastStickerCode (Some (ChatNum c)) after = Some code).
Proof.
  cbv zeta. split; [apply processIncomingMessage_stickers|].
  intros c code Hc Hlast. rewrite processIncomingMessage_stickers, Hc.
  destruct (rememberAll_codes_last c _ code (stickers s) Hlast) as [Hentry _].
  cbv zeta in Hentry. unfold getLastStickerCode. cbn [String_of_chat].
  rewrite Hentry. by rewrite (last_stickerCode_nonEmpty message code).
Qed.

End Stickers.

Section Delivery.

Context {World : Type}.
Variable host : forall R, Call R -> World -> R * World.

Lemma omap_events_bind {A B C} (f : Event -> option C)
    (m : M World A) (k : A -> M World B) s :
  omap f (eventsOf (bind m k) s)
  = omap f (eventsOf m s) ++ omap f (eventsOf (k (resultOf m s)) (stateAfter m s)).
Proof. by rewrite events_bind, omap_app. Qed.

Lemma omap_events_none {A C} (f : Event -> option C) (m : M World A) s :
  emitsOnly (fun e => f e = None) m -> omap f (eventsOf m s) = [].
Proof.
  intros Hm. specialize (Hm s).
  induction Hm as [|e es He _ IH]; [done|]. cbn. by rewrite He.
Qed.

Lemma omap_events_forEach {B C} (f : Event -> option C) (g : B -> M World unit)
    (h : B -> list C) l s :
  (forall x s, omap f (eventsOf (g x) s) = h x) ->
  omap f (eventsOf (forEach g l) s) = concat (map h l).
Proof.
  intros Hg. unfold forEach. generalize tt. revert s.
  induction l as [|x l IH]; intros s u; cbn [foldM map concat]; [done|].
  by rewrite omap_events_bind, Hg, IH.
Qed.

Lemma deliverMedia_no_text params mediaUrl :
  emitsOnly (fun e => textSendOf e = None) (deliverMedia host params mediaUrl).
Proof. unfold deliverMedia. emits_walk ltac:(reflexivity). Qed.

(** X10: [deliverMaxReply] sends the text of a reply chunk by chunk: one
    [sendMaxMessage] for each chunk the host's chunker returns (asked with
    the limit 4000), in order, to the chat, as markdown, in reply to the
    given message id; a chunk that fails to send does not stop the ones
    after it.  A payload without text sends no text message. *)
Theorem deliverMaxReply_sends_every_chunk (params : DeliverParams) (s : State World) :
  let account := dp_account params in
  let resolve := call host (ResolveChunkMode (js "max") (accountId account)) in
  omap textSendOf (eventsOf (deliverMaxReply host params) s) =
    match p_text (dp_payload params) with
    | Some ((_ :: _) as text) =>
        let chunks :=
          resultOf (call host (ChunkMarkdownTextWithMode text 4000 (resultOf resolve s)))
            (stateAfter resolve s) in
        map (fun chunk =>
               (dp_chatId params, chunk,
                {| so_token := token account;
                   replyToMessageId := dp_replyToId params;
                   format := Some (js "markdown") |}))
          chunks
    | _ => []
    end.
Proof.
  cbv zeta. unfold deliverMaxReply. cbv zeta.
  rewrite omap_events_bind.
  rewrite (omap_events_none _ (forEach _ _)), app_nil_r
    by (apply emits_forEach; intros; apply deliverMedia_no_text).
  destruct (p_text (dp_payload params)) as [[|c text]|]; try reflexivity.
  rewrite omap_events_bind, events_call. cbn [omap list_omap textSendOf app].
  rewrite omap_events_bind, events_call. cbn [omap list_omap textSendOf app].
  rewrite (omap_events_forEach _ _
             (fun chunk =>
                [(dp_chatId params, chunk,
                  {| so_token := token (dp_account params);
                     replyToMessageId := dp_replyToId params;
                     format := Some (js "markdown") |})])).
  2:{ intros chunk s'. rewrite omap_events_bind, events_call.
      cbn [omap list_omap textSendOf app].
      destruct (resultOf _ s'); rewrite events_call; reflexivity. }
  induction (resultOf _ _) as [|chunk chunks IH]; [done|].
  cbn [map concat app]. by rewrite IH.
Qed.

Lemma deliverMedia_cleanup params mediaUrl s :
  omap unlinkedPathOf (eventsOf (deliverMedia host params mediaUrl) s)
  = omap writtenPathOf (eventsOf (deliverMedia host params mediaUrl) s).
Proof.
  unfold deliverMedia. cbv zeta.
  repeat first
    [ progress (rewrite ?omap_events_bind, ?events_call, ?events_ret;
                cbn [omap list_omap unlinkedPathOf writtenPathOf app])
    | match goal with
      | |- context [eventsOf (match ?x with _ => _ end) _] => destruct x
      | |- context [if ?x then Some _ else None] => destruct x
      end ];
    reflexivity.
Qed.

Lemma cleans_ret {A} (a : A) : removesWhatItWrote (ret a : M World A).
Proof. by intros s. Qed.

Lemma cleans_remember k code : removesWhatItWrote (remember k code : M World unit).
Proof. by intros s. Qed.

Lemma cleans_call {R} (c : Call R) :
  (forall r, unlinkedPathOf (Ev c r) = None /\ writtenPathOf (Ev c r) = None) ->
  removesWhatItWrote (call host c).
Proof.
  intros Hc s. rewrite events_call. cbn [omap list_omap].
  by destruct (Hc (resultOf (call host c) s)) as [-> ->].
Qed.

Lemma cleans_bind {A B} (m : M World A) (f : A -> M World B) :
  removesWhatItWrote m -> (forall a, removesWhatItWrote (f a)) ->
  removesWhatItWrote (bind m f).
Proof. intros Hm Hf s. by rewrite !omap_events_bind, Hm, Hf. Qed.

Lemma cleans_foldM {A B} (f : A -> B -> M World A) l a :
  (forall a x, removesWhatItWrote (f a x)) -> removesWhatItWrote (foldM f l a).
Proof.
  intros Hf. revert a. induction l as [|x l IH]; intros a; cbn [foldM].
  - apply cleans_ret.
  - apply cleans_bind; [apply Hf | intros a'; apply IH].
Qed.

Lemma cleans_forEach {B} (f : B -> M World unit) l :
  (forall x, removesWhatItWrote (f x)) -> removesWhatItWrote (forEach f l).
Proof. intros Hf. apply cleans_foldM. intros _ x. apply Hf. Qed.

Lemma deliverMedia_cleans params mediaUrl :
  removesWhatItWrote (deliverMedia host params mediaUrl).
Proof. intros s. apply deliverMedia_cleanup. Qed.

End Delivery.

Ltac cleans_walk :=
  repeat first
    [ apply deliverMedia_cleans
    | apply cleans_ret
    | apply cleans_remember
    | apply cleans_call; intros; by split
    | apply cleans_bind; [|intros]
    | apply cleans_forEach; intros
    | apply cleans_foldM; intros
    | match goal with
      | |- removesWhatItWrote (match ?x with _ => _ end) => destruct x
      | |- removesWhatItWrote (let _ := _ in _) => cbv zeta
      end ].

Section Cleanup.

Context {World : Type}.
Variable host : forall R, Call R -> World -> R * World.
Variable RegExp_test : jstr -> jstr -> jstr -> bool.

Lemma processIncomingMessage_cleans message userLocale opts :
  removesWhatItWrote (processIncomingMessage host RegExp_test message userLocale opts).
Proof.
  unfold processIncomingMessage, attachmentPhase, reduceAttachments, reduceAttachment,
    afterAttachments, detectMention, policyGates, dmGate, requestPairing, groupGate,
    groupPolicyGate, mentionGate, forwardToHost, deliverMaxReply.
  cleans_walk.
Qed.

(** X11: a temporary file written while an update is dispatched (for a
    reply medium that had to be downloaded) is removed again, whether or
    not the medium could be sent, and nothing else is removed: the paths
    unlinked are the paths written, in the same order. *)
Theorem dispatchUpdate_removes_its_temporary_files
    (update : MaxUpdate) (opts : MaxMonitorOptions) :
  removesWhatItWrote (dispatchUpdate host RegExp_test update opts).
Proof.
  unfold dispatchUpdate, processCallback, processBotStarted, refetchEdited,
    markSeenAndTyping.
  repeat first
    [ apply processIncomingMessage_cleans
    | apply cleans_ret
    | apply cleans_call; intros; by split
    | apply cleans_bind; [|intros]
    | match goal with
      | |- removesWhatItWrote (match ?x with _ => _ end) => destruct x
      | |- removesWhatItWrote (let _ := _ in _) => cbv zeta
      end ].
Qed.

End Cleanup.

Section PollingLoop.

Context {World : Type}.
Variable host : forall R, Call R -> World -> R * World.
Variable RegExp_test : jstr -> jstr -> jstr -> bool.

(** Dispatching updates neither polls, nor sleeps, nor logs the end of
    the loop. *)
Lemma processIncomingMessage_inner message userLocale opts :
  emitsOnly (fun e => pollOf e = None /\ sleepOf e = None /\ isPollingStopped e = false)
    (processIncomingMessage host RegExp_test message userLocale opts).
Proof.
  unfold processIncomingMessage, attachmentPhase, reduceAttachments, reduceAttachment,
    afterAttachments, detectMention, policyGates, dmGate, requestPairing, groupGate,
    groupPolicyGate, mentionGate, forwardToHost, deliverMaxReply, deliverMedia.
  emits_walk ltac:(by repeat split).
Qed.

Lemma dispatchUpdate_inner update opts :
  emitsOnly (fun e => pollOf e = None /\ sleepOf e = None /\ isPollingStopped e = false)
    (dispatchUpdate host RegExp_test update opts).
Proof.
  unfold dispatchUpdate, processCallback, processBotStarted, refetchEdited,
    markSeenAndTyping.
  emits_walk_using processIncomingMessage_inner ltac:(by repeat split).
Qed.

Lemma dispatchAll_inner us opts :
  emitsOnly (fun e => pollOf e = None /\ sleepOf e = None /\ isPollingStopped e = false)
    (dispatchAll host RegExp_test us opts).
Proof.
  induction us as [|u us IH]; cbn [dispatchAll]; [apply emits_ret|].
  apply emits_bind; [by apply emits_call | intros aborted].
  destruct aborted; [apply emits_ret|].
  apply emits_bind; [apply dispatchUpdate_inner | intros _; apply IH].
Qed.

Lemma result_call {R} (c : Call R) (s : State World) :
  resultOf (call host c) s = fst (host R c (world s)).
Proof. unfold resultOf, call. by destruct (host R c (world s)). Qed.




(** X13: as long as the abort signal is not raised the loop keeps
    polling: every turn makes exactly one [getUpdates] request, whether
    the one before it failed or not, and each failed poll is followed by
    one back-off of 3000 ms; nothing else in the loop sleeps. *)
Theorem polling_loop_backs_off_and_continues
    (fuel : nat) (opts : MaxMonitorOptions) (current : option Z) (s : State World) :
  neverAborts host ->
  let run := pollingLoop host RegExp_test fuel opts current in
  length (polls (eventsOf run s)) = fuel
  /\ omap sleepOf (eventsOf run s)
     = repeat 3000 (length (List.filter isFailedPoll (polls (eventsOf run s))))
  /\ snd (resultOf run s) = false.
Proof.
  intros Hnever. cbv zeta. revert current s.
  assert (Hquiet : forall us st,
            polls (eventsOf (dispatchAll host RegExp_test us opts) st) = []
            /\ omap sleepOf (eventsOf (dispatchAll host RegExp_test us opts) st) = []).
  { intros us st. split.
    - apply polls_none. eapply emits_weaken; [|apply dispatchAll_inner]. cbn. tauto.
    - apply omap_events_none. eapply emits_weaken; [|apply dispatchAll_inner].
      cbn. tauto. }
  assert (Hab : forall st, resultOf (call host AbortSignalAborted) st = false).
  { intros st. rewrite result_call. apply Hnever. }
  induction fuel as [|fuel IH]; intros current s; cbn [pollingLoop]; [done|].
  rewrite events_bind, result_bind, events_call, Hab.
  rewrite events_bind, result_bind, events_call.
  rewrite !polls_app, !omap_app. cbn [polls omap list_omap pollOf sleepOf app].
  fold polls.
  set (s1 := stateAfter (call host AbortSignalAborted) s).
  destruct (resultOf (call host (GetUpdates 30 current pollTypes)) s1) as [resp|].
  - rewrite events_bind, result_bind, polls_app, omap_app.
    destruct (Hquiet (updates resp)
                (stateAfter (call host (GetUpdates 30 current pollTypes)) s1))
      as [-> ->].
    cbn [app List.filter isFailedPoll snd length].
    destruct (IH (adoptMarker current resp)
                (stateAfter (dispatchAll host RegExp_test (updates resp) opts)
                   (stateAfter (call host (GetUpdates 30 current pollTypes)) s1)))
      as (Hn & Hs & Hr).
    by rewrite Hn, Hs, Hr.
  - rewrite events_bind, result_bind, events_call, Hab.
    rewrite events_bind, result_bind, events_call.
    rewrite events_bind, result_bind, events_call.
    rewrite !polls_app, !omap_app. cbn [polls omap list_omap pollOf sleepOf app].
    fold polls. cbn [List.filter isFailedPoll snd length repeat].
    match goal with
    | |- context [eventsOf (pollingLoop _ _ _ _ _) ?st] =>
        destruct (IH current st) as (Hn & Hs & Hr)
    end.
    by rewrite Hn, Hs, Hr.
Qed.

End PollingLoop.

Section Refetch.

Context {World : Type}.
Variable host : forall R, Call R -> World -> R * World.
Variable RegExp_test : jstr -> jstr -> jstr -> bool.

Lemma processIncomingMessage_no_refetch message userLocale opts :
  emitsOnly (fun e => refetchOf e = None)
    (processIncomingMessage host RegExp_test message userLocale opts).
Proof.
  unfold processIncomingMessage, attachmentPhase, reduceAttachments, reduceAttachment,
    afterAttachments, detectMention, policyGates, dmGate, requestPairing, groupGate,
    groupPolicyGate, mentionGate, forwardToHost, deliverMaxReply, deliverMedia.
  emits_walk ltac:(reflexivity).
Qed.

(** X29: the platform is asked for a message again only to complete an
    edited message that came without text: while an update is dispatched,
    every [getMessages] request belongs to a [message_edited] update whose
    message has no text (missing or blank), and asks, in the message's
    chat, for the one original message id, with count 1.  An edited
    message that carries text, and every other update, is processed
    without such a request. *)
Theorem refetch_only_completes_edited_messages
    (update : MaxUpdate) (opts : MaxMonitorOptions) :
  emitsOnly
    (fun e => forall chatId ids count,
       refetchOf e = Some (chatId, ids, count) ->
       update_type update = js "message_edited"
       /\ exists message,
            upd_message update = Some message
            /\ blankText (text (body message)) = true
            /\ chat_id (recipient message) = Some chatId
            /\ ids = [mid (body message)]
            /\ count = 1)
    (dispatchUpdate host RegExp_test update opts).
Proof.
  assert (Hquiet : forall A (m : M World A),
            emitsOnly (fun e => refetchOf e = None) m ->
            emitsOnly
              (fun e => forall chatId ids count,
                 refetchOf e = Some (chatId, ids, count) ->
                 update_type update = js "message_edited"
                 /\ exists message,
                      upd_message update = Some message
                      /\ blankText (text (body message)) = true
                      /\ chat_id (recipient message) = Some chatId
                      /\ ids = [mid (body message)]
                      /\ count = 1) m).
  { intros A m. apply emits_weaken. intros e He chatId ids count Hr.
    rewrite He in Hr. discriminate. }
  unfold dispatchUpdate. cbv zeta.
  destruct (jstr_eqb _ (js "message_created")).
  { apply Hquiet. unfold markSeenAndTyping.
    emits_walk_using processIncomingMessage_no_refetch ltac:(reflexivity). }
  destruct (jstr_eqb _ (js "message_callback")).
  { apply Hquiet. unfold processCallback.
    emits_walk_using processIncomingMessage_no_refetch ltac:(reflexivity). }
  destruct (jstr_eqb _ (js "message_edited")) eqn:Hkind.
  2:{ apply Hquiet. unfold processBotStarted.
      emits_walk_using processIncomingMessage_no_refetch ltac:(reflexivity). }
  apply WebhookFacts.jstr_eqb_eq in Hkind.
  destruct (upd_message update) as [message|] eqn:Hmsg; [|apply emits_ret].
  destruct (fromBotItself opts message); [apply emits_ret|].
  apply emits_bind; [apply Hquiet; by apply emits_call | intros _].
  apply emits_bind; [apply Hquiet; by apply emits_call | intros _].
  apply emits_bind.
  { apply Hquiet. unfold markSeenAndTyping. emits_walk ltac:(reflexivity). }
  intros _. apply emits_bind; [|intros edited; apply Hquiet,
                                  processIncomingMessage_no_refetch].
  unfold refetchEdited. cbn [body withBody text withMid recipient].
  fold (blankText (text (body message))).
  destruct (blankText (text (body message))) eqn:Hblank; [|apply emits_ret].
  destruct (nonEmpty (mid (body message))); [|apply emits_ret]. cbn [andb].
  destruct (chat_id (recipient message)) as [c|] eqn:Hchat; [|apply emits_ret].
  destruct (negb (c =? 0)); [|apply emits_ret].
  apply emits_bind.
  { apply emits_call. intros r chatId ids count [= <- <- <-].
    split; [done|]. exists message. auto. }
  intros fetched. apply Hquiet. emits_walk ltac:(reflexivity).
Qed.

End Refetch.

Section DownloadsFirst.

Context {World : Type}.
Variable host : forall R, Call R -> World -> R * World.
Variable RegExp_test : jstr -> jstr -> jstr -> bool.

Lemma existsb_events_bind {A B} (f : Event -> bool) (m : M World A)
    (k : A -> M World B) s :
  existsb f (eventsOf (bind m k) s)
  = existsb f (eventsOf m s)
    || existsb f (eventsOf (k (resultOf m s)) (stateAfter m s)).
Proof. by rewrite events_bind, existsb_app. Qed.

(** One turn of the attachment loop on an attachment of a downloadable
    type with an [http] URL asks for the download. *)
Lemma reduceAttachment_fetches account chatId r att u s :
  includes downloadableTypes (default (js "unknown") (att_type att)) = true ->
  urlOf att = JsString u ->
  startsWith u (js "http") = true ->
  existsb (isFetchOf u (default 20 (mediaMaxMb (config account)) * 1024 * 1024))
    (eventsOf (reduceAttachment host account chatId r att) s) = true.
Proof.
  intros Htype Hurl Hhttp. unfold reduceAttachment. cbv zeta. rewrite Htype.
  rewrite existsb_events_bind. apply orb_true_iff. right.
  unfold urlOf in Hurl. rewrite Hurl.
  destruct u as [|c u]; [done|]. rewrite Hhttp.
  rewrite existsb_events_bind, events_call. cbn [existsb isFetchOf].
  rewrite (proj2 (WebhookFacts.jstr_eqb_eq _ _) eq_refl), Z.eqb_refl. done.
Qed.

Lemma reduceAttachments_fetch account chatId atts att u r s :
  In att atts ->
  includes downloadableTypes (default (js "unknown") (att_type att)) = true ->
  urlOf att = JsString u ->
  startsWith u (js "http") = true ->
  existsb (isFetchOf u (default 20 (mediaMaxMb (config account)) * 1024 * 1024))
    (eventsOf (foldM (reduceAttachment host account chatId) atts r) s) = true.
Proof.
  intros Hin Htype Hurl Hhttp. revert r s.
  induction atts as [|a atts IH]; intros r s; [done|]. cbn [foldM].
  rewrite existsb_events_bind. apply orb_true_iff.
  destruct Hin as [->|Hin]; [left | right].
  - by apply reduceAttachment_fetches.
  - by apply IH.
Qed.

(** X30: attachments are downloaded before any policy is looked at.
    Whatever the DM and group policies, and whoever the sender, every
    attachment of a downloadable type ([image], [sticker], [video],
    [audio], [file]) whose URL starts with [http] is asked for, with the
    account's byte limit, while the message is processed; so also for a
    message that the policies then drop. *)
Theorem attachments_are_downloaded_before_policies
    (message : MaxMessage) (userLocale : option jstr) (opts : MaxMonitorOptions)
    (s : State World) (att : MaxAttachment) (u : jstr) :
  In att (default [] (attachments (body message))) ->
  includes downloadableTypes (default (js "unknown") (att_type att)) = true ->
  urlOf att = JsString u ->
  startsWith u (js "http") = true ->
  existsb (isFetchOf u (mediaLimitOf opts))
    (eventsOf (processIncomingMessage host RegExp_test message userLocale opts) s)
  = true.
Proof.
  intros Hin Htype Hurl Hhttp. unfold processIncomingMessage, attachmentPhase.
  rewrite existsb_events_bind. apply orb_true_iff. left.
  rewrite existsb_events_bind. apply orb_true_iff. right.
  unfold reduceAttachments, mediaLimitOf. by eapply reduceAttachments_fetch.
Qed.

End DownloadsFirst.

Section SenderNames.

Context {World : Type}.
Variable host : forall R, Call R -> World -> R * World.
Variable RegExp_test : jstr -> jstr -> jstr -> bool.

Lemma formatSenderName_nonEmpty user : nonEmpty (formatSenderName user) = true.
Proof.
  unfold formatSenderName. destruct user as [u|]; [|done].
  destruct (nonEmpty (join _ _)) eqn:Hj; [exact Hj|].
  destruct (username u) as [n|]; [|done].
  by destruct (nonEmpty n) eqn:Hn.
Qed.

(** X14: [formatSenderName] never answers with the empty string: the
    names joined by a blank when that is not empty, else the user name
    when it is set and not empty, else [user_<id>], and [Unknown] without
    a user.  So every context handed to [finalizeInboundContext] carries a
    sender name. *)
Theorem sender_name_is_never_empty
    (message : MaxMessage) (userLocale : option jstr) (opts : MaxMonitorOptions) :
  (forall user, formatSenderName user <> [])
  /\ emitsOnly (fun e => forall name, finalizedSenderName e = Some name ->
                  name = Some (formatSenderName (sender message)))
       (processIncomingMessage host RegExp_test message userLocale opts).
Proof.
  split.
  - intros user Hnil. pose proof (formatSenderName_nonEmpty user) as Hne.
    by rewrite Hnil in Hne.
  - unfold processIncomingMessage, attachmentPhase, reduceAttachments, reduceAttachment,
      afterAttachments, detectMention, policyGates, dmGate, requestPairing, groupGate,
      groupPolicyGate, mentionGate, forwardToHost, deliverMaxReply, deliverMedia.
    emits_walk ltac:(idtac; match goal with
                     | H : finalizedSenderName _ = Some _ |- _ =>
                         cbn [finalizedSenderName SenderName] in H;
                         try discriminate H; injection H as <-;
                         by rewrite formatSenderName_nonEmpty
                     end).
Qed.

End SenderNames.

(** *** The theorems at concrete inputs *)

Lemma dm_policy_disabled_blocks_direct_messages_witness :
  Forall (fun e => isDispatch e = false /\ isResolveAgentRoute e = false
                   /\ isUpsert e = false /\ isSend e = false
                   /\ isReadAllowFrom e = false)
    (Reference.trace
       (processIncomingMessage Reference.referenceHost Reference.referenceRegExp
          (Reference.textMessage "dialog" 1 "mid.1" (Some (js "hi")) None) None
          (Reference.optionsWith Scenarios.disabledDirect None))).
Proof.
  exact (dm_policy_disabled_blocks_direct_messages
           Reference.referenceHost Reference.referenceRegExp
           (Reference.textMessage "dialog" 1 "mid.1" (Some (js "hi")) None) None
           (Reference.optionsWith Scenarios.disabledDirect None)
           eq_refl eq_refl Reference.start).
Defined.

Lemma dm_policy_open_forwards_direct_messages_witness :
  let es :=
    Reference.trace
      (processIncomingMessage Reference.referenceHost Reference.referenceRegExp
         (Reference.textMessage "dialog" 1 "mid.1" (Some (js "hi")) None) None
         (Reference.optionsWith Reference.openDirect None)) in
  forwarded es = true
  /\ Forall (fun e => isUpsert e = false /\ isReadAllowFrom e = false) es.
Proof.
  cbv zeta.
  refine (dm_policy_open_forwards_direct_messages
            Reference.referenceHost Reference.referenceRegExp
            (Reference.textMessage "dialog" 1 "mid.1" (Some (js "hi")) None) None
            (Reference.optionsWith Reference.openDirect None)
            Reference.start eq_refl _ eq_refl).
  left. reflexivity.
Defined.

(** Alice, user 1, writes to a bot whose allow list names her. *)
Lemma direct_message_forwarded_iff_sender_allowed_witness :
  forwarded
    (Reference.trace
       (processIncomingMessage Reference.referenceHost Reference.referenceRegExp
          (Reference.textMessage "dialog" 1 "mid.1" (Some (js "hi")) None) None
          (Reference.optionsWith (Scenarios.allowlistDirect 1) None)))
  = true.
Proof.
  refine (eq_trans
            (proj1 (direct_message_forwarded_iff_sender_allowed
                      Reference.referenceHost Reference.referenceRegExp
                      (Reference.textMessage "dialog" 1 "mid.1" (Some (js "hi")) None)
                      None (Reference.optionsWith (Scenarios.allowlistDirect 1) None)
                      Reference.start eq_refl _ _ _)) _).
  - left. reflexivity.
  - vm_compute. discriminate.
  - vm_compute. discriminate.
  - reflexivity.
Defined.

(** Alice writes to a bot whose allow list names somebody else. *)
Lemma unlisted_sender_dropped_silently_without_pairing_witness :
  Reference.trace
    (processIncomingMessage Reference.referenceHost Reference.referenceRegExp
       (Reference.textMessage "dialog" 1 "mid.1" (Some (js "hi")) None) None
       (Reference.optionsWith (Scenarios.allowlistDirect 42) None))
  = [Ev (Log Debug (LogProcessing (js "mid.1"))) tt;
     Ev (ReadAllowFromStore (js "max")) (Some [])].
Proof.
  refine (unlisted_sender_dropped_silently_without_pairing
            Reference.referenceHost Reference.referenceRegExp
            (Reference.textMessage "dialog" 1 "mid.1" (Some (js "hi")) None) None
            (Reference.optionsWith (Scenarios.allowlistDirect 42) None)
            Reference.start eq_refl _ _ _ _ eq_refl).
  - left. reflexivity.
  - vm_compute. discriminate.
  - vm_compute. discriminate.
  - vm_compute. discriminate.
Defined.

(** Without any group setting a message that mentions the bot is dropped. *)
Lemma group_message_blocked_by_group_policy_witness :
  Forall (fun e => isDispatch e = false /\ isResolveAgentRoute e = false
                   /\ isSend e = false)
    (Reference.trace
       (processIncomingMessage Reference.referenceHost Reference.referenceRegExp
          (Reference.textMessage "chat" 5 "mid.1" (Some (js "@mybot hi")) None) None
          (Reference.optionsWith Reference.emptyAccountConfig (Some (js "mybot"))))).
Proof.
  refine (group_message_blocked_by_group_policy
            Reference.referenceHost Reference.referenceRegExp
            (Reference.textMessage "chat" 5 "mid.1" (Some (js "@mybot hi")) None) None
            (Reference.optionsWith Reference.emptyAccountConfig (Some (js "mybot")))
            eq_refl _ Reference.start).
  right. split; reflexivity.
Defined.

Lemma group_message_forwarded_without_mention_when_not_required_witness :
  forwarded
    (Reference.trace
       (processIncomingMessage Reference.referenceHost Reference.referenceRegExp
          (Reference.textMessage "chat" 5 "mid.1" (Some (js "hello")) None) None
          (Reference.optionsWith Scenarios.quietGroup (Some (js "mybot")))))
  = true.
Proof.
  refine (group_message_forwarded_without_mention_when_not_required
            Reference.referenceHost Reference.referenceRegExp
            (Reference.textMessage "chat" 5 "mid.1" (Some (js "hello")) None) None
            (Reference.optionsWith Scenarios.quietGroup (Some (js "mybot")))
            Reference.start Scenarios.noMentionNeeded eq_refl _ _ _ _ eq_refl).
  - left. reflexivity.
  - vm_compute. discriminate.
  - intros _. vm_compute. reflexivity.
  - vm_compute. reflexivity.
Defined.

Lemma dispatchUpdate_forwards_only_user_input_witness :
  let message := Reference.textMessage "dialog" 1 "mid.1" (Some (js "hi")) None in
  let update := Scenarios.createdUpdate message in
  let opts := Reference.optionsWith Reference.openDirect None in
  (exists message,
      (update_type update = js "message_created"
       \/ update_type update = js "message_edited")
      /\ upd_message update = Some message
      /\ fromBotItself opts message = false)
  \/ (exists callback,
        update_type update = js "message_callback"
        /\ upd_callback update = Some callback
        /\ trim (default [] (cb_payload callback)) <> [])
  \/ (exists user,
        update_type update = js "bot_started" /\ upd_user update = Some user).
Proof.
  cbv zeta.
  refine (dispatchUpdate_forwards_only_user_input
            Reference.referenceHost Reference.referenceRegExp
            (Scenarios.createdUpdate
               (Reference.textMessage "dialog" 1 "mid.1" (Some (js "hi")) None))
            (Reference.optionsWith Reference.openDirect None) Reference.start _).
  vm_compute. reflexivity.
Defined.


(** With the platform down, three turns make three polls and three
    back-offs. *)
Lemma polling_loop_backs_off_and_continues_witness :
  let run :=
    pollingLoop Scenarios.downHost Reference.referenceRegExp 3
      (Reference.optionsWith Reference.emptyAccountConfig None) None in
  length (polls (eventsOf run Reference.start)) = 3%nat
  /\ omap sleepOf (eventsOf run Reference.start) = [3000; 3000; 3000]
  /\ snd (resultOf run Reference.start) = false.
Proof.
  cbv zeta.
  refine (polling_loop_backs_off_and_continues
            Scenarios.downHost Reference.referenceRegExp 3
            (Reference.optionsWith Reference.emptyAccountConfig None) None
            Reference.start _).
  intros w. reflexivity.
Defined.

(** A picture sent to a bot that takes no direct messages is downloaded
    all the same. *)
Lemma attachments_are_downloaded_before_policies_witness :
  let es :=
    Reference.trace
      (processIncomingMessage Reference.referenceHost Reference.referenceRegExp
         Scenarios.pictureMessage None
         (Reference.optionsWith Scenarios.disabledDirect None)) in
  existsb (isFetchOf (js "https://cdn.example/p.png") (20 * 1024 * 1024)) es = true
  /\ forwarded es = false.
Proof.
  cbv zeta. split; [|reflexivity].
  refine (attachments_are_downloaded_before_policies
            Reference.referenceHost Reference.referenceRegExp
            Scenarios.pictureMessage None
            (Reference.optionsWith Scenarios.disabledDirect None) Reference.start
            _ (js "https://cdn.example/p.png") (or_introl eq_refl) eq_refl _ eq_refl).
  vm_compute. reflexivity.
Defined.

End MonitorPolicyFacts.

(** ** The upload type of a medium *)

Module SendFacts.

Import Send.

Lemma splitAtDots_nonEmpty acc s : splitAtDots acc s <> [].
Proof.
  revert acc. induction s as [|c s IH]; intros acc; cbn [splitAtDots]; [done|].
  destruct (c =? 46)%N; [done | apply IH].
Qed.

Lemma splitAtDots_no_dot acc e :
  forallb (fun c => negb (c =? 46)%N) e = true -> splitAtDots acc e = [acc ++ e].
Proof.
  revert acc. induction e as [|c e IH]; intros acc; cbn [splitAtDots forallb].
  - by rewrite app_nil_r.
  - intros [Hc He]%andb_true_iff. apply negb_true_iff in Hc. rewrite Hc.
    rewrite IH by done. by rewrite <- app_assoc.
Qed.

Lemma last_splitAtDots acc s e :
  last (splitAtDots acc (s ++ 46%N :: e)) = last (splitAtDots [] e).
Proof.
  revert acc. induction s as [|c s IH]; intros acc; cbn [app splitAtDots].
  - change (46 =? 46)%N with true. cbv iota. rewrite last_cons.
    pose proof (splitAtDots_nonEmpty [] e) as Hne.
    destruct (splitAtDots [] e) as [|x l] using rev_ind; [done|].
    by rewrite last_snoc.
  - destruct (c =? 46)%N; [|apply IH]. rewrite last_cons, IH.
    pose proof (splitAtDots_nonEmpty [] e) as Hne.
    destruct (splitAtDots [] e) as [|x l] using rev_ind; [done|].
    by rewrite last_snoc.
Qed.

Lemma lastSegment_extension dir ext :
  forallb (fun c => negb (c =? 46)%N) ext = true ->
  lastSegment (dir ++ js "." ++ ext) = ext /\ lastSegment ext = ext.
Proof.
  intros Hext. unfold lastSegment. change (js "." ++ ext) with (46%N :: ext).
  rewrite last_splitAtDots, splitAtDots_no_dot by done. done.
Qed.

Lemma asciiLower_idemp c : asciiLower (asciiLower c) = asciiLower c.
Proof.
  unfold asciiLower. destruct ((65 <=? c) && (c <=? 90))%N eqn:Hc; [|by rewrite Hc].
  apply andb_true_iff in Hc as [Hlo Hhi]. apply N.leb_le in Hlo, Hhi.
  replace ((65 <=? c + 32) && (c + 32 <=? 90))%N with false; [done|].
  symmetry. apply andb_false_iff. right. apply N.leb_gt. lia.
Qed.

Lemma asciiLower_ascii c : isAscii c = true -> isAscii (asciiLower c) = true.
Proof.
  unfold isAscii, asciiLower. intros Hc%N.ltb_lt.
  destruct ((65 <=? c) && (c <=? 90))%N eqn:Hr; apply N.ltb_lt; [|done].
  apply andb_true_iff in Hr as [_ Hhi]. apply N.leb_le in Hhi. lia.
Qed.

Lemma asciiLower_no_dot c : (c =? 46)%N = false -> (asciiLower c =? 46)%N = false.
Proof.
  unfold asciiLower. intros Hc. destruct ((65 <=? c) && (c <=? 90))%N eqn:Hr; [|done].
  apply andb_true_iff in Hr as [Hlo _]. apply N.leb_le in Hlo. apply N.eqb_neq. lia.
Qed.

Section MediaTypes.

Variable String_toLowerCase : jstr -> jstr.

(** X27: [sendMaxMediaMessage] types a medium by what follows the last
    dot of its path, whatever comes before it (directories, earlier
    dots): a path is typed like its bare extension, so a path with no dot
    at all is typed by its whole name.  For an extension of ASCII
    characters the case of the letters does not matter. *)
Theorem mediaTypeOf_follows_last_extension (dir ext : jstr) :
  forallb (fun c => negb (c =? 46)%N) ext = true ->
  lastSegment (dir ++ js "." ++ ext) = ext
  /\ mediaTypeOf String_toLowerCase (dir ++ js "." ++ ext)
     = mediaTypeOf String_toLowerCase ext
  /\ (forallb isAscii ext = true ->
      mediaTypeOf String_toLowerCase (dir ++ js "." ++ ext)
      = mediaTypeOf String_toLowerCase (map asciiLower ext)).
Proof.
  intros Hext. destruct (lastSegment_extension dir ext Hext) as [Hdir Hbare].
  split; [exact Hdir|]. split.
  - unfold mediaTypeOf. by rewrite Hdir, Hbare.
  - intros Hascii.
    assert (Hlow : forallb (fun c => negb (c =? 46)%N) (map asciiLower ext) = true).
    { clear -Hext. induction ext as [|c e IH]; [done|]. cbn [map forallb] in *.
      apply andb_true_iff in Hext as [Hc He]. apply negb_true_iff in Hc.
      by rewrite (asciiLower_no_dot c Hc), IH. }
    assert (Hasc : forallb isAscii (map asciiLower ext) = true).
    { clear -Hascii. induction ext as [|c e IH]; [done|]. cbn [map forallb] in *.
      apply andb_true_iff in Hascii as [Hc He].
      by rewrite (asciiLower_ascii c Hc), IH. }
    destruct (lastSegment_extension [] (map asciiLower ext) Hlow) as [_ Hbare'].
    unfold mediaTypeOf, toLowerCase. rewrite Hdir, Hbare', Hascii, Hasc.
    rewrite map_map.
    assert (Hmap : map (fun x => asciiLower (asciiLower x)) ext = map asciiLower ext).
    { apply map_ext. intros c. apply asciiLower_idemp. }
    by rewrite Hmap.
Qed.

End MediaTypes.

Lemma mediaTypeOf_follows_last_extension_witness :
  mediaTypeOf (fun s => s) (js "/tmp/photo.backup" ++ js "." ++ js "PNG")
  = mediaTypeOf (fun s => s) (js "png")
  /\ mediaTypeOf (fun s => s) (js "png") = Image.
Proof.
  split; [|reflexivity].
  exact (proj2 (proj2 (mediaTypeOf_follows_last_extension (fun s => s)
                         (js "/tmp/photo.backup") (js "PNG") eq_refl)) eq_refl).
Defined.

End SendFacts.

(** ** The sticker action *)

Module ActionsFacts.

Import StickerCache Api Accounts AccountResolution Monitor Reading Actions MonitorFacts.

Lemma stripPrefix_prefixed x : stripPrefix (js "max:" ++ x) = x.
Proof. unfold stripPrefix. by rewrite dropPrefix_here. Qed.

Lemma stripPrefix_String_of_Z n : stripPrefix (String_of_Z n) = String_of_Z n.
Proof.
  unfold stripPrefix. destruct n as [|p|p]; [done| |done]. cbn [String_of_Z].
  pose proof (uint_digits_all (Pos.to_uint p)) as Hall.
  destruct (uint_digits (Pos.to_uint p)) as [|c ds]; [done|].
  cbn [forallb] in Hall. apply andb_true_iff in Hall as [Hc _].
  change (js "max:") with (109%N :: js "ax:"). cbn [dropPrefix].
  destruct (109 =? c)%N eqn:Hm; [|done]. apply N.eqb_eq in Hm as <-. done.
Qed.

Section AfterAMessage.

Context {World : Type}.
Variable host : forall R, Call R -> World -> R * World.
Variable RegExp_test : jstr -> jstr -> jstr -> bool.

(** X28: a sticker received is a sticker that can be sent back.  After
    the monitor processed a message of a chat whose last sticker carries a
    code, the [sticker] action without a sticker id sends that code to the
    chat, whether the target is written with the prefix [max:] or without;
    a sticker id given with the action is taken as it is; and for no
    target at all does the action then fail for want of a sticker id:
    every chat without a sticker of its own is sent this code. *)
Theorem sticker_action_sends_back_last_sticker
    (message : MaxMessage) (userLocale : option jstr) (opts : MaxMonitorOptions)
    (s : State World) (c : Z) (code : jstr) :
  chat_id (recipient message) = Some c ->
  last (stickerCodesOf message) = Some code ->
  let cache :=
    stickers (stateAfter
                (processIncomingMessage host RegExp_test message userLocale opts) s) in
  stickerCodeFor None (stripPrefix (js "max:" ++ String_of_Z c)) cache = Some code
  /\ stickerCodeFor None (stripPrefix (String_of_Z c)) cache = Some code
  /\ (forall given to, given <> [] -> stickerCodeFor (Some given) to cache = Some given)
  /\ (forall to,
        stickerCodeFor None to cache <> None
        /\ (lastStickerByChat cache !! to = None ->
            stickerCodeFor None to cache = Some code)).
Proof.
  intros Hc Hlast. cbv zeta.
  rewrite MonitorPolicyFacts.processIncomingMessage_stickers, Hc.
  destruct (MonitorPolicyFacts.rememberAll_codes_last c _ code (stickers s) Hlast)
    as [Hentry Hglobal]. cbv zeta in Hentry, Hglobal.
  pose proof (MonitorPolicyFacts.last_stickerCode_nonEmpty message code Hlast) as Hne.
  rewrite stripPrefix_prefixed, stripPrefix_String_of_Z.
  set (cache := rememberAll _ (stickers s)) in *.
  assert (Hown : stickerCodeFor None (String_of_Z c) cache = Some code).
  { unfold stickerCodeFor, getLastStickerCode. cbn [truthyStr String_of_chat].
    rewrite Hentry, Hne. cbn [truthyStr]. by rewrite Hne. }
  split; [exact Hown|]. split; [exact Hown|]. split.
  - intros given to Hgiven. unfold stickerCodeFor. cbn [truthyStr].
    by destruct given.
  - intros to.
    assert (Hglob : forall own,
              match own with
              | Some x => if nonEmpty x then Some x else lastStickerGlobal cache
              | None => lastStickerGlobal cache
              end <> None).
    { intros [x|]; [destruct (nonEmpty x)|]; by rewrite ?Hglobal. }
    split.
    + unfold stickerCodeFor, getLastStickerCode. cbn [truthyStr String_of_chat].
      destruct (lastStickerByChat cache !! to) as [[|x own]|]; cbn [nonEmpty];
        rewrite ?Hglobal; cbn [truthyStr]; rewrite ?Hne; done.
    + intros Hnone. unfold stickerCodeFor, getLastStickerCode.
      cbn [truthyStr String_of_chat]. rewrite Hnone, Hglobal. cbn [truthyStr].
      by rewrite Hne.
Qed.

End AfterAMessage.

(** The sticker of C4's message, sent back to chat 1. *)
Lemma sticker_action_sends_back_last_sticker_witness :
  let cache :=
    stickers (stateAfter
                (processIncomingMessage Reference.referenceHost Reference.referenceRegExp
                   (Reference.stickerMessage 1) None
                   (Reference.optionsWith Reference.openDirect None))
                Reference.start) in
  stickerCodeFor None (stripPrefix (js "max:1")) cache = Some (js "abc123")
  /\ stickerCodeFor None (js "2") cache = Some (js "abc123").
Proof.
  cbv zeta.
  destruct (sticker_action_sends_back_last_sticker
              Reference.referenceHost Reference.referenceRegExp
              (Reference.stickerMessage 1) None
              (Reference.optionsWith Reference.openDirect None)
              Reference.start 1 (js "abc123") eq_refl eq_refl)
    as (Hprefixed & _ & _ & Hany).
  split; [exact Hprefixed|].
  apply (Hany (js "2")). reflexivity.
Defined.

End ActionsFacts.
